(** * Avito-Parser: fetch resilience, extraction pipeline and reconciliation

  A shallow embedding of [core/clients.py], [core/parser.py],
  [src/main.py] and [database/models.py], and the properties of the
  natural-language specification checked against it.

  Conventions.
  - A Python [str] is a Rocq [string] holding its UTF-8 bytes.  The
    operations the sources apply to strings with ASCII arguments
    ([startswith("/")], [rstrip("/")], concatenation, equality,
    emptiness) act on the bytes exactly as they act on the code points.
  - A value obtained from [json.loads], and any dictionary entry whose
    type the sources do not fix, is a [PyVal].
  - A call that may raise returns an [Exc]; a caught exception is an
    ordinary branch.
  - External libraries (curl_cffi, playwright, bs4, json, re, the ORM)
    are interfaces: records of outcomes or operations the functions of
    the repository are run against. *)

From Stdlib Require Import Ascii String ZArith QArith Lqa Lia Sorted.
From stdpp Require Import base option list strings pretty gmap.

Set Warnings "-register-all".
Local Open Scope string_scope.
Local Open Scope list_scope.
Local Open Scope Z_scope.

(** ** Python values and exceptions *)

Module Py.

(** The exception classes that the modelled code can meet. *)
Inductive PyError : Type :=
| HTTPError (status : Z)         (* Response.raise_for_status *)
| RequestsError                  (* transport failure of session.get *)
| TimeoutError                   (* playwright wait / navigation timeout *)
| PlaywrightError                (* any other playwright failure *)
| AttributeError                 (* e.g. [5 .startswith] *)
| TypeError                      (* unhashable dict key, bad join operand *)
| OSError                        (* file system *)
| JSONDecodeError                (* json.loads on bad input *)
| ValueError                     (* int() on a bad literal *)
| IntegrityError.                (* unique constraint of the store *)

Inductive Exc (A : Type) : Type :=
| Ok (a : A)
| Raise (e : PyError).
Arguments Ok {A} a.
Arguments Raise {A} e.

Definition bind {A B} (m : Exc A) (k : A -> Exc B) : Exc B :=
  match m with
  | Ok a => k a
  | Raise e => Raise e
  end.

(** [try: m except Exception: h]. *)
Definition try_except {A} (m : Exc A) (h : PyError -> Exc A) : Exc A :=
  match m with
  | Ok a => Ok a
  | Raise e => h e
  end.

Definition is_ok {A} (m : Exc A) : bool :=
  match m with Ok _ => true | Raise _ => false end.

(** What [json.loads] can return.  Numbers are integers: a document
    with a non-integer number literal is outside the embedding. *)
Inductive PyVal : Type :=
| PNone
| PBool (b : bool)
| PInt (z : Z)
| PStr (s : string)
| PList (l : list PyVal)
| PDict (d : list (string * PyVal)).

(** [bool(v)]. *)
Definition truthy (v : PyVal) : bool :=
  match v with
  | PNone => false
  | PBool b => b
  | PInt z => negb (z =? 0)
  | PStr s => negb (String.eqb s "")
  | PList l => match l with [] => false | _ => true end
  | PDict d => match d with [] => false | _ => true end
  end.

(** Equality of values, constructor by constructor. *)
Fixpoint PyVal_eqb (a b : PyVal) : bool :=
  match a, b with
  | PNone, PNone => true
  | PBool x, PBool y => Bool.eqb x y
  | PInt x, PInt y => Z.eqb x y
  | PStr x, PStr y => String.eqb x y
  | PList l1, PList l2 =>
      (fix all2 (l1 l2 : list PyVal) : bool :=
         match l1, l2 with
         | [], [] => true
         | x :: l1', y :: l2' => PyVal_eqb x y && all2 l1' l2'
         | _, _ => false
         end) l1 l2
  | PDict d1, PDict d2 =>
      (fix all2 (d1 d2 : list (string * PyVal)) : bool :=
         match d1, d2 with
         | [], [] => true
         | (k1, x) :: d1', (k2, y) :: d2' =>
             String.eqb k1 k2 && PyVal_eqb x y && all2 d1' d2'
         | _, _ => false
         end) d1 d2
  | _, _ => false
  end.

(** [a or b] on values. *)
Definition por (a b : PyVal) : PyVal := if truthy a then a else b.

Definition isinstance_str (v : PyVal) : bool :=
  match v with PStr _ => true | _ => false end.
Definition isinstance_dict (v : PyVal) : bool :=
  match v with PDict _ => true | _ => false end.
Definition isinstance_list (v : PyVal) : bool :=
  match v with PList _ => true | _ => false end.

(** [d.get(k)] on a parsed JSON object.  [json.loads] keeps one value per key,
    so the association list holds each key once. *)
Fixpoint assoc_get (k : string) (d : list (string * PyVal)) : PyVal :=
  match d with
  | [] => PNone
  | (k', v) :: d' => if String.eqb k k' then v else assoc_get k d'
  end.

Fixpoint assoc_mem (k : string) (d : list (string * PyVal)) : bool :=
  match d with
  | [] => false
  | (k', _) :: d' => String.eqb k k' || assoc_mem k d'
  end.

(** [s.startswith(p)]. *)
Definition startswith (p s : string) : bool := String.prefix p s.

(** [s.rstrip("/")]. *)
Fixpoint rstrip_slash (s : string) : string :=
  match s with
  | EmptyString => EmptyString
  | String c s' =>
      match rstrip_slash s' with
      | EmptyString => if Ascii.eqb c "/"%char then EmptyString else String c EmptyString
      | r => String c r
      end
  end.

(** [bool(s)] for an optional string ([None] and [""] are falsy). *)
Definition truthy_str (o : option string) : bool :=
  match o with
  | Some s => negb (String.eqb s "")
  | None => false
  end.

End Py.
Export Py.

Declare Scope exc_scope.
Delimit Scope exc_scope with exc.
Notation "'do' x <- m ; k" := (Py.bind m (fun x => k))
  (at level 10, x name, m at level 100, k at level 200) : exc_scope.

(** The parts of the Python runtime the sources call and that are given
  here by their outcome. *)
Class PyRuntime : Type := {
(** [json.loads(s)]: the parsed value, or [Raise JSONDecodeError]. *)
json_loads : string -> Exc PyVal;
(** [str(v)], as in [f"{price}"]. *)
py_str : PyVal -> string;
(** [s.strip()], [s.lower()], [s.split(sep)], [len(s)], [int(s)]. *)
str_strip : string -> string;
str_lower : string -> string;
str_split : string -> string -> list string;
str_len : string -> Z;
py_int : string -> Exc Z;
(** [json.dumps(l, ensure_ascii=False)] for a list of strings *)
json_dumps : list string -> string;
(** [re.compile(r"[\s\u00A0]+").sub(" ", s)] *)
re_sub_spaces : string -> string;
(** [re.sub(r"[^\d]", "", s)] *)
re_sub_non_digits : string -> string;
(** group 1 of [re.search(r"(\d+)%", s)] *)
re_search_percent : string -> option string;
(** group 1 of [re.search(r"комиссия\s*(\d+)", s)] *)
re_search_commission : string -> option string;
(** [re.sub(r'<[^>]+>', ' ', s)] *)
re_sub_tags : string -> string;
(** group 0 of [re.search(r'([\d\s\u00A0]+)\s*₽', s)] *)
re_search_price : string -> option string;
(** for each match [m] of the anchor pattern of the regex sweep, in
    order: [m.group(1)], [m.group(2)] and [html[m.end():m.end()+300]] *)
re_finditer_item_anchors : string -> list (string * string * string);
}.

(** ** core/clients.py *)

(** [config/settings.py]: the fields the fetch layer reads. *)
Record Settings : Type := {
user_agent : string;
user_agent_list : option (list string);   (* stripped non-empty lines of the file, if it exists *)
proxy_url : option string;
proxies_file_lines : list string;         (* load_proxies(settings.proxies_file) *)
anticaptcha_key : option string;
}.

Module CookieStore.

(** The cookie file as [load] sees it. *)
Inductive FileState : Type :=
| Absent                       (* [self.path.exists()] is false *)
| Unreadable (e : PyError)     (* [open] or the decoding read raises *)
| Content (s : string).        (* the text of the file *)

Definition default : PyVal :=
  PDict [("cookies", PList []); ("cookie_dict", PDict [])].

Inductive LoadLog : Type :=
| LogLoadFailed (e : PyError).  (* "Failed to load cookies; starting fresh" *)

(** [CookieStore.load]: the returned value and what it logged. *)
Definition load `{PyRuntime} (f : FileState) : PyVal * list LoadLog :=
  match f with
  | Absent => (default, [])
  | Unreadable e => (default, [LogLoadFailed e])
  | Content s =>
      match json_loads s with
      | Ok v => (v, [])
      | Raise e => (default, [LogLoadFailed e])
      end
  end.

End CookieStore.

(** The network and the random generator as [CurlClient.get] meets them,
    indexed by the attempt number (1-based, as [attempt] in the source). *)
Record Response : Type := {
status_code : Z;
text : string;
}.

Record Net : Type := {
(** outcome of [self.session.get(url, **request_kwargs)] on attempt [n] *)
session_get : Z -> Exc Response;
(** the draw of [random.uniform(0, 0.5)] on attempt [n], in seconds *)
uniform_0_half : Z -> Q;
(** the index drawn by [random.choice] over a list of length [len] on attempt [n] *)
random_index : Z -> nat -> nat;
}.

(** [random.choice(l)] for a non-empty [l]. *)
Definition random_choice (net : Net) (attempt : Z) (l : list string) : option string :=
  l !! (random_index net attempt (length l) mod length l)%nat.

(** "UA selection": the explicit identity, else a random pick from the
    loaded list, else none. *)
Definition select_user_agent (s : Settings) (net : Net) (attempt : Z) : option string :=
  if negb (String.eqb (user_agent s) "") then Some (user_agent s)
  else match user_agent_list s with
       | Some (u :: us) => random_choice net attempt (u :: us)
       | _ => None
       end.

(** "proxy selection": the configured proxy, else a random pick, else direct. *)
Definition select_proxy (s : Settings) (net : Net) (attempt : Z) : option string :=
  let proxy :=
    if truthy_str (proxy_url s) then proxy_url s
    else match proxies_file_lines s with
         | [] => None
         | l => random_choice net attempt l
         end in
  if truthy_str proxy then proxy else None.

(** [v.get(k)] where [v] is whatever a JSON file held: only a [dict]
    has the method. *)
Definition py_get (v : PyVal) (k : string) : Exc PyVal :=
  match v with
  | PDict d => Ok (assoc_get k d)
  | _ => Raise AttributeError
  end.

Module PlaywrightClient.

(** One browser session, given by the outcome of each playwright call
    that [get] makes.  Calls that the source wraps in [try/except] are
    listed with the others; the wrapping is in [get]. *)
Record Browser : Type := {
(** [sync_playwright()], [chromium.launch], [new_context], [new_page],
    [set_extra_http_headers] *)
launch : Exc unit;
cookie_file : CookieStore.FileState;
add_cookies : Exc unit;
(** [page.goto(url, wait_until="networkidle", timeout=timeout_ms)] *)
goto : Exc unit;
(** [page.wait_for_selector('a[data-marker="item-title"]', timeout=timeout_ms)] *)
wait_item_title : Exc unit;
(** [page.wait_for_selector('[data-marker="catalog-serp"], .iva-item-content-fRmzq,
    .iva-item-body-oMJBI', timeout=timeout_ms)] *)
wait_catalog : Exc unit;
(** the eight [mouse.wheel] / [wait_for_timeout] steps *)
scroll : Exc unit;
(** [page.eval_on_selector(...)] for the [data-sitekey] attribute *)
eval_site_key : Exc PyVal;
(** [solver.solve_and_return_solution()]: a token string, or [0] *)
solve_and_return_solution : Exc PyVal;
(** the two [page.evaluate] calls that insert the token *)
inject_token : Exc unit;
(** [page.click('button[type="submit"]', timeout=2000)] *)
click_submit : Exc unit;
(** [page.wait_for_load_state("networkidle", timeout=timeout_ms)] *)
wait_load_state : Exc unit;
(** [page.content()], after a completed token injection ([true]) or
    without one ([false]) *)
page_content : bool -> Exc string;
(** [context.cookies()] and the store write *)
save_cookies : Exc unit;
(** [context.close()], [browser.close()] *)
close : Exc unit;
}.

Definition solve_recaptcha_v2 (s : Settings) (b : Browser) : Exc PyVal :=
  if negb (truthy_str (anticaptcha_key s)) then Ok PNone
  else
    (do token <- solve_and_return_solution b ;
     (* [token and token != 0 and token != ""] *)
     Ok (if truthy token then token else PNone))%exc.

(** "Ensure list items are rendered": the wait for the title marker and,
    in its [except] branch, the unguarded wait for a catalog container. *)
Definition ensure_rendered (b : Browser) : Exc unit :=
  try_except (wait_item_title b) (fun _ => wait_catalog b).

(** The reCAPTCHA step; the result tells whether the token injection
    ran to its end. *)
Definition recaptcha_step (s : Settings) (b : Browser) : Exc bool :=
  let site_key :=
    match eval_site_key b with Ok k => k | Raise _ => PNone end in
  if truthy site_key then
    (do token <- solve_recaptcha_v2 s b ;
     if truthy token then
       Ok (is_ok (do _ <- inject_token b ;
                  do _ <- try_except (click_submit b) (fun _ => Ok tt) ;
                  wait_load_state b))
     else Ok false)%exc
  else Ok false.

(** What [get] does once the page counts as rendered.  The scroll, the
    cookie write and the debug dump swallow their own exceptions. *)
Definition after_render (s : Settings) (b : Browser) : Exc string :=
  (do solved <- recaptcha_step s b ;
   do content <- page_content b solved ;
   do _ <- close b ;
   Ok content)%exc.

(** [PlaywrightClient.get]. *)
Definition get `{PyRuntime} (s : Settings) (b : Browser) : Exc string :=
  (do _ <- launch b ;
   let stored := fst (CookieStore.load (cookie_file b)) in
   do cookies <- py_get stored "cookies" ;
   do _ <- (if truthy cookies
         then try_except (add_cookies b) (fun _ => Ok tt)
         else Ok tt) ;
   do _ <- goto b ;
   do _ <- ensure_rendered b ;
   after_render s b)%exc.

(** The steps of [get] before the wait for the markers all succeed. *)
Definition reaches_wait `{PyRuntime} (b : Browser) : Prop :=
  launch b = Ok tt /\
  (exists cookies, py_get (fst (CookieStore.load (cookie_file b))) "cookies" = Ok cookies) /\
  goto b = Ok tt.

End PlaywrightClient.

Module CurlClient.

Inductive Event : Type :=
| EvRequest (attempt : Z) (ua proxy : option string)   (* [self.session.get] *)
| EvSaveCookies                                        (* [self.cookie_store.save] *)
| EvSleep (seconds : Q)                                (* [time.sleep(backoff)] *)
| EvPlaywright.                                        (* [PlaywrightClient(...).get(url)] *)

Definition max_attempts : Z := 5.

Definition status_in (st : Z) (codes : list Z) : bool :=
  existsb (Z.eqb st) codes.

(** [Response.ok] of curl_cffi: [200 <= status_code < 400]. *)
Definition response_ok (r : Response) : bool :=
  (200 <=? status_code r) && (status_code r <? 400).

(** [resp.raise_for_status()]. *)
Definition raise_for_status (r : Response) : Exc unit :=
  if response_ok r then Ok tt else Raise (HTTPError (status_code r)).

(** [min(10, 2 ** attempt) + random.uniform(0, 0.5)]. *)
Definition backoff (net : Net) (attempt : Z) : Q :=
  (inject_Z (Z.min 10 (2 ^ attempt)) + uniform_0_half net attempt)%Q.

(** The body of [for attempt in range(1, max_attempts + 1)], followed by
    the fallback that is reached when the loop runs out. *)
Fixpoint attempts `{PyRuntime} (s : Settings) (net : Net)
    (b : PlaywrightClient.Browser) (todo : list Z) : list Event * Exc string :=
  match todo with
  | [] => ([EvPlaywright], PlaywrightClient.get s b)
  | attempt :: rest =>
      let req := EvRequest attempt (select_user_agent s net attempt)
                           (select_proxy s net attempt) in
      match session_get net attempt with
      | Raise e => ([req], Raise e)
      | Ok resp =>
          if status_in (status_code resp) [200; 201] then
            ([req; EvSaveCookies], Ok (text resp))
          else if status_in (status_code resp) [403; 429; 503] then
            let '(evs, r) := attempts s net b rest in
            (req :: EvSaveCookies :: EvSleep (backoff net attempt) :: evs, r)
          else
            ([req; EvSaveCookies],
             (do _ <- raise_for_status resp ; Ok (text resp))%exc)
      end
  end.

(** [CurlClient.get]: the events in order, and the returned body or the
    raised exception. *)
Definition get `{PyRuntime} (s : Settings) (net : Net)
    (b : PlaywrightClient.Browser) : list Event * Exc string :=
  attempts s net b (seqZ 1 max_attempts).

(** The success statuses and the statuses that are retried. *)
Definition success (r : Response) : Prop :=
  status_in (status_code r) [200; 201] = true.
Definition retryable (r : Response) : Prop :=
  status_in (status_code r) [403; 429; 503] = true.

(** The attempts [from .. from + n - 1] all met a retryable status. *)
Definition all_retryable (net : Net) (from : Z) (n : nat) : Prop :=
  forall a, from <= a < from + Z.of_nat n ->
    exists r, session_get net a = Ok r /\ retryable r.

Definition is_request (e : Event) : bool :=
  match e with EvRequest _ _ _ => true | _ => false end.
Definition is_playwright (e : Event) : bool :=
  match e with EvPlaywright => true | _ => false end.
Definition sleeps (evs : list Event) : list Q :=
  omap (fun e => match e with EvSleep q => Some q | _ => None end) evs.
Definition requests (evs : list Event) : nat := length (List.filter is_request evs).
Definition fallbacks (evs : list Event) : nat := length (List.filter is_playwright evs).

End CurlClient.

(** ** core/parser.py *)

(** The pre-reconciliation record that the tiers build as a [dict].
    [d.get(k)] does not tell an absent key from a [None] entry, and
    neither does this record.  Tier 2 copies [title], [url] and
    [description] from JSON without looking at their type. *)
Record Candidate : Type := {
title : PyVal;
url : PyVal;
price : option string;
price_raw : option string;
price_value : option Z;
bail : option string;
bail_raw : option string;
bail_value : option Z;
tax : option string;
commission_raw : option string;
commission : option Z;
services : option string;
services_raw : option string;
address : option string;
description : PyVal;
images : option (list string);
}.

(** [{}] *)
Definition empty_item : Candidate :=
  {| title := PNone; url := PNone; price := None; price_raw := None;
     price_value := None; bail := None; bail_raw := None; bail_value := None;
     tax := None; commission_raw := None; commission := None;
     services := None; services_raw := None; address := None;
     description := PNone; images := None |}.

(** [any(candidate.get(k) for k in ("title", "url"))] *)
Definition has_title_or_url (c : Candidate) : bool :=
  truthy (title c) || truthy (url c).

(** [bool(data.get("images"))] *)
Definition has_images (c : Candidate) : bool :=
  match images c with
  | Some (_ :: _) => true
  | _ => false
  end.

Definition of_opt_str (o : option string) : PyVal :=
  match o with Some s => PStr s | None => PNone end.

(** CSS selectors, in the forms the parser writes them. *)
Inductive AttrTest : Type :=
| HasAttr (a : string)          (* [a] *)
| AttrIs (a v : string)         (* [a="v"] *)
| AttrHas (a v : string).       (* [a*="v"] *)

(** A compound selector: [tag.class1.class2[attr]...]. *)
Record Compound : Type := {
sel_tag : option string;
sel_classes : list string;
sel_attrs : list AttrTest;
}.

(** A descendant chain [c1 c2 ... cn] (the last compound is the subject)
    and a comma-separated group of chains. *)
Definition Chain : Type := list Compound.
Definition Selector : Type := list Chain.

Definition tag_ (t : string) (ats : list AttrTest) : Compound :=
  {| sel_tag := Some t; sel_classes := []; sel_attrs := ats |}.
Definition tag_class (t c : string) (ats : list AttrTest) : Compound :=
  {| sel_tag := Some t; sel_classes := [c]; sel_attrs := ats |}.
Definition class_ (c : string) : Compound :=
  {| sel_tag := None; sel_classes := [c]; sel_attrs := [] |}.
Definition attrs_ (ats : list AttrTest) : Compound :=
  {| sel_tag := None; sel_classes := []; sel_attrs := ats |}.

(** The part of bs4 that the parser uses.  A [Tag] is an element of a
    parsed document (the document itself included). *)
Class BS4 : Type := {
Tag : Type;
(** [BeautifulSoup(html, "lxml")], [BeautifulSoup(html, "html.parser")] *)
soup_lxml : string -> Tag;
soup_html_parser : string -> Tag;
(** [tag.select(selector)], in document order *)
select : Tag -> Selector -> list Tag;
(** [soup.find_all("script")] *)
find_all_script : Tag -> list Tag;
(** [tag.get(name)] for the single-valued attributes [href], [title], [src] *)
attr : Tag -> string -> option string;
(** [tag.get_text(" ")] *)
get_text : Tag -> string;
(** [tag.string] *)
tag_string : Tag -> option string;
(** [tag.find_next(name, attrs={k: v})]; [None] leaves the part out *)
find_next : Tag -> option string -> option (string * string) -> option Tag;
(** [tag.parent], [tag.name], [tag == other] *)
parent : Tag -> option Tag;
name : Tag -> string;
tag_eqb : Tag -> Tag -> bool;
}.

(** [tag.select_one(selector)] *)
Definition select_one `{BS4} (t : Tag) (selector : Selector) : option Tag :=
  head (select t selector).

(** [a or b or ...] on optional tags (a [Tag] is always truthy). *)
Fixpoint first_selected `{BS4} (t : Tag) (selectors : list Selector) : option Tag :=
  match selectors with
  | [] => None
  | sel :: rest =>
      match select_one t sel with
      | Some el => Some el
      | None => first_selected t rest
      end
  end.

Module ListingListProcessor.

Section Processor.
Context `{PyRuntime} `{BS4}.

(** [_normalize] *)
Definition _normalize (text : option string) : string :=
  if truthy_str text then str_strip (re_sub_spaces (default "" text)) else "".

(** [_extract_digits] *)
Definition _extract_digits (text : option string) : option Z :=
  match text with
  | Some t =>
      if String.eqb t "" then None
      else
        let digits := re_sub_non_digits t in
        if String.eqb digits "" then None
        else match py_int digits with Ok n => Some n | Raise _ => None end
  | None => None
  end.

(** [_extract_percentage] *)
Definition _extract_percentage (text : option string) : option Z :=
  match text with
  | Some t =>
      if String.eqb t "" then None
      else
        match re_search_percent t with
        | Some g => match py_int g with Ok n => Some n | Raise _ => None end
        | None =>
            match re_search_commission (str_lower t) with
            | Some g => match py_int g with Ok n => Some n | Raise _ => None end
            | None => None
            end
        end
  | None => None
  end.

(** [href] made absolute against [base_url] when it starts with "/". *)
Definition resolve_href (base_url : option string) (href : string) : string :=
  if startswith "/" href && truthy_str base_url
  then rstrip_slash (default "" base_url) +:+ href
  else href.

(** The selectors of [extract_from_soup], each under the text it has in
    the source. *)

(* 'div.iva-item-content-fRmzq, div.iva-item-body-oMJBI' *)
Definition CARDS_PRIMARY : Selector :=
  [[tag_class "div" "iva-item-content-fRmzq" []];
   [tag_class "div" "iva-item-body-oMJBI" []]].

(* 'div[data-marker="item"], div.iva-item-root, div.index-root, .js-catalog-item,
   [data-marker*="item"]' *)
Definition CARDS_FALLBACK : Selector :=
  [[tag_ "div" [AttrIs "data-marker" "item"]];
   [tag_class "div" "iva-item-root" []];
   [tag_class "div" "index-root" []];
   [class_ "js-catalog-item"];
   [attrs_ [AttrHas "data-marker" "item"]]].

(* 'a[data-marker="item-title"][href]', '.iva-item-title a[href]',
   'a[href*="/item/"]', 'a[title][href]' *)
Definition CARD_LINK : list Selector :=
  [[[tag_ "a" [AttrIs "data-marker" "item-title"; HasAttr "href"]]];
   [[class_ "iva-item-title"; tag_ "a" [HasAttr "href"]]];
   [[tag_ "a" [AttrHas "href" "/item/"]]];
   [[tag_ "a" [HasAttr "title"; HasAttr "href"]]]].

(* 'p[data-marker="item-price"]', 'span[data-marker="item-price"]',
   '.iva-item-price', '[data-marker*="price"]', '.price-price',
   '[itemprop="offers"]' *)
Definition CARD_PRICE : list Selector :=
  [[[tag_ "p" [AttrIs "data-marker" "item-price"]]];
   [[tag_ "span" [AttrIs "data-marker" "item-price"]]];
   [[class_ "iva-item-price"]];
   [[attrs_ [AttrHas "data-marker" "price"]]];
   [[class_ "price-price"]];
   [[attrs_ [AttrIs "itemprop" "offers"]]]].

(* 'p[data-marker="item-specific-params"]' *)
Definition CARD_PARAMS : Selector :=
  [[tag_ "p" [AttrIs "data-marker" "item-specific-params"]]].

(* '[data-marker="item-address"]', '.iva-item-address', '[class*="address"]',
   '[data-marker*="address"]' *)
Definition CARD_ADDRESS : list Selector :=
  [[[attrs_ [AttrIs "data-marker" "item-address"]]];
   [[class_ "iva-item-address"]];
   [[attrs_ [AttrHas "class" "address"]]];
   [[attrs_ [AttrHas "data-marker" "address"]]]].

(* 'div.iva-item-bottomBlock-VewGa p', '[data-marker="item-description"]',
   '[data-marker*="description"]', '[class*="description"]' *)
Definition CARD_DESCRIPTION : list Selector :=
  [[[tag_class "div" "iva-item-bottomBlock-VewGa" []; tag_ "p" []]];
   [[attrs_ [AttrIs "data-marker" "item-description"]]];
   [[attrs_ [AttrHas "data-marker" "description"]]];
   [[attrs_ [AttrHas "class" "description"]]]].

(* 'img.photo-slider-image-cD891[src], img[data-marker="image"],
   .iva-item-image img, [data-marker*="image"] img' *)
Definition CARD_IMAGES : Selector :=
  [[tag_class "img" "photo-slider-image-cD891" [HasAttr "src"]];
   [tag_ "img" [AttrIs "data-marker" "image"]];
   [class_ "iva-item-image"; tag_ "img" []];
   [attrs_ [AttrHas "data-marker" "image"]; tag_ "img" []]].

(* 'a[data-marker="item-title"][href], .iva-item-title a[href], a[href*="/item/"]' *)
Definition PAGE_LINKS : Selector :=
  [[tag_ "a" [AttrIs "data-marker" "item-title"; HasAttr "href"]];
   [class_ "iva-item-title"; tag_ "a" [HasAttr "href"]];
   [tag_ "a" [AttrHas "href" "/item/"]]].

(* 'script[type="application/ld+json"]' *)
Definition LD_JSON_SCRIPTS : Selector :=
  [[tag_ "script" [AttrIs "type" "application/ld+json"]]].

(** [a.get("title") or a.get_text(" ")], normalised. *)
Definition link_title (a : Tag) : string :=
  _normalize (Some (if truthy_str (attr a "title")
                    then default "" (attr a "title") else get_text a)).

(** [sub in s] *)
Definition contains (sub s : string) : bool :=
  match String.index 0 sub s with Some _ => true | None => false end.

(** The fields read off the params line "Залог · Комиссия · ЖКУ". *)
Record Params : Type := {
p_bail : option string;
p_bail_value : option Z;
p_tax : option string;
p_commission_value : option Z;
p_services : option string;
}.

Definition no_params : Params :=
  {| p_bail := None; p_bail_value := None; p_tax := None;
     p_commission_value := None; p_services := None |}.

(** The body of [for part in parts]. *)
Definition params_step (acc : Params) (part : string) : Params :=
  if startswith "Залог" part then
    {| p_bail := Some part; p_bail_value := _extract_digits (Some part);
       p_tax := p_tax acc; p_commission_value := p_commission_value acc;
       p_services := p_services acc |}
  else if startswith "Комиссия" part || startswith "Без комиссии" part then
    {| p_bail := p_bail acc; p_bail_value := p_bail_value acc;
       p_tax := Some part; p_commission_value := _extract_percentage (Some part);
       p_services := p_services acc |}
  else if startswith "ЖКУ" part || contains "счетчики" part then
    {| p_bail := p_bail acc; p_bail_value := p_bail_value acc;
       p_tax := p_tax acc; p_commission_value := p_commission_value acc;
       p_services := Some part |}
  else acc.

Definition card_params (card : Tag) : Params :=
  match select_one card CARD_PARAMS with
  | Some params_p =>
      let params_text := _normalize (Some (get_text params_p)) in
      let parts := map str_strip (str_split "·" params_text) in
      fold_left params_step parts no_params
  | None => no_params
  end.

(** [x if x else absent], as in [if bail_raw: item["bail_raw"] = bail_raw]. *)
Definition when_truthy (o : option string) : option string :=
  if truthy_str o then o else None.

(** The address line of a card, with the next [p] after it as the
    district line. *)
Definition card_address (card : Tag) : option string :=
  match first_selected card CARD_ADDRESS with
  | Some addr_blk =>
      let addr_main := _normalize (Some (get_text addr_blk)) in
      let extra :=
        match find_next addr_blk (Some "p") None with
        | Some next_p =>
            if negb (tag_eqb addr_blk next_p)
            then Some (_normalize (Some (get_text next_p)))
            else None
        | None => None
        end in
      Some (addr_main +:+ (if truthy_str extra then ", " +:+ default "" extra else ""))
  | None => None
  end.

(** One image source made absolute: "//host/p" gets the scheme, "/p"
    gets [base_url]. *)
Definition resolve_src (base_url : option string) (src : string) : string :=
  if startswith "//" src then "https:" +:+ src
  else if startswith "/" src && truthy_str base_url
       then rstrip_slash (default "" base_url) +:+ src
       else src.

Definition mem_str (x : string) (l : list string) : bool :=
  existsb (String.eqb x) l.

(** The loop over the [img] elements of a card: [srcs] are their
    [img.get("src")], [imgs] the list built so far.  The membership
    test reads the source as written in the markup. *)
Fixpoint collect_images (base_url : option string) (srcs : list (option string))
    (imgs : list string) : list string :=
  match srcs with
  | [] => imgs
  | src :: rest =>
      if truthy_str src && negb (mem_str (default "" src) imgs)
      then collect_images base_url rest (imgs ++ [resolve_src base_url (default "" src)])
      else collect_images base_url rest imgs
  end.

Definition card_images (base_url : option string) (card : Tag) : list string :=
  collect_images base_url (map (fun img => attr img "src") (select card CARD_IMAGES)) [].

(** The [item] built for one card node. *)
Definition card_item (base_url : option string) (card : Tag) : Candidate :=
  let a := first_selected card CARD_LINK in
  let price_text :=
    match first_selected card CARD_PRICE with
    | Some price_el => Some (_normalize (Some (get_text price_el)))
    | None => None
    end in
  let ps := card_params card in
  {| title := match a with Some a => PStr (link_title a) | None => PNone end;
     url := match a with
            | Some a => of_opt_str (option_map (resolve_href base_url) (attr a "href"))
            | None => PNone
            end;
     price := price_text;
     price_raw := price_text;
     price_value := _extract_digits price_text;
     bail := p_bail ps;
     bail_raw := when_truthy (p_bail ps);
     bail_value := p_bail_value ps;
     tax := p_tax ps;
     commission_raw := when_truthy (p_tax ps);
     commission := p_commission_value ps;
     services := p_services ps;
     services_raw := when_truthy (p_services ps);
     address := card_address card;
     description :=
       match first_selected card CARD_DESCRIPTION with
       | Some desc_p => PStr (_normalize (Some (get_text desc_p)))
       | None => PNone
       end;
     images := Some (card_images base_url card) |}.

(** [for _ in range(6): if container and container.name != 'div':
    container = container.parent] *)
Definition climb (container : option Tag) : option Tag :=
  match container with
  | Some c => if negb (String.eqb (name c) "div") then parent c else Some c
  | None => None
  end.

(* 'p[data-marker="item-price"]', '[data-marker="item-address"]' *)
Definition LINK_PRICE : Selector := [[tag_ "p" [AttrIs "data-marker" "item-price"]]].
Definition LINK_ADDRESS : Selector := [[attrs_ [AttrIs "data-marker" "item-address"]]].

(** The [item] built for one page-level title link, when no card was
    assembled; [None] when the link has no [href]. *)
Definition link_item (base_url : option string) (a : Tag) : option Candidate :=
  let title_text := link_title a in
  let href := attr a "href" in
  if negb (truthy_str href) then None
  else
    let link_url := resolve_href base_url (default "" href) in
    let container := Nat.iter 6 climb (Some a) in
    let price_el :=
      match from_option (fun c => select_one c LINK_PRICE) None container with
      | Some el => Some el
      | None => find_next a (Some "p") (Some ("data-marker", "item-price"))
      end in
    let price_text := option_map (fun el => _normalize (Some (get_text el))) price_el in
    let addr_el :=
      match from_option (fun c => select_one c LINK_ADDRESS) None container with
      | Some el => Some el
      | None => find_next a None (Some ("data-marker", "item-address"))
      end in
    Some {| title := PStr title_text; url := PStr link_url;
            price := price_text; price_raw := price_text;
            price_value := _extract_digits price_text;
            bail := None; bail_raw := None; bail_value := None; tax := None;
            commission_raw := None; commission := None; services := None;
            services_raw := None;
            address := option_map (fun el => _normalize (Some (get_text el))) addr_el;
            description := PNone; images := None |}.

(** [extract_from_soup]: the cards under the primary selector group, or
    under the broader one when the primary matches nothing; the
    page-level links when no card gave an item. *)
Definition extract_from_soup (base_url : option string) (soup : Tag) : list Candidate :=
  let card_nodes :=
    match select soup CARDS_PRIMARY with
    | [] => select soup CARDS_FALLBACK
    | nodes => nodes
    end in
  let cards_local := List.filter has_title_or_url (map (card_item base_url) card_nodes) in
  match cards_local with
  | [] => omap (link_item base_url) (select soup PAGE_LINKS)
  | _ => cards_local
  end.

(** *** Tier 2: structured data *)

(** [[i for i in l if isinstance(i, str)]] *)
Definition strs_of (l : list PyVal) : list string :=
  omap (fun v => match v with PStr x => Some x | _ => None end) l.

(** [obj.get(k)] on a value known to be a [dict]. *)
Definition dget (obj : PyVal) (k : string) : PyVal :=
  match obj with PDict d => assoc_get k d | _ => PNone end.

(** [if url and url.startswith("/") and base_url: url = base_url.rstrip("/") + url]
    on a JSON value: a truthy value that is not a string has no
    [startswith]. *)
Definition resolve_json_url (base_url : option string) (u : PyVal) : Exc PyVal :=
  if truthy u then
    match u with
    | PStr x => Ok (PStr (resolve_href base_url x))
    | _ => Raise AttributeError
    end
  else Ok u.

(** [f"{p} {cur}" if cur else str(p)], under [if p:]. *)
Definition format_price (p cur : PyVal) : option string :=
  if truthy p then
    Some (if truthy cur then py_str p +:+ " " +:+ py_str cur else py_str p)
  else None.

(** The [image] entry as a list of strings. *)
Definition image_list (img : PyVal) : list string :=
  match img with
  | PList l => strs_of l
  | PStr x => [x]
  | _ => []
  end.

Definition keep_candidate (c : Candidate) : list Candidate :=
  if has_title_or_url c then [c] else [].

(** One offer of [@graph -> offers -> offers[]]. *)
Definition graph_offer (base_url : option string) (offer : PyVal) : Exc (list Candidate) :=
  if isinstance_dict offer then
    let image := dget offer "image" in
    let imgs := if truthy image then image_list image else [] in
    (do u <- resolve_json_url base_url (dget offer "url") ;
     Ok (keep_candidate
           {| title := dget offer "name";
              price := format_price (dget offer "price") (dget offer "priceCurrency");
              url := u; images := Some imgs;
              price_raw := None; price_value := None; bail := None;
              bail_raw := None; bail_value := None; tax := None;
              commission_raw := None; commission := None; services := None;
              services_raw := None; address := None; description := PNone |}))%exc
  else Ok [].

(** [for x in xs: items += f(x)], where [f] may raise. *)
Fixpoint collect {A B} (f : A -> Exc (list B)) (xs : list A) : Exc (list B) :=
  match xs with
  | [] => Ok []
  | x :: rest =>
      (do ys <- f x ; do zs <- collect f rest ; Ok (ys ++ zs))%exc
  end.

Definition graph_item (base_url : option string) (g : PyVal) : Exc (list Candidate) :=
  match g with
  | PDict d =>
      if assoc_mem "offers" d then
        match assoc_get "offers" d with
        | PDict o =>
            if assoc_mem "offers" o then
              match assoc_get "offers" o with
              | PList offers_list => collect (graph_offer base_url) offers_list
              | _ => Ok []
              end
            else Ok []
        | _ => Ok []
        end
      else Ok []
  | _ => Ok []
  end.

(** "Обрабатываем структуру @graph" *)
Definition graph_candidates (base_url : option string) (data : PyVal) : Exc (list Candidate) :=
  match data with
  | PDict d =>
      if assoc_mem "@graph" d then
        match assoc_get "@graph" d with
        | PList graph => collect (graph_item base_url) graph
        | _ => Ok []
        end
      else Ok []
  | _ => Ok []
  end.

(** [", ".join(filter(None, [street, locality])) or None] *)
Definition join_address (street locality : PyVal) : Exc (option string) :=
  let kept := List.filter truthy [street; locality] in
  if forallb isinstance_str kept then
    let joined := String.concat ", " (strs_of kept) in
    Ok (if String.eqb joined "" then None else Some joined)
  else Raise TypeError.

(** One Listing / Product-like entry of the flat shape. *)
Definition payload_candidate (base_url : option string) (obj : PyVal) : Exc (list Candidate) :=
  if isinstance_dict obj then
    let offers := dget obj "offers" in
    let price_text :=
      if isinstance_dict offers
      then format_price (dget offers "price") (dget offers "priceCurrency")
      else None in
    let addr := dget obj "address" in
    (do u <- resolve_json_url base_url (dget obj "url") ;
     do address_text <-
       (if isinstance_dict addr
        then join_address (dget addr "streetAddress") (dget addr "addressLocality")
        else Ok None) ;
     Ok (keep_candidate
           {| title := por (dget obj "name") (dget obj "headline");
              price := price_text; url := u; address := address_text;
              description := dget obj "description";
              images := Some (image_list (dget obj "image"));
              price_raw := None; price_value := None; bail := None;
              bail_raw := None; bail_value := None; tax := None;
              commission_raw := None; commission := None; services := None;
              services_raw := None |}))%exc
  else Ok [].

(** The body of [for tag in soup.select('script[type="application/ld+json"]')]. *)
Definition ld_json_script (base_url : option string) (tag : Tag) : Exc (list Candidate) :=
  let source := if truthy_str (tag_string tag) then default "" (tag_string tag) else "{}" in
  match json_loads source with
  | Raise _ => Ok []
  | Ok data =>
      let payloads := match data with PList l => l | _ => [data] end in
      (do from_graph <- graph_candidates base_url data ;
       do from_payloads <- collect (payload_candidate base_url) payloads ;
       Ok (from_graph ++ from_payloads))%exc
  end.

(** [walk]: every element of a list found under a key that reads
    "items", "list" or "docs" in lower case. *)
Fixpoint walk (node : PyVal) : list PyVal :=
  match node with
  | PDict d =>
      flat_map (fun kv =>
                  if mem_str (str_lower (fst kv)) ["items"; "list"; "docs"]
                     && isinstance_list (snd kv)
                  then match snd kv with PList l => l | _ => [] end
                  else walk (snd kv)) d
  | PList l => flat_map walk l
  | _ => []
  end.

(** [txt.rfind(c)] for a one-character [c]. *)
Fixpoint rfind (c : ascii) (txt : string) : option nat :=
  match txt with
  | EmptyString => None
  | String a rest =>
      match rfind c rest with
      | Some j => Some (S j)
      | None => if Ascii.eqb a c then Some 0%nat else None
      end
  end.

(** "naive brace extraction": [txt[start : end + 1]] between the first
    "{" and the last "}". *)
Definition brace_region (txt : string) : option string :=
  match String.index 0 "{" txt, rfind "}"%char txt with
  | Some start, Some stop =>
      if (start <? stop)%nat
      then Some (String.substring start (stop + 1 - start) txt)
      else None
  | _, _ => None
  end.

(** One element yielded by [walk], mapped to a candidate. *)
Definition state_item (base_url : option string) (it : PyVal) : list Candidate :=
  if isinstance_dict it then
    let u := por (dget it "url") (dget it "uri") in
    let u' :=
      match u with
      | PStr x => if truthy u then PStr (resolve_href base_url x) else u
      | _ => u
      end in
    let pr := dget it "price" in
    let price_text :=
      if isinstance_dict pr
      then format_price (por (dget pr "value") (dget pr "price")) (dget pr "currency")
      else None in
    let pics := por (dget it "images") (dget it "thumbnails") in
    let imgs :=
      match pics with
      | PList l =>
          map (fun p => if isinstance_dict p then dget p "url" else p)
              (List.filter truthy l)
      | _ => []
      end in
    keep_candidate
      {| title := por (dget it "title") (dget it "name");
         url := u'; price := price_text; images := Some (strs_of imgs);
         price_raw := None; price_value := None; bail := None;
         bail_raw := None; bail_value := None; tax := None;
         commission_raw := None; commission := None; services := None;
         services_raw := None; address := None; description := PNone |}
  else [].

(** What one inline script adds under "Heuristic for inline initial
    state JSON". *)
Definition state_script (base_url : option string) (script : Tag) : list Candidate :=
  let txt := default "" (tag_string script) in
  if contains "__INITIAL_STATE__" txt then
    match brace_region txt with
    | Some raw =>
        match json_loads raw with
        | Ok state => flat_map (state_item base_url) (walk state)
        | Raise _ => []
        end
    | None => []
    end
  else [].

(** The scan stops at the first script that gave an item. *)
Fixpoint state_scripts (base_url : option string) (scripts : list Tag) : list Candidate :=
  match scripts with
  | [] => []
  | script :: rest =>
      match state_script base_url script with
      | [] => state_scripts base_url rest
      | found => found
      end
  end.

(** [_extract_from_scripts] *)
Definition _extract_from_scripts (soup : Tag) (base_url : option string)
    : Exc (list Candidate) :=
  (do items <- collect (ld_json_script base_url) (select soup LD_JSON_SCRIPTS) ;
   match items with
   | [] => Ok (state_scripts base_url (find_all_script soup))
   | _ => Ok items
   end)%exc.

(** The tier-1 result of [extract_all]: the strict parse, and the
    lenient one when the strict parse gave no card. *)
Definition tier1_cards (html : string) (base_url : option string) : list Candidate :=
  match extract_from_soup base_url (soup_lxml html) with
  | [] => extract_from_soup base_url (soup_html_parser html)
  | cards => cards
  end.

(** [extract_all] *)
Definition extract_all (html : string) (base_url : option string)
    : Exc (list Candidate) :=
  let soup := soup_lxml html in
  let cards := tier1_cards html base_url in
  (do scripted <- _extract_from_scripts soup base_url ;
   let all_cards := cards ++ scripted in
   Ok all_cards)%exc.

(** *** Tier 3: the regex sweep *)

Definition sweep_candidate (base_url : option string)
    (m : string * string * string) : list Candidate :=
  let '(href, inner, tail) := m in
  let title_text := _normalize (Some (re_sub_tags inner)) in
  if String.eqb title_text "" || (str_len title_text <? 3)
     || String.eqb (str_lower title_text) "подробнее"
  then []
  else
    let price_text :=
      option_map (fun g => _normalize (Some g)) (re_search_price tail) in
    [{| title := PStr title_text; url := PStr (resolve_href base_url href);
        price := price_text; price_raw := price_text;
        price_value := _extract_digits price_text;
        bail := None; bail_raw := None; bail_value := None; tax := None;
        commission_raw := None; commission := None; services := None;
        services_raw := None; address := None; description := PNone;
        images := None |}].

(** "Deduplicate by URL while preserving order" *)
Fixpoint dedupe (items : list Candidate) (seen : list string) : list Candidate :=
  match items with
  | [] => []
  | it :: rest =>
      match url it with
      | PStr u =>
          if mem_str u seen then dedupe rest seen
          else it :: dedupe rest (u :: seen)
      | _ => dedupe rest seen
      end
  end.

(** [_fallback_regex_sweep] *)
Definition _fallback_regex_sweep (html : string) (base_url : option string)
    : list Candidate :=
  dedupe (flat_map (sweep_candidate base_url) (re_finditer_item_anchors html)) [].

End Processor.
End ListingListProcessor.

(** ** database/models.py and the session *)

(** The key under which a [url] value sits in a [dict], or in the
    [url] column: [True] and [1] are the same key. *)
Definition Key : Type := (Z + string)%type.

Inductive UrlCase : Type :=
| Falsy                 (* [not data.get("url")] *)
| Unhashable            (* a non-empty list or dict: [url in seen_urls] raises *)
| Keyed (k : Key).

Definition url_case (u : PyVal) : UrlCase :=
  match u with
  | PNone => Falsy
  | PBool b => if b then Keyed (inl 1) else Falsy
  | PInt z => if z =? 0 then Falsy else Keyed (inl z)
  | PStr x => if String.eqb x "" then Falsy else Keyed (inr x)
  | PList l => match l with [] => Falsy | _ => Unhashable end
  | PDict d => match d with [] => Falsy | _ => Unhashable end
  end.

(** The columns of [ParsedListing] that the upsert writes.  A column
    holds the value assigned to it; conversions made by a database
    engine on values of another type than the column's are not part of
    the model. *)
Record Columns : Type := {
c_title : PyVal;
c_price : option string;
c_price_raw : option string;
c_price_value : option Z;
c_bail : option string;
c_bail_raw : option string;
c_bail_value : option Z;
c_tax : option string;
c_commission_raw : option string;
c_commission : option Z;
c_services : option string;
c_services_raw : option string;
c_address : option string;
c_description : PyVal;
c_images_json : string;
}.

(** A row of [parsed_listings].  [created_at] has [default=utcnow];
    [updated_at] has [default=utcnow] and [onupdate=utcnow]. *)
Record ParsedListing : Type := {
r_url : Key;
r_cols : Columns;
created_at : Z;
updated_at : Z;
}.

(** The table, and the number of readings of the clock made so far. *)
Record DB : Type := {
rows : list ParsedListing;
reads : nat;
}.

Definition columns_eqb (a b : Columns) : bool :=
  PyVal_eqb (c_title a) (c_title b)
  && bool_decide (c_price a = c_price b)
  && bool_decide (c_price_raw a = c_price_raw b)
  && bool_decide (c_price_value a = c_price_value b)
  && bool_decide (c_bail a = c_bail b)
  && bool_decide (c_bail_raw a = c_bail_raw b)
  && bool_decide (c_bail_value a = c_bail_value b)
  && bool_decide (c_tax a = c_tax b)
  && bool_decide (c_commission_raw a = c_commission_raw b)
  && bool_decide (c_commission a = c_commission b)
  && bool_decide (c_services a = c_services b)
  && bool_decide (c_services_raw a = c_services_raw b)
  && bool_decide (c_address a = c_address b)
  && PyVal_eqb (c_description a) (c_description b)
  && String.eqb (c_images_json a) (c_images_json b).

Definition key_eqb (a b : Key) : bool := bool_decide (a = b).

(** [session.query(ParsedListing).filter_by(url=...).one_or_none()] *)
Definition find_row (k : Key) (table : list ParsedListing) : option ParsedListing :=
  find (fun row => key_eqb (r_url row) k) table.

(** The row with key [k] replaced by [row']. *)
Definition replace_row (k : Key) (row' : ParsedListing) (table : list ParsedListing)
    : list ParsedListing :=
  map (fun row => if key_eqb (r_url row) k then row' else row) table.

Module Main.

Section Run.
Context `{PyRuntime} `{BS4}.
(** [datetime.utcnow()]: its successive readings. *)
Variable utcnow : nat -> Z.

(** The keyword arguments of [ParsedListing(...)], and the assignments
    of the [else] branch: the same fifteen columns. *)
Definition columns_of (data : Candidate) : Columns :=
  {| c_title := title data;
     c_price := price data;
     c_price_raw := price_raw data;
     c_price_value := price_value data;
     c_bail := bail data;
     c_bail_raw := bail_raw data;
     c_bail_value := bail_value data;
     c_tax := tax data;
     c_commission_raw := commission_raw data;
     c_commission := commission data;
     c_services := services data;
     c_services_raw := services_raw data;
     c_address := address data;
     c_description := description data;
     c_images_json := json_dumps (default [] (images data)) |}.

(** The dict [seen_urls]: keys in insertion order, each once. *)
Definition SeenUrls : Type := list (Key * Candidate).

Fixpoint seen_get (k : Key) (seen_urls : SeenUrls) : option Candidate :=
  match seen_urls with
  | [] => None
  | (k', c) :: rest => if key_eqb k' k then Some c else seen_get k rest
  end.

(** [seen_urls[k] = data]: a present key keeps its place, a new key
    goes to the end. *)
Fixpoint seen_set (k : Key) (data : Candidate) (seen_urls : SeenUrls) : SeenUrls :=
  match seen_urls with
  | [] => [(k, data)]
  | (k', c) :: rest =>
      if key_eqb k' k then (k', data) :: rest
      else (k', c) :: seen_set k data rest
  end.

(** The first loop of the session block: [for data in items]. *)
Fixpoint reconcile_loop (items : list Candidate) (seen_urls : SeenUrls) : Exc SeenUrls :=
  match items with
  | [] => Ok seen_urls
  | data :: rest =>
      match url_case (url data) with
      | Falsy => reconcile_loop rest seen_urls
      | Unhashable => Raise TypeError
      | Keyed k =>
          match seen_get k seen_urls with
          | Some existing =>
              let existing_has_images := has_images existing in
              let current_has_images := has_images data in
              if current_has_images && negb existing_has_images
              then reconcile_loop rest (seen_set k data seen_urls)
              else reconcile_loop rest seen_urls
          | None => reconcile_loop rest (seen_set k data seen_urls)
          end
      end
  end.

(** [seen_urls.values()] after the first loop. *)
Definition reconcile (items : list Candidate) : Exc (list (Key * Candidate)) :=
  reconcile_loop items [].

(** The body of the second loop.  A new row takes both timestamps from
    the clock.  An existing row gets every column assigned; the ORM
    issues an UPDATE, and with it the [onupdate] reading of the clock,
    only when some column has a net change. *)
Definition upsert (db : DB) (entry : Key * Candidate) : DB :=
  let '(k, data) := entry in
  match find_row k (rows db) with
  | None =>
      {| rows := rows db ++
                 [{| r_url := k; r_cols := columns_of data;
                     created_at := utcnow (reads db);
                     updated_at := utcnow (S (reads db)) |}];
         reads := S (S (reads db)) |}
  | Some obj =>
      if columns_eqb (r_cols obj) (columns_of data) then db
      else
        {| rows := replace_row k
                     {| r_url := r_url obj; r_cols := columns_of data;
                        created_at := created_at obj;
                        updated_at := utcnow (reads db) |} (rows db);
           reads := S (reads db) |}
  end.

(** [with get_session() as session: ...]: the store after the commit and
    the value of [saved], or the exception after the rollback. *)
Definition persist (db : DB) (items : list Candidate) : Exc (DB * nat) :=
  (do seen_urls <- reconcile items ;
   Ok (fold_left upsert seen_urls db, length seen_urls))%exc.

(** [--client]: the client object that [run-once] builds. *)
Inductive Client : Type :=
| Curl (s : Settings) (net : Net) (b : PlaywrightClient.Browser)
| Playwright (s : Settings) (b : PlaywrightClient.Browser).

(** [client.get(target_url)] *)
Definition client_get (client : Client) : Exc string :=
  match client with
  | Curl s net b => snd (CurlClient.get s net b)
  | Playwright s b => PlaywrightClient.get s b
  end.

(** What a run does that can be seen from outside, in order. *)
Inductive RunEvent : Type :=
| Dispatch (markup : string)          (* [dispatcher.dispatch(html)] *)
| ExtractAll (markup : string)        (* a call of [extract_all] *)
| RegexSweep (markup : string)        (* a call of [_fallback_regex_sweep] *)
| LogFound (n : nat)                  (* "Found n item(s) ..." *)
| LogFallbackFound (n : nat)          (* "Fallback found n item(s) in file ..." *)
| LogRecovered (n : nat)              (* "Recovered n item(s) from scripts.json" *)
| LogRecoveryFailed (e : PyError)     (* "scripts.json recovery failed: ..." *)
| LogRegexRecovered (n : nat)         (* "Regex sweep recovered n item(s) from raw HTML" *)
| LogSaved (n : nat)                  (* "Saved/updated n items ..." *)
| LogFetchFailed (e : PyError)        (* "Fetch failed: ..." *)
| LogParseFileFailed (e : PyError).   (* "parse-file failed: ..." *)

Definition BASE_URL : option string := Some "https://www.avito.ru".

(** The events so far, and the candidate list or the exception that
    ended the [try] block. *)
Definition Stage : Type := (list RunEvent * Exc (list Candidate))%type.

Definition and_then (st : Stage) (f : list Candidate -> Stage) : Stage :=
  match st with
  | (evs, Ok items) => let '(evs', r) := f items in (evs ++ evs', r)
  | (evs, Raise e) => (evs, Raise e)
  end.

(** [if not items: ...] *)
Definition if_not_items (f : Stage) (items : list Candidate) : Stage :=
  match items with
  | [] => f
  | _ => ([], Ok items)
  end.

(** [items = processor.extract_all(markup, base_url="https://www.avito.ru")],
    then the log line built by [log]. *)
Definition extract_stage (log : nat -> RunEvent) (markup : string) : Stage :=
  match ListingListProcessor.extract_all markup BASE_URL with
  | Ok items => ([ExtractAll markup; log (length items)], Ok items)
  | Raise e => ([ExtractAll markup], Raise e)
  end.

(** The session block and the last log line, shared by both commands. *)
Definition save_stage (db : DB) (items : list Candidate) : list RunEvent * Exc DB :=
  match persist db items with
  | Ok (db', saved) => ([LogSaved saved], Ok db')
  | Raise e => ([], Raise e)
  end.

(** The [run-once] command.  Every exception of the [try] block ends in
    the handler that logs "Fetch failed". *)
Definition run_once (client : Client) (db : DB) : DB * list RunEvent :=
  match client_get client with
  | Raise e => (db, [LogFetchFailed e])
  | Ok html =>
      match extract_stage LogFound html with
      | (evs, Raise e) => (db, Dispatch html :: evs ++ [LogFetchFailed e])
      | (evs, Ok items) =>
          match save_stage db items with
          | (evs', Ok db') => (db', Dispatch html :: evs ++ evs')
          | (evs', Raise e) => (db, Dispatch html :: evs ++ evs' ++ [LogFetchFailed e])
          end
      end
  end.

(** The files of a dump directory as [parse-file] reads them: the page
    itself, and the siblings that exist. *)
Record Dump : Type := {
page_html : Exc string;
page_pretty_html : option (Exc string);
scripts_json : option (Exc string);
page_txt : option (Exc string);
}.

(** A fallback file: read it and run [extract_all] on it. *)
Definition file_stage (file : option (Exc string)) : Stage :=
  match file with
  | Some (Ok markup) => extract_stage LogFallbackFound markup
  | Some (Raise e) => ([], Raise e)
  | None => ([], Ok [])
  end.

(** One node of [scripts.json] mapped to a candidate. *)
Definition recover_item (it : PyVal) : list Candidate :=
  if isinstance_dict it then
    let u := por (ListingListProcessor.dget it "url") (ListingListProcessor.dget it "uri") in
    let u' :=
      match u with
      | PStr x =>
          if startswith "/" x
          then PStr (rstrip_slash "https://www.avito.ru" +:+ x) else u
      | _ => u
      end in
    let pr := ListingListProcessor.dget it "price" in
    let price_text :=
      if isinstance_dict pr
      then ListingListProcessor.format_price
             (por (ListingListProcessor.dget pr "value") (ListingListProcessor.dget pr "price"))
             (ListingListProcessor.dget pr "currency")
      else None in
    let pics := por (ListingListProcessor.dget it "images")
                    (ListingListProcessor.dget it "thumbnails") in
    let imgs :=
      match pics with
      | PList l =>
          map (fun p => if isinstance_dict p then ListingListProcessor.dget p "url" else p)
              (List.filter truthy l)
      | _ => []
      end in
    ListingListProcessor.keep_candidate
      {| title := por (ListingListProcessor.dget it "title") (ListingListProcessor.dget it "name");
         url := u'; price := price_text;
         images := Some (ListingListProcessor.strs_of imgs);
         price_raw := None; price_value := None; bail := None;
         bail_raw := None; bail_value := None; tax := None;
         commission_raw := None; commission := None; services := None;
         services_raw := None; address := None; description := PNone |}
  else [].

(** "Fallback: try scripts.json heuristics if present": its own
    [try/except] keeps every exception inside. *)
Definition scripts_stage (file : option (Exc string)) : Stage :=
  match file with
  | Some (Ok content) =>
      match json_loads (if String.eqb content "" then "{}" else content) with
      | Ok data =>
          match flat_map recover_item (ListingListProcessor.walk data) with
          | [] => ([], Ok [])
          | recovered => ([LogRecovered (length recovered)], Ok recovered)
          end
      | Raise e => ([LogRecoveryFailed e], Ok [])
      end
  | Some (Raise e) => ([LogRecoveryFailed e], Ok [])
  | None => ([], Ok [])
  end.

(** "Final fallback: regex sweep over raw HTML" *)
Definition regex_stage (html : string) : Stage :=
  let regex_items := ListingListProcessor._fallback_regex_sweep html BASE_URL in
  match regex_items with
  | [] => ([RegexSweep html], Ok [])
  | _ => ([RegexSweep html; LogRegexRecovered (length regex_items)], Ok regex_items)
  end.

(** The candidate list of [parse-file] when it reaches "Final fallback":
    [extract_all] on the page, then on [page_pretty.html], the recovery
    from [scripts.json], then [extract_all] on [page.txt], each tried
    only while the list is empty. *)
Definition before_sweep (d : Dump) (html : string) : Stage :=
  and_then (and_then (and_then
    (extract_stage LogFound html)
    (if_not_items (file_stage (page_pretty_html d))))
    (if_not_items (scripts_stage (scripts_json d))))
    (if_not_items (file_stage (page_txt d))).

(** The candidate list of [parse-file] before the session block. *)
Definition parse_file_items (d : Dump) (html : string) : Stage :=
  and_then (before_sweep d html) (if_not_items (regex_stage html)).

(** The [parse-file] command.  Every exception of the [try] block ends
    in the handler that logs "parse-file failed". *)
Definition parse_file (d : Dump) (db : DB) : DB * list RunEvent :=
  match page_html d with
  | Raise e => (db, [LogParseFileFailed e])
  | Ok html =>
      match parse_file_items d html with
      | (evs, Raise e) => (db, evs ++ [LogParseFileFailed e])
      | (evs, Ok items) =>
          match save_stage db items with
          | (evs', Ok db') => (db', evs ++ evs')
          | (evs', Raise e) => (db, evs ++ evs' ++ [LogParseFileFailed e])
          end
      end
  end.

(** The command line: [run-once], or [parse-file] with the page file it
    settled on ([None] when [parser.error] ends the process). *)
Inductive Command : Type :=
| RunOnce (client : Client)
| ParseFile (d : option Dump).

(** How a call of [main] ends for its caller. *)
Inductive Outcome : Type :=
| Returned               (* [main] returns [None] *)
| SystemExit             (* [parser.error] *)
| Raised (e : PyError).  (* an exception leaves [main] *)

(** [main] for the two commands. *)
Definition main (target_url : string) (cmd : Command) (db : DB)
    : Outcome * DB * list RunEvent :=
  if String.eqb target_url "" then (SystemExit, db, [])
  else
    match cmd with
    | RunOnce client => let '(db', evs) := run_once client db in (Returned, db', evs)
    | ParseFile (Some d) => let '(db', evs) := parse_file d db in (Returned, db', evs)
    | ParseFile None => (SystemExit, db, [])
    end.

Definition is_regex_sweep (e : RunEvent) : bool :=
  match e with RegexSweep _ => true | _ => false end.
Definition is_log_saved (e : RunEvent) : bool :=
  match e with LogSaved _ => true | _ => false end.

(** The number of calls of the regex sweep in a run. *)
Definition sweeps (evs : list RunEvent) : nat :=
  length (List.filter is_regex_sweep evs).

End Run.
End Main.

(** *** Vocabulary of the reconciliation properties *)

(** The candidates of a batch that sit under key [k], in arrival order. *)
Definition in_group (k : Key) (c : Candidate) : bool :=
  match url_case (url c) with
  | Keyed k' => key_eqb k' k
  | _ => false
  end.

Definition group (k : Key) (items : list Candidate) : list Candidate :=
  List.filter (in_group k) items.

(** The candidate a group is reduced to: the earliest one with an
    image, or the earliest one when none has an image. *)
Definition winner (g : list Candidate) : option Candidate :=
  match find has_images g with
  | Some c => Some c
  | None => head g
  end.

Definition hashable_url (c : Candidate) : Prop :=
  url_case (url c) <> Unhashable.

(** *** Vocabulary of the persistence properties *)

Definition stored_urls (db : DB) : list Key := map r_url (rows db).


(** Every [updated_at] of the table is a reading that was already made. *)
Definition stamped (utcnow : nat -> Z) (db : DB) : Prop :=
  forall r, In r (rows db) -> exists i, (i < reads db)%nat /\ updated_at r = utcnow i.

(** The state of the first loop after the prefix [done_] of the batch. *)
Definition seen_inv (done_ : list Candidate) (seen : Main.SeenUrls) : Prop :=
  NoDup (map fst seen) /\
  forall k, Main.seen_get k seen = winner (group k done_).

(** What one upsert leaves under its own key. *)
Definition upserted `{PyRuntime} (utcnow : nat -> Z) (db db' : DB) (k : Key)
    (data : Candidate) (r : ParsedListing) : Prop :=
  r_url r = k /\ r_cols r = Main.columns_of data /\
  match find_row k (rows db) with
  | Some old =>
      created_at r = created_at old /\
      (r_cols old = Main.columns_of data -> updated_at r = updated_at old) /\
      (r_cols old <> Main.columns_of data ->
       exists i, (reads db <= i < reads db')%nat /\ updated_at r = utcnow i)
  | None =>
      exists i, (reads db <= i /\ S i < reads db')%nat /\
                created_at r = utcnow i /\ updated_at r = utcnow (S i)
  end.


(** ** Further vocabulary for the fetch layer *)

(** The number of writes of the cookie store in a call. *)
Definition cookie_saves (evs : list CurlClient.Event) : nat :=
  length (List.filter (fun e => match e with CurlClient.EvSaveCookies => true | _ => false end) evs).

(** The time slept in a call, in seconds. *)
Definition total_sleep (evs : list CurlClient.Event) : Q :=
  fold_right Qplus 0%Q (CurlClient.sleeps evs).

(** ** Further vocabulary for the extraction pipeline *)

(** A JSON value that [url.startswith] and [", ".join] accept: falsy
    (skipped by the guard or the filter) or a string. *)
Definition str_or_falsy (v : PyVal) : bool :=
  negb (truthy v) || isinstance_str v.

(** [tag.string or "{}"], the text that [json.loads] is given. *)
Definition script_source `{BS4} (tag : Tag) : string :=
  if truthy_str (tag_string tag) then default "" (tag_string tag) else "{}".

(** Some dict inside the value has a list under a key that reads
    "items", "list" or "docs" in lower case. *)
Fixpoint mentions_items `{PyRuntime} (v : PyVal) : bool :=
  match v with
  | PDict d =>
      existsb (fun kv =>
                 (ListingListProcessor.mem_str (str_lower (fst kv)) ["items"; "list"; "docs"]
                  && isinstance_list (snd kv))
                 || mentions_items (snd kv)) d
  | PList l => existsb mentions_items l
  | _ => false
  end.

(** ** utils/helpers.py *)

(** [sanitize_query_params]: the entries whose value is neither [None]
    nor [""], in their order. *)
Definition sanitize_query_params (params : list (string * PyVal)) : list (string * PyVal) :=
  List.filter (fun kv => negb (PyVal_eqb (snd kv) PNone)
                         && negb (PyVal_eqb (snd kv) (PStr ""))) params.

(** [load_proxies]: [file_path] is the setting, [lines] the result of
    [read_text().splitlines()] when the file exists. *)
Definition load_proxies `{PyRuntime} (file_path : option string)
    (lines : option (list string)) : list string :=
  if negb (truthy_str file_path) then []
  else match lines with
       | None => []
       | Some ls =>
           map str_strip (List.filter (fun line => negb (String.eqb (str_strip line) "")) ls)
       end.

(** ** bot/runner.py *)

(** What [on_run_parser] answers in the chat. *)
Inductive Reply : Type :=
| ReplyDone                 (* "Парсинг выполнен. Проверьте журнал." *)
| ReplyFinished             (* "Парсинг завершён." *)
| ReplyError (e : PyError). (* "Ошибка запуска парсера: ..." *)

(** [on_run_parser]: the call of [cli_main()] and the three ways the
    handler answers.  [cmd] is what [argparse] makes of the arguments
    of the process. *)
Definition on_run_parser `{PyRuntime} `{BS4} (utcnow : nat -> Z) (target_url : string)
    (cmd : Main.Command) (db : DB) : Reply * DB * list Main.RunEvent :=
  match Main.main utcnow target_url cmd db with
  | (Main.Returned, db', evs) => (ReplyDone, db', evs)
  | (Main.SystemExit, db', evs) => (ReplyFinished, db', evs)
  | (Main.Raised e, db', evs) => (ReplyError e, db', evs)
  end.

(** The offsets that the four buttons of [build_pagination_markup]
    carry in their callback data. *)
Record Pagination : Type := {
first_off : Z;
prev_off : Z;
next_off : Z;
last_page_off : Z;
}.

(** [build_pagination_markup]; [None] is the [ZeroDivisionError] of
    [(total - 1) // limit]. *)
Definition build_pagination_markup (offset limit total : Z) : option Pagination :=
  if limit =? 0 then None
  else Some {| first_off := 0;
               prev_off := Z.max 0 (offset - limit);
               next_off := if offset + limit <? total then offset + limit else offset;
               last_page_off := limit * ((total - 1) / limit) |}.

(** How [get_first_image_url] ends. *)
Inductive FirstImage : Type :=
| NoImage                  (* returns [None] *)
| Image (v : PyVal)        (* returns [images[0]] *)
| Raises (e : PyError)     (* an exception of [json.loads] that is not caught *)
| RaisesKeyError.          (* [images[0]] on a dict *)

(** The first character of a string: its first byte and the
    continuation bytes that follow it. *)
Definition is_continuation (c : ascii) : bool :=
  (128 <=? nat_of_ascii c)%nat && (nat_of_ascii c <? 192)%nat.

Fixpoint continuation_bytes (x : string) : string :=
  match x with
  | String c x' => if is_continuation c then String c (continuation_bytes x') else EmptyString
  | EmptyString => EmptyString
  end.

Definition first_char (x : string) : string :=
  match x with
  | String c x' => String c (continuation_bytes x')
  | EmptyString => EmptyString
  end.

(** [get_first_image_url], on the [images_json] column of the row. *)
Definition get_first_image_url `{PyRuntime} (images_json : option string) : FirstImage :=
  if negb (truthy_str images_json) then NoImage
  else
    match json_loads (default "" images_json) with
    | Raise JSONDecodeError | Raise TypeError => NoImage
    | Raise e => Raises e
    | Ok images =>
        if truthy images then
          match images with
          | PList (first :: _) => Image first
          | PStr x => Image (PStr (first_char x))
          | PDict _ => RaisesKeyError
          | _ => NoImage        (* [len] of a number: [TypeError], caught *)
          end
        else NoImage
    end.

(** ** Concrete runtimes for the examples *)

Module Fixture.

(** [str(v)] on the values whose text does not depend on [repr]. *)
Definition str_of (v : PyVal) : string :=
  match v with
  | PNone => "None"
  | PBool true => "True"
  | PBool false => "False"
  | PInt z => pretty z
  | PStr s => s
  | PList _ | PDict _ => ""
  end.

(** A [json.loads] that knows the documents of a table and rejects
    every other text. *)
Fixpoint loads_from (table : list (string * PyVal)) (s : string) : Exc PyVal :=
  match table with
  | [] => Raise JSONDecodeError
  | (doc, v) :: table' => if String.eqb s doc then Ok v else loads_from table' s
  end.

(** [json.dumps] of a list of strings that need no escaping. *)
Definition dquote : string := String (Ascii.ascii_of_nat 34) EmptyString.
Definition dumps_plain (l : list string) : string :=
  "[" +:+ String.concat ", " (map (fun x => dquote +:+ x +:+ dquote) l) +:+ "]".

(** The text operations are the identity on the inputs of the examples
    (ASCII text without surrounding or repeated blanks, digits or
    tags), and the examples put no anchor pattern in their markup. *)
Definition runtime (table : list (string * PyVal)) : PyRuntime :=
  {| json_loads := loads_from table;
     py_str := str_of;
     json_dumps := dumps_plain;
     str_strip := fun s => s;
     str_lower := fun s => s;
     str_split := fun _ s => [s];
     str_len := fun s => Z.of_nat (String.length s);
     py_int := fun _ => Raise ValueError;
     re_sub_spaces := fun s => s;
     re_sub_non_digits := fun _ => "";
     re_search_percent := fun _ => None;
     re_search_commission := fun _ => None;
     re_sub_tags := fun s => s;
     re_search_price := fun _ => None;
     re_finditer_item_anchors := fun _ => [] |}.

Definition settings : Settings :=
  {| user_agent := ""; user_agent_list := None; proxy_url := None;
     proxies_file_lines := []; anticaptcha_key := None |}.

(** A browser session in which every call succeeds, the title marker
    shows up and no challenge widget is on the page. *)
Definition browser (markup : string) : PlaywrightClient.Browser :=
  {| PlaywrightClient.launch := Ok tt;
     PlaywrightClient.cookie_file := CookieStore.Absent;
     PlaywrightClient.add_cookies := Ok tt;
     PlaywrightClient.goto := Ok tt;
     PlaywrightClient.wait_item_title := Ok tt;
     PlaywrightClient.wait_catalog := Ok tt;
     PlaywrightClient.scroll := Ok tt;
     PlaywrightClient.eval_site_key := Ok PNone;
     PlaywrightClient.solve_and_return_solution := Ok (PInt 0);
     PlaywrightClient.inject_token := Ok tt;
     PlaywrightClient.click_submit := Ok tt;
     PlaywrightClient.wait_load_state := Ok tt;
     PlaywrightClient.page_content := fun _ => Ok markup;
     PlaywrightClient.save_cookies := Ok tt;
     PlaywrightClient.close := Ok tt |}.

(** The same session on a page where neither marker appears before the
    timeout. *)
Definition browser_no_markers (markup : string) : PlaywrightClient.Browser :=
  {| PlaywrightClient.launch := Ok tt;
     PlaywrightClient.cookie_file := CookieStore.Absent;
     PlaywrightClient.add_cookies := Ok tt;
     PlaywrightClient.goto := Ok tt;
     PlaywrightClient.wait_item_title := Raise TimeoutError;
     PlaywrightClient.wait_catalog := Raise TimeoutError;
     PlaywrightClient.scroll := Ok tt;
     PlaywrightClient.eval_site_key := Ok PNone;
     PlaywrightClient.solve_and_return_solution := Ok (PInt 0);
     PlaywrightClient.inject_token := Ok tt;
     PlaywrightClient.click_submit := Ok tt;
     PlaywrightClient.wait_load_state := Ok tt;
     PlaywrightClient.page_content := fun _ => Ok markup;
     PlaywrightClient.save_cookies := Ok tt;
     PlaywrightClient.close := Ok tt |}.

(** A network that answers the attempts with the given statuses in turn
    (and with 200 once they are used up); every draw of the jitter is a
    quarter of a second. *)
Definition net_of (statuses : list Z) : Net :=
  {| session_get := fun attempt =>
       Ok {| status_code := default 200 (statuses !! Z.to_nat (attempt - 1));
             text := "body-" +:+ pretty attempt |};
     uniform_0_half := fun _ => (1 # 4)%Q;
     random_index := fun _ _ => 0%nat |}.

(** *** A document tree and the bs4 operations on it *)

Inductive Node : Type :=
| Element (tag : string) (attributes : list (string * string)) (children : list Node)
| Text (content : string).

(** An element of a document: the document and the path of child
    indices that leads to the element. *)
Record Handle : Type := {
h_doc : Node;
h_path : list nat;
}.

Fixpoint node_at (n : Node) (p : list nat) : option Node :=
  match p with
  | [] => Some n
  | i :: p' =>
      match n with
      | Element _ _ cs => match nth_error cs i with Some c => node_at c p' | None => None end
      | Text _ => None
      end
  end.

(** The paths of the nodes below [n], in document order. *)
Fixpoint paths (n : Node) : list (list nat) :=
  match n with
  | Text _ => []
  | Element _ _ cs =>
      (fix go (cs : list Node) (i : nat) : list (list nat) :=
         match cs with
         | [] => []
         | c :: cs' => ([i] :: map (cons i) (paths c)) ++ go cs' (S i)
         end) cs 0%nat
  end.

Fixpoint assoc_str (k : string) (l : list (string * string)) : option string :=
  match l with
  | [] => None
  | (k', v) :: l' => if String.eqb k k' then Some v else assoc_str k l'
  end.

(** The blank-separated words of a [class] attribute. *)
Fixpoint words_from (s : string) (word : string) : list string :=
  match s with
  | EmptyString => if String.eqb word "" then [] else [word]
  | String c s' =>
      if Ascii.eqb c " "%char
      then (if String.eqb word "" then [] else [word]) ++ words_from s' ""
      else words_from s' (word +:+ String c EmptyString)
  end.

Definition attr_test (ats : list (string * string)) (t : AttrTest) : bool :=
  match t with
  | HasAttr a => match assoc_str a ats with Some _ => true | None => false end
  | AttrIs a v => match assoc_str a ats with Some x => String.eqb x v | None => false end
  | AttrHas a v =>
      match assoc_str a ats with
      | Some x => ListingListProcessor.contains v x
      | None => false
      end
  end.

Definition matches (n : Node) (c : Compound) : bool :=
  match n with
  | Element tag ats _ =>
      match sel_tag c with Some t => String.eqb t tag | None => true end
      && forallb (fun cls =>
                    ListingListProcessor.mem_str cls
                      (words_from (default "" (assoc_str "class" ats)) ""))
                 (sel_classes c)
      && forallb (attr_test ats) (sel_attrs c)
  | Text _ => false
  end.

(** The paths of the proper ancestors of the node at [p]. *)
Definition ancestors (p : list nat) : list (list nat) :=
  map (fun n => take n p) (seq 0 (length p)).

(** A descendant chain, subject first, against the node at [p]. *)
Fixpoint match_chain (doc : Node) (rev_chain : list Compound) (p : list nat) : bool :=
  match rev_chain with
  | [] => true
  | c :: rest =>
      match node_at doc p with Some n => matches n c | None => false end
      && match rest with
         | [] => true
         | _ => existsb (match_chain doc rest) (ancestors p)
         end
  end.

Definition below (t : Handle) : list Handle :=
  match node_at (h_doc t) (h_path t) with
  | Some n => map (fun p => {| h_doc := h_doc t; h_path := h_path t ++ p |}) (paths n)
  | None => []
  end.

Definition select_in (t : Handle) (sel : Selector) : list Handle :=
  List.filter (fun h => existsb (fun chain => match_chain (h_doc h) (rev chain) (h_path h)) sel)
              (below t).

Definition node_of (t : Handle) : Node :=
  default (Text "") (node_at (h_doc t) (h_path t)).

Definition attr_of (t : Handle) (a : string) : option string :=
  match node_of t with
  | Element _ ats _ => assoc_str a ats
  | Text _ => None
  end.

(** The strings below a node, in document order. *)
Fixpoint strings (n : Node) : list string :=
  match n with
  | Text x => [x]
  | Element _ _ cs => flat_map strings cs
  end.

Fixpoint string_of (n : Node) : option string :=
  match n with
  | Text x => Some x
  | Element _ _ [c] => string_of c
  | Element _ _ _ => None
  end.

Definition is_element (name : option string) (at_ : option (string * string)) (n : Node) : bool :=
  match n with
  | Element tag ats _ =>
      match name with Some t => String.eqb t tag | None => true end
      && match at_ with
         | Some (a, v) => match assoc_str a ats with Some x => String.eqb x v | None => false end
         | None => true
         end
  | Text _ => false
  end.

Definition path_eqb (p q : list nat) : bool := bool_decide (p = q).

(** The nodes after [p] in document order. *)
Fixpoint after (p : list nat) (all : list (list nat)) : list (list nat) :=
  match all with
  | [] => []
  | q :: rest => if path_eqb p q then rest else after p rest
  end.

Definition find_next_in (t : Handle) (name : option string)
    (at_ : option (string * string)) : option Handle :=
  option_map (fun p => {| h_doc := h_doc t; h_path := p |})
    (find (fun p => is_element name at_ (default (Text "") (node_at (h_doc t) p)))
          (after (h_path t) ([] :: paths (h_doc t)))).

Definition parent_of (t : Handle) : option Handle :=
  match h_path t with
  | [] => None
  | _ => Some {| h_doc := h_doc t; h_path := removelast (h_path t) |}
  end.

Definition name_of (t : Handle) : string :=
  match node_of t with
  | Element tag _ _ => tag
  | Text _ => ""
  end.

Fixpoint Node_eqb (a b : Node) : bool :=
  match a, b with
  | Text x, Text y => String.eqb x y
  | Element t1 a1 c1, Element t2 a2 c2 =>
      String.eqb t1 t2 && bool_decide (a1 = a2)
      && (fix all2 (l1 l2 : list Node) : bool :=
            match l1, l2 with
            | [], [] => true
            | x :: l1', y :: l2' => Node_eqb x y && all2 l1' l2'
            | _, _ => false
            end) c1 c2
  | _, _ => false
  end.

(** Both parsers give the same tree [doc] for every markup: the
    examples name the tree of their markup. *)
Definition dom (doc : Node) : BS4 :=
  {| Tag := Handle;
     soup_lxml := fun _ => {| h_doc := doc; h_path := [] |};
     soup_html_parser := fun _ => {| h_doc := doc; h_path := [] |};
     select := select_in;
     find_all_script := fun t => select_in t [[tag_ "script" []]];
     attr := attr_of;
     get_text := fun t => String.concat " " (strings (node_of t));
     tag_string := fun t => string_of (node_of t);
     find_next := find_next_in;
     parent := parent_of;
     name := name_of;
     tag_eqb := fun a b => Node_eqb (node_of a) (node_of b) |}.

(** A document: [<html><body> ... </body></html>] under the root. *)
Definition document (body : list Node) : Node :=
  Element "[document]" [] [Element "html" [] [Element "body" [] body]].

(** *** Pages, structured data and candidates of the examples *)

Definition quoted (x : string) : string := dquote +:+ x +:+ dquote.


(** A card whose image sources occur once each. *)
Definition card_C : Node :=
  Element "div" [("class", "iva-item-content-fRmzq")]
    [Element "a" [("data-marker", "item-title"); ("href", "/item/c")] [Text "Flat C"];
     Element "img" [("data-marker", "image"); ("src", "/img/a.jpg")] [];
     Element "img" [("data-marker", "image"); ("src", "//cdn.x.test/b.jpg")] []].

(** The text of a structured-data script that describes one listing,
    and its parsed value. *)
Definition ld_json_B : string :=
  "{" +:+ quoted "name" +:+ ": " +:+ quoted "Flat B" +:+ ", "
      +:+ quoted "url" +:+ ": " +:+ quoted "/item/b" +:+ ", "
      +:+ quoted "image" +:+ ": [" +:+ quoted "/p.jpg" +:+ ", " +:+ quoted "/p.jpg" +:+ "]}".

Definition ld_value_B : PyVal :=
  PDict [("name", PStr "Flat B"); ("url", PStr "/item/b");
         ("image", PList [PStr "/p.jpg"; PStr "/p.jpg"])].

Definition script_B : Node :=
  Element "script" [("type", "application/ld+json")] [Text ld_json_B].

(** The text of a [scripts.json] dump with one item, and its parsed
    value. *)
Definition scripts_json_text : string :=
  "{" +:+ quoted "items" +:+ ": [{" +:+ quoted "title" +:+ ": " +:+ quoted "Flat S" +:+ ", "
      +:+ quoted "url" +:+ ": " +:+ quoted "/item/s" +:+ "}]}".

Definition scripts_json_value : PyVal :=
  PDict [("items", PList [PDict [("title", PStr "Flat S"); ("url", PStr "/item/s")]])].

Definition rt : PyRuntime :=
  runtime [(ld_json_B, ld_value_B); (scripts_json_text, scripts_json_value)].

Definition page_B : BS4 := dom (document [script_B]).
Definition page_C : BS4 := dom (document [card_C]).
Definition page_empty : BS4 := dom (document []).

Definition candidate (u : PyVal) (t : string) (imgs : option (list string)) : Candidate :=
  {| title := PStr t; url := u; price := None; price_raw := None;
     price_value := None; bail := None; bail_raw := None; bail_value := None;
     tax := None; commission_raw := None; commission := None;
     services := None; services_raw := None; address := None;
     description := PNone; images := imgs |}.

Definition candidate_C : Candidate :=
  candidate (PStr "https://x.test/item/c") "Flat C"
    (Some ["https://x.test/img/a.jpg"; "https://cdn.x.test/b.jpg"]).
Definition candidate_B : Candidate :=
  candidate (PStr "https://x.test/item/b") "Flat B" (Some ["/p.jpg"; "/p.jpg"]).

(** Two candidates for one url, without and with an image, and one
    without url. *)
Definition bare : Candidate := candidate (PStr "https://x.test/item/1") "first" (Some []).
Definition pictured : Candidate :=
  candidate (PStr "https://x.test/item/1") "second" (Some ["p.jpg"]).
Definition nameless : Candidate := candidate PNone "third" None.

(** A clock that ticks at every reading, and the empty table. *)
Definition clock (n : nat) : Z := Z.of_nat n.
Definition empty_db : DB := {| rows := []; reads := 0 |}.


(** Dump directories: the page alone, and the page with a
    [scripts.json] beside it. *)
Definition dump_alone : Main.Dump :=
  {| Main.page_html := Ok "<html></html>"; Main.page_pretty_html := None;
     Main.scripts_json := None; Main.page_txt := None |}.
Definition dump_with_scripts : Main.Dump :=
  {| Main.page_html := Ok "<html></html>"; Main.page_pretty_html := None;
     Main.scripts_json := Some (Ok scripts_json_text); Main.page_txt := None |}.

(** A network whose first answers are 503 and whose transport fails
    on attempt [n]. *)
Definition net_failing_at (n : Z) : Net :=
  {| session_get := fun attempt =>
       if attempt =? n then Raise RequestsError
       else Ok {| status_code := 503; text := "blocked" |};
     uniform_0_half := fun _ => (1 # 4)%Q;
     random_index := fun _ _ => 0%nat |}.

(** Settings with a pinned identity, and settings with pools to draw
    from. *)
Definition settings_pinned : Settings :=
  {| user_agent := "UA/1"; user_agent_list := Some ["UA/2"; "UA/3"];
     proxy_url := Some "http://proxy.test:8080";
     proxies_file_lines := ["http://p1.test"; "http://p2.test"];
     anticaptcha_key := None |}.
Definition settings_pool : Settings :=
  {| user_agent := ""; user_agent_list := Some ["UA/2"; "UA/3"];
     proxy_url := None;
     proxies_file_lines := ["http://p1.test"; "http://p2.test"];
     anticaptcha_key := Some "key" |}.

(** A browser session that finds the cookie file in state [f], and
    one that finds a challenge widget on the page while the token
    injection fails. *)
Definition browser_with_cookies (f : CookieStore.FileState) (markup : string)
    : PlaywrightClient.Browser :=
  {| PlaywrightClient.launch := Ok tt;
     PlaywrightClient.cookie_file := f;
     PlaywrightClient.add_cookies := Ok tt;
     PlaywrightClient.goto := Ok tt;
     PlaywrightClient.wait_item_title := Ok tt;
     PlaywrightClient.wait_catalog := Ok tt;
     PlaywrightClient.scroll := Ok tt;
     PlaywrightClient.eval_site_key := Ok PNone;
     PlaywrightClient.solve_and_return_solution := Ok (PInt 0);
     PlaywrightClient.inject_token := Ok tt;
     PlaywrightClient.click_submit := Ok tt;
     PlaywrightClient.wait_load_state := Ok tt;
     PlaywrightClient.page_content := fun _ => Ok markup;
     PlaywrightClient.save_cookies := Ok tt;
     PlaywrightClient.close := Ok tt |}.

Definition browser_challenged (markup : string) : PlaywrightClient.Browser :=
  {| PlaywrightClient.launch := Ok tt;
     PlaywrightClient.cookie_file := CookieStore.Absent;
     PlaywrightClient.add_cookies := Ok tt;
     PlaywrightClient.goto := Ok tt;
     PlaywrightClient.wait_item_title := Ok tt;
     PlaywrightClient.wait_catalog := Ok tt;
     PlaywrightClient.scroll := Ok tt;
     PlaywrightClient.eval_site_key := Ok (PStr "site-key");
     PlaywrightClient.solve_and_return_solution := Ok (PStr "token");
     PlaywrightClient.inject_token := Raise PlaywrightError;
     PlaywrightClient.click_submit := Ok tt;
     PlaywrightClient.wait_load_state := Ok tt;
     PlaywrightClient.page_content := fun _ => Ok markup;
     PlaywrightClient.save_cookies := Ok tt;
     PlaywrightClient.close := Ok tt |}.

(** A runtime that parses the text of a JSON array. *)
Definition rt_array : PyRuntime := runtime [("[]", PList [])].

End Fixture.

(** * Properties *)

(** ** Values *)

(** Induction on values that reaches into lists and dicts. *)
Lemma PyVal_nested_ind (P : PyVal -> Prop) :
  P PNone ->
  (forall b, P (PBool b)) ->
  (forall z, P (PInt z)) ->
  (forall x, P (PStr x)) ->
  (forall l, Forall P l -> P (PList l)) ->
  (forall d, Forall (fun kv => P (snd kv)) d -> P (PDict d)) ->
  forall v, P v.
Proof.
  intros HNone HBool HInt HStr HList HDict.
  exact (fix rec (v : PyVal) : P v :=
    match v with
    | PNone => HNone
    | PBool b => HBool b
    | PInt z => HInt z
    | PStr x => HStr x
    | PList l =>
        HList l ((fix go (l : list PyVal) : Forall P l :=
                    match l with
                    | [] => @List.Forall_nil _ P
                    | x :: l' => @List.Forall_cons _ P x l' (rec x) (go l')
                    end) l)
    | PDict d =>
        HDict d ((fix go (d : list (string * PyVal)) : Forall (fun kv => P (snd kv)) d :=
                    match d with
                    | [] => @List.Forall_nil _ _
                    | kv :: d' =>
                        @List.Forall_cons _ (fun kv => P (snd kv)) kv d' (rec (snd kv)) (go d')
                    end) d)
    end).
Qed.

Lemma PyVal_eqb_refl v : PyVal_eqb v v = true.
Proof.
  induction v using PyVal_nested_ind; simpl.
  - reflexivity.
  - destruct b; reflexivity.
  - apply Z.eqb_refl.
  - apply String.eqb_refl.
  - induction H as [|x l Hx Hl IH]; [reflexivity|]. now rewrite Hx, IH.
  - induction H as [|[k x] d Hx Hd IH]; [reflexivity|].
    simpl in Hx. now rewrite String.eqb_refl, Hx, IH.
Qed.

Lemma PyVal_eqb_eq a : forall b, PyVal_eqb a b = true -> a = b.
Proof.
  induction a using PyVal_nested_ind; intros [] Heq; simpl in Heq; try discriminate.
  - reflexivity.
  - apply Bool.eqb_prop in Heq. now subst.
  - apply Z.eqb_eq in Heq. now subst.
  - apply String.eqb_eq in Heq. now subst.
  - f_equal. revert l0 Heq.
    induction H as [|x l Hx Hl IH]; intros [|y l0] Heq; try discriminate; [reflexivity|].
    apply andb_true_iff in Heq as [H1 H2]. f_equal; [now apply Hx | now apply IH].
  - f_equal. revert d0 Heq.
    induction H as [|[k x] d Hx Hd IH]; intros [|[k' y] d0] Heq; try discriminate;
      [reflexivity|].
    apply andb_true_iff in Heq as [H12 H3]. apply andb_true_iff in H12 as [H1 H2].
    apply String.eqb_eq in H1. simpl in Hx. apply Hx in H2. subst.
    f_equal. now apply IH.
Qed.

Lemma columns_eqb_refl c : columns_eqb c c = true.
Proof.
  unfold columns_eqb.
  rewrite !PyVal_eqb_refl, String.eqb_refl, !bool_decide_eq_true_2 by reflexivity.
  reflexivity.
Qed.

Lemma columns_eqb_eq a b : columns_eqb a b = true -> a = b.
Proof.
  unfold columns_eqb. intros Heq.
  repeat (apply andb_true_iff in Heq as [Heq ?]).
  destruct a, b; simpl in *.
  repeat match goal with
         | H : PyVal_eqb _ _ = true |- _ => apply PyVal_eqb_eq in H
         | H : bool_decide _ = true |- _ => apply bool_decide_eq_true in H
         | H : String.eqb _ _ = true |- _ => apply String.eqb_eq in H
         end.
  congruence.
Qed.



(** ** The session store *)

Section CookieStoreFacts.
Context `{PyRuntime}.


End CookieStoreFacts.


(** ** The primary fetcher *)

Section CurlClientFacts.
Context `{PyRuntime}.
Variable s : Settings.
Variable net : Net.
Variable b : PlaywrightClient.Browser.

Import CurlClient.

Local Abbreviation all_retryable := (CurlClient.all_retryable net).

Lemma status_in_spec st codes : status_in st codes = true <-> In st codes.
Proof.
  unfold status_in. rewrite existsb_exists. split.
  - intros (x & Hx & Heq). apply Z.eqb_eq in Heq. now subst.
  - intros Hin. exists st. split; [assumption | apply Z.eqb_refl].
Qed.

Lemma retryable_not_success r : retryable r -> status_in (status_code r) [200; 201] = false.
Proof.
  unfold retryable. rewrite status_in_spec. simpl.
  intros [<- | [<- | [<- | []]]]; reflexivity.
Qed.

(** One turn of the loop on a retryable status. *)
Lemma attempts_retry a rest r :
  session_get net a = Ok r -> retryable r ->
  attempts s net b (a :: rest) =
    (EvRequest a (select_user_agent s net a) (select_proxy s net a)
       :: EvSaveCookies :: EvSleep (backoff net a) :: fst (attempts s net b rest),
     snd (attempts s net b rest)).
Proof.
  intros Hget Hr. cbn [attempts]. rewrite Hget, (retryable_not_success r Hr), Hr.
  destruct (attempts s net b rest). reflexivity.
Qed.

(** The loop over a run of retryable attempts. *)
Lemma attempts_retry_run n : forall from rest,
  all_retryable from n ->
  let r := attempts s net b (seqZ from (Z.of_nat n) ++ rest) in
  let r' := attempts s net b rest in
  snd r = snd r' /\
  requests (fst r) = (n + requests (fst r'))%nat /\
  fallbacks (fst r) = fallbacks (fst r') /\
  sleeps (fst r) = map (backoff net) (seqZ from (Z.of_nat n)) ++ sleeps (fst r').
Proof.
  induction n as [|n IH]; intros from rest Hall.
  - simpl. auto.
  - rewrite Nat2Z.inj_succ, seqZ_cons by lia.
    replace (Z.pred (Z.succ (Z.of_nat n))) with (Z.of_nat n) by lia.
    destruct (Hall from) as (r0 & Hget & Hr); [lia|].
    cbn zeta. rewrite <- app_comm_cons, (attempts_retry _ _ _ Hget Hr).
    destruct (IH (Z.succ from) rest) as (H1 & H2 & H3 & H4).
    { intros a Ha. apply Hall. lia. }
    cbn [fst snd]. repeat split.
    + exact H1.
    + unfold requests in *. cbn. now rewrite H2.
    + unfold fallbacks in *. cbn. exact H3.
    + unfold sleeps in *. cbn. now rewrite H4.
Qed.

Lemma requests_bound todo : (requests (fst (attempts s net b todo)) <= length todo)%nat.
Proof.
  induction todo as [|a rest IH]; [simpl; unfold requests; simpl; lia|].
  cbn [attempts]. destruct (session_get net a) as [r|e]; [|unfold requests; simpl; lia].
  destruct (status_in (status_code r) [200; 201]); [unfold requests; simpl; lia|].
  destruct (status_in (status_code r) [403; 429; 503]); [|unfold requests; simpl; lia].
  destruct (attempts s net b rest) as [evs res]. unfold requests in *. simpl in *. lia.
Qed.

Lemma backoff_bounds a :
  (0 <= uniform_0_half net a <= 1 # 2)%Q ->
  (inject_Z (Z.min 10 (2 ^ a)) <= backoff net a
   <= inject_Z (Z.min 10 (2 ^ a)) + (1 # 2))%Q.
Proof. intros [Hlo Hhi]. unfold backoff. split; lra. Qed.

(** The call when the first [k] attempts were retryable and attempt
    [k + 1] is answered by [r]: what the loop does with [r] decides. *)
Lemma get_after_retries (k : nat) r :
  (k < 5)%nat -> all_retryable 1 k ->
  session_get net (Z.of_nat k + 1) = Ok r ->
  let evs := fst (get s net b) in
  let tail := attempts s net b (seqZ (Z.of_nat k + 1) (5 - Z.of_nat k)) in
  snd (get s net b) = snd tail /\
  requests evs = (k + requests (fst tail))%nat /\
  fallbacks evs = fallbacks (fst tail) /\
  sleeps evs = map (backoff net) (seqZ 1 (Z.of_nat k)) ++ sleeps (fst tail).
Proof.
  intros Hk Hall Hget. cbn zeta. unfold get, max_attempts.
  replace (seqZ 1 5) with (seqZ 1 (Z.of_nat k) ++ seqZ (Z.of_nat k + 1) (5 - Z.of_nat k)).
  - replace (Z.of_nat k + 1) with (1 + Z.of_nat k) by lia.
    apply (attempts_retry_run k 1 _ Hall).
  - replace (Z.of_nat k + 1) with (1 + Z.of_nat k) by lia.
    rewrite <- seqZ_app by lia. f_equal. lia.
Qed.

(** C1.  [CurlClient.get] makes at most five requests; a 200 or 201
    answer ends the call with the body, after one sleep of
    [min(10, 2^attempt) + jitter] seconds for each earlier retryable
    answer (403, 429, 503); four 503 answers followed by a 200 give
    exactly four sleeps, of non-decreasing length with bounds 2, 4, 8
    and 10, and the 200 body; five retryable answers give five requests
    and then one call of [PlaywrightClient.get], whose result is
    returned. *)
Theorem fetch_retry_backoff :
  (forall a, 0 <= uniform_0_half net a <= 1 # 2)%Q ->
  let evs := fst (get s net b) in
  let res := snd (get s net b) in
  (requests evs <= 5)%nat /\
  (forall (k : nat) r,
     (k < 5)%nat -> all_retryable 1 k ->
     session_get net (Z.of_nat k + 1) = Ok r -> success r ->
     res = Ok (text r) /\ requests evs = S k /\ fallbacks evs = 0%nat /\
     sleeps evs = map (backoff net) (seqZ 1 (Z.of_nat k))) /\
  (forall a, (inject_Z (Z.min 10 (2 ^ a)) <= backoff net a
              <= inject_Z (Z.min 10 (2 ^ a)) + (1 # 2))%Q) /\
  (forall r,
     (forall a, 1 <= a <= 4 ->
        exists r', session_get net a = Ok r' /\ status_code r' = 503) ->
     session_get net 5 = Ok r -> status_code r = 200 ->
     res = Ok (text r) /\
     sleeps evs = [backoff net 1; backoff net 2; backoff net 3; backoff net 4] /\
     map (fun a => Z.min 10 (2 ^ a)) [1; 2; 3; 4] = [2; 4; 8; 10] /\
     Sorted Qle (sleeps evs) /\
     requests evs = 5%nat /\ fallbacks evs = 0%nat) /\
  (all_retryable 1 5 ->
     requests evs = 5%nat /\ fallbacks evs = 1%nat /\
     length (sleeps evs) = 5%nat /\
     res = PlaywrightClient.get s b).
Proof.
  intros Hjit evs res. subst evs res. repeat apply conj.
  - apply (requests_bound (seqZ 1 max_attempts)).
  - intros k r Hk Hall Hget Hok.
    destruct (get_after_retries k r Hk Hall Hget) as (H1 & H2 & H3 & H4).
    assert (Htail : attempts s net b (seqZ (Z.of_nat k + 1) (5 - Z.of_nat k)) =
              ([EvRequest (Z.of_nat k + 1) (select_user_agent s net (Z.of_nat k + 1))
                  (select_proxy s net (Z.of_nat k + 1)); EvSaveCookies], Ok (text r))).
    { rewrite seqZ_cons by lia. cbn [attempts]. rewrite Hget, Hok. reflexivity. }
    rewrite Htail in *. cbn [fst snd] in *. repeat split.
    + exact H1.
    + rewrite H2. unfold requests. simpl. lia.
    + rewrite H3. reflexivity.
    + rewrite H4. unfold sleeps. simpl. apply app_nil_r.
  - intros a. apply backoff_bounds, Hjit.
  - intros r Hfour Hget H200.
    assert (Hall : all_retryable 1 4).
    { intros a Ha. destruct (Hfour a) as (r' & Hr' & Hst); [lia|].
      exists r'. split; [exact Hr'|]. unfold retryable. rewrite Hst. reflexivity. }
    destruct (get_after_retries 4 r ltac:(lia) Hall Hget) as (H1 & H2 & H3 & H4).
    assert (Htail : attempts s net b (seqZ (Z.of_nat 4 + 1) (5 - Z.of_nat 4)) =
              ([EvRequest 5 (select_user_agent s net 5) (select_proxy s net 5);
                EvSaveCookies], Ok (text r))).
    { change (seqZ (Z.of_nat 4 + 1) (5 - Z.of_nat 4)) with [5].
      cbn [attempts]. rewrite Hget, H200. reflexivity. }
    rewrite Htail in *. cbn [fst snd] in *.
    assert (Hsl : sleeps (fst (get s net b)) =
                  [backoff net 1; backoff net 2; backoff net 3; backoff net 4]).
    { rewrite H4. reflexivity. }
    repeat split.
    + exact H1.
    + exact Hsl.
    + rewrite Hsl.
      pose proof (Hjit 1) as [? ?]. pose proof (Hjit 2) as [? ?].
      pose proof (Hjit 3) as [? ?]. pose proof (Hjit 4) as [? ?].
      unfold backoff.
      change (inject_Z (Z.min 10 (2 ^ 1))) with (2 # 1)%Q.
      change (inject_Z (Z.min 10 (2 ^ 2))) with (4 # 1)%Q.
      change (inject_Z (Z.min 10 (2 ^ 3))) with (8 # 1)%Q.
      change (inject_Z (Z.min 10 (2 ^ 4))) with (10 # 1)%Q.
      repeat (constructor; try lra).
    + rewrite H2. reflexivity.
    + rewrite H3. reflexivity.
  - intros Hall.
    pose proof (attempts_retry_run 5 1 [] Hall) as (H1 & H2 & H3 & H4).
    change (seqZ 1 (Z.of_nat 5) ++ []) with (seqZ 1 max_attempts) in *.
    cbn [attempts fst snd] in *. fold (get s net b) in *. repeat split.
    + rewrite H2. reflexivity.
    + rewrite H3. reflexivity.
    + rewrite H4. reflexivity.
    + exact H1.
Qed.

(** C2 (amended).  A status that is neither 200/201 nor 403/429/503
    ends the call at once: no further request, no sleep for it and no
    browser fallback.  The call raises [HTTPError] when the status is
    an error for [raise_for_status] (outside 200..399) and returns the
    body otherwise. *)
Theorem other_status_stops (k : nat) r :
  (k < 5)%nat -> all_retryable 1 k ->
  session_get net (Z.of_nat k + 1) = Ok r ->
  status_in (status_code r) [200; 201] = false ->
  status_in (status_code r) [403; 429; 503] = false ->
  let evs := fst (get s net b) in
  snd (get s net b) =
    (if (200 <=? status_code r) && (status_code r <? 400)
     then Ok (text r) else Raise (HTTPError (status_code r))) /\
  requests evs = S k /\ fallbacks evs = 0%nat /\
  sleeps evs = map (backoff net) (seqZ 1 (Z.of_nat k)).
Proof.
  intros Hk Hall Hget Hns Hnr. cbn zeta.
  destruct (get_after_retries k r Hk Hall Hget) as (H1 & H2 & H3 & H4).
  assert (Htail : attempts s net b (seqZ (Z.of_nat k + 1) (5 - Z.of_nat k)) =
            ([EvRequest (Z.of_nat k + 1) (select_user_agent s net (Z.of_nat k + 1))
                (select_proxy s net (Z.of_nat k + 1)); EvSaveCookies],
             (do _ <- raise_for_status r ; Ok (text r))%exc)).
  { rewrite seqZ_cons by lia. cbn [attempts]. rewrite Hget, Hns, Hnr. reflexivity. }
  rewrite Htail in *. cbn [fst snd] in *. repeat split.
  - rewrite H1. unfold raise_for_status, response_ok.
    destruct ((200 <=? status_code r) && (status_code r <? 400)); reflexivity.
  - rewrite H2. unfold requests. simpl. lia.
  - rewrite H3. reflexivity.
  - rewrite H4. unfold sleeps. simpl. apply app_nil_r.
Qed.

End CurlClientFacts.

Lemma fixture_jitter statuses a :
  (0 <= uniform_0_half (Fixture.net_of statuses) a <= 1 # 2)%Q.
Proof. simpl. split; unfold Qle; simpl; lia. Qed.

Lemma fetch_retry_backoff_witness :
  snd (CurlClient.get (H := Fixture.runtime []) Fixture.settings
         (Fixture.net_of [503; 503; 503; 503; 200]) (Fixture.browser "")) = Ok "body-5" /\
  CurlClient.requests
    (fst (CurlClient.get (H := Fixture.runtime []) Fixture.settings
            (Fixture.net_of [503; 503; 503; 503; 200]) (Fixture.browser ""))) = 5%nat.
Proof.
  destruct (@fetch_retry_backoff (Fixture.runtime []) Fixture.settings
              (Fixture.net_of [503; 503; 503; 503; 200]) (Fixture.browser "")
              (fixture_jitter _)) as (_ & _ & _ & Hfour & _).
  destruct (Hfour {| status_code := 200; text := "body-5" |}) as (Hres & _ & _ & _ & Hreq & _).
  - intros a Ha.
    assert (Hcases : a = 1 \/ a = 2 \/ a = 3 \/ a = 4) by lia.
    destruct Hcases as [-> | [-> | [-> | ->]]]; eexists; (split; [reflexivity | reflexivity]).
  - reflexivity.
  - reflexivity.
  - split; [exact Hres | exact Hreq].
Defined.

(** C2, as stated, fails: status 204 is neither a success status nor a
    retryable one, and the call returns the body instead of raising. *)
Lemma other_status_may_return :
  CurlClient.status_in 204 [200; 201] = false /\
  CurlClient.status_in 204 [403; 429; 503] = false /\
  session_get (Fixture.net_of [204]) 1 = Ok {| status_code := 204; text := "body-1" |} /\
  snd (CurlClient.get (H := Fixture.runtime []) Fixture.settings
         (Fixture.net_of [204]) (Fixture.browser "")) = Ok "body-1" /\
  ~ (exists e, snd (CurlClient.get (H := Fixture.runtime []) Fixture.settings
                     (Fixture.net_of [204]) (Fixture.browser "")) = Raise e).
Proof.
  repeat split; try reflexivity.
  intros [e He]. vm_compute in He. discriminate He.
Qed.

Lemma other_status_stops_witness :
  snd (CurlClient.get (H := Fixture.runtime []) Fixture.settings
         (Fixture.net_of [503; 404]) (Fixture.browser "")) = Raise (HTTPError 404) /\
  CurlClient.requests
    (fst (CurlClient.get (H := Fixture.runtime []) Fixture.settings
            (Fixture.net_of [503; 404]) (Fixture.browser ""))) = 2%nat /\
  CurlClient.fallbacks
    (fst (CurlClient.get (H := Fixture.runtime []) Fixture.settings
            (Fixture.net_of [503; 404]) (Fixture.browser ""))) = 0%nat.
Proof.
  destruct (@other_status_stops (Fixture.runtime []) Fixture.settings
              (Fixture.net_of [503; 404]) (Fixture.browser "") 1%nat
              {| status_code := 404; text := "body-2" |}) as (Hres & Hreq & Hfb & _).
  - lia.
  - intros a Ha. assert (a = 1) as -> by lia.
    eexists; split; reflexivity.
  - reflexivity.
  - reflexivity.
  - reflexivity.
  - repeat split; assumption.
Defined.

(** ** The browser fetcher *)

Section PlaywrightFacts.
Context `{PyRuntime}.
Variable s : Settings.
Variable b : PlaywrightClient.Browser.

Import PlaywrightClient.

Local Abbreviation reaches_wait := (PlaywrightClient.reaches_wait b).

Lemma get_from_wait :
  reaches_wait ->
  get s b = (do _ <- ensure_rendered b ; after_render s b)%exc.
Proof.
  intros (Hl & (c & Hc) & Hg). unfold get. rewrite Hl. cbn [bind]. cbn zeta. rewrite Hc. cbn [bind].
  destruct (truthy c); [|cbn [bind]; rewrite Hg; reflexivity].
  destruct (add_cookies b) as [[]|e]; cbn [try_except bind]; rewrite Hg; reflexivity.
Qed.

(** C9 (amended).  When the title marker appears, or it does not and
    the catalog-container marker appears, the wait raises nothing and
    [get] goes on to return the rendered markup; when neither appears
    before the timeout, the error of the second wait leaves [get] and no
    markup is returned. *)
Theorem wait_for_markers :
  reaches_wait ->
  (wait_item_title b = Ok tt \/ wait_catalog b = Ok tt ->
   get s b = after_render s b) /\
  (wait_item_title b = Ok tt \/ wait_catalog b = Ok tt ->
   forall markup,
     eval_site_key b = Ok PNone -> page_content b false = Ok markup ->
     close b = Ok tt -> get s b = Ok markup) /\
  (forall e1 e2,
     wait_item_title b = Raise e1 -> wait_catalog b = Raise e2 ->
     get s b = Raise e2).
Proof.
  intros Hpre. rewrite (get_from_wait Hpre).
  assert (Hseen : wait_item_title b = Ok tt \/ wait_catalog b = Ok tt ->
                  ensure_rendered b = Ok tt).
  { unfold ensure_rendered. intros [Ht | Hc].
    - rewrite Ht. reflexivity.
    - destruct (wait_item_title b) as [[]|e]; [reflexivity | exact Hc]. }
  repeat split.
  - intros Hm. rewrite (Hseen Hm). reflexivity.
  - intros Hm markup Hkey Hcontent Hclose. rewrite (Hseen Hm). cbn [bind].
    unfold after_render, recaptcha_step. rewrite Hkey. cbn [truthy bind].
    rewrite Hcontent. cbn [bind]. rewrite Hclose. reflexivity.
  - intros e1 e2 Ht Hc. unfold ensure_rendered. rewrite Ht. cbn [try_except].
    rewrite Hc. reflexivity.
Qed.

End PlaywrightFacts.

Lemma wait_for_markers_witness :
  PlaywrightClient.get (H := Fixture.runtime []) Fixture.settings
    (Fixture.browser "<html></html>") = Ok "<html></html>".
Proof.
  destruct (@wait_for_markers (Fixture.runtime []) Fixture.settings
              (Fixture.browser "<html></html>")) as (_ & Hret & _).
  - repeat split; try reflexivity. exists (PList []). reflexivity.
  - apply Hret; try reflexivity. left. reflexivity.
Defined.

(** C9, as stated, fails: with neither marker on the page before the
    timeout the call raises, although the page has markup. *)
Lemma no_marker_raises :
  PlaywrightClient.wait_item_title (Fixture.browser_no_markers "<html></html>")
    = Raise TimeoutError /\
  PlaywrightClient.wait_catalog (Fixture.browser_no_markers "<html></html>")
    = Raise TimeoutError /\
  PlaywrightClient.page_content (Fixture.browser_no_markers "<html></html>") false
    = Ok "<html></html>" /\
  PlaywrightClient.get (H := Fixture.runtime []) Fixture.settings
    (Fixture.browser_no_markers "<html></html>") = Raise TimeoutError.
Proof. repeat split; reflexivity. Qed.

(** ** Reconciliation *)

Section ReconcileFacts.

Import Main.

Lemma key_eqb_true (a b : Key) : key_eqb a b = true <-> a = b.
Proof. unfold key_eqb. apply bool_decide_eq_true. Qed.

Lemma key_eqb_false (a b : Key) : key_eqb a b = false <-> a <> b.
Proof. unfold key_eqb. apply bool_decide_eq_false. Qed.

Lemma key_eqb_refl (a : Key) : key_eqb a a = true.
Proof. now apply key_eqb_true. Qed.

Lemma seen_get_set_same k data seen : seen_get k (seen_set k data seen) = Some data.
Proof.
  induction seen as [|[k' c] rest IH]; simpl.
  - now rewrite key_eqb_refl.
  - destruct (key_eqb k' k) eqn:E; simpl; rewrite E; [reflexivity | exact IH].
Qed.

Lemma seen_get_set_other k k' data seen :
  k <> k' -> seen_get k' (seen_set k data seen) = seen_get k' seen.
Proof.
  intros Hne. induction seen as [|[k0 c] rest IH]; simpl.
  - destruct (key_eqb k k') eqn:E; [apply key_eqb_true in E; contradiction | reflexivity].
  - destruct (key_eqb k0 k) eqn:E; simpl.
    + apply key_eqb_true in E. subst k0.
      destruct (key_eqb k k') eqn:E'; [apply key_eqb_true in E'; contradiction | reflexivity].
    + destruct (key_eqb k0 k'); [reflexivity | exact IH].
Qed.

Lemma seen_set_keys k data seen :
  map fst (seen_set k data seen) =
    match seen_get k seen with
    | Some _ => map fst seen
    | None => map fst seen ++ [k]
    end.
Proof.
  induction seen as [|[k' c] rest IH]; simpl; [reflexivity|].
  destruct (key_eqb k' k) eqn:E; simpl; [reflexivity|].
  rewrite IH. destruct (seen_get k rest); reflexivity.
Qed.

Lemma seen_get_none_keys k seen : seen_get k seen = None -> ~ In k (map fst seen).
Proof.
  induction seen as [|[k' c] rest IH]; simpl; [tauto|].
  destruct (key_eqb k' k) eqn:E; [discriminate|].
  intros Hn [Heq | Hin]; [apply key_eqb_false in E; contradiction | now apply IH].
Qed.

Lemma seen_get_in k c seen :
  NoDup (map fst seen) -> (In (k, c) seen <-> seen_get k seen = Some c).
Proof.
  induction seen as [|[k' c'] rest IH]; simpl; intros Hnd.
  - split; [tauto | discriminate].
  - apply NoDup_cons in Hnd as [Hnotin Hnd].
    destruct (key_eqb k' k) eqn:E.
    + apply key_eqb_true in E. subst k'. split.
      * intros [Heq | Hin]; [congruence|].
        exfalso. apply Hnotin. apply list_elem_of_In.
        apply (in_map fst) in Hin. exact Hin.
      * intros [= ->]. now left.
    + apply key_eqb_false in E. rewrite <- (IH Hnd). split.
      * intros [Heq | Hin]; [congruence | exact Hin].
      * intros Hin. now right.
Qed.

Lemma find_snoc {A} (f : A -> bool) g d :
  find f (g ++ [d]) =
    match find f g with
    | Some c => Some c
    | None => if f d then Some d else None
    end.
Proof.
  induction g as [|c g IH]; simpl; [reflexivity|].
  destruct (f c); [reflexivity | exact IH].
Qed.

Lemma find_none_head {A} (f : A -> bool) g e :
  find f g = None -> head g = Some e -> f e = false.
Proof.
  destruct g as [|c g]; simpl; [discriminate|].
  intros Hf [= ->]. destruct (f e); [discriminate | reflexivity].
Qed.

(** How the winner of a group changes when a candidate joins it. *)
Lemma winner_snoc g data :
  winner (g ++ [data]) =
    match winner g with
    | None => Some data
    | Some existing =>
        if has_images data && negb (has_images existing) then Some data
        else Some existing
    end.
Proof.
  unfold winner. rewrite find_snoc.
  destruct (find has_images g) as [w|] eqn:Hf.
  - apply find_some in Hf as [_ Hw]. rewrite Hw, andb_false_r. reflexivity.
  - destruct (head g) as [e|] eqn:Hh.
    + rewrite (find_none_head _ _ _ Hf Hh), andb_true_r.
      destruct (has_images data); [reflexivity|].
      destruct g; [discriminate | exact Hh].
    + destruct g; [|discriminate]. simpl.
      destruct (has_images data); reflexivity.
Qed.

Lemma group_snoc k items data :
  group k (items ++ [data]) =
    if in_group k data then group k items ++ [data] else group k items.
Proof.
  unfold group. rewrite List.filter_app. simpl.
  destruct (in_group k data); [reflexivity | apply app_nil_r].
Qed.

Lemma in_group_keyed k c : url_case (url c) = Keyed k -> forall k', in_group k' c = key_eqb k k'.
Proof. intros Hk k'. unfold in_group. now rewrite Hk. Qed.

Lemma reconcile_loop_inv items : forall done_ seen,
  seen_inv done_ seen -> Forall hashable_url items ->
  exists seen', reconcile_loop items seen = Ok seen' /\ seen_inv (done_ ++ items) seen'.
Proof.
  induction items as [|data rest IH]; intros done_ seen Hinv Hall.
  - exists seen. rewrite app_nil_r. split; [reflexivity | exact Hinv].
  - apply Forall_cons in Hall as [Hdata Hall].
    replace (done_ ++ data :: rest) with ((done_ ++ [data]) ++ rest)
      by (rewrite <- app_assoc; reflexivity).
    destruct Hinv as [Hnd Hget]. cbn [reconcile_loop].
    destruct (url_case (url data)) as [| |k] eqn:Hcase.
    + apply IH; [|exact Hall]. split; [exact Hnd|].
      intros k. rewrite group_snoc. unfold in_group. rewrite Hcase. apply Hget.
    + contradiction.
    + pose proof (in_group_keyed k data Hcase) as Hin.
      assert (Hstep : forall seen1,
                NoDup (map fst seen1) ->
                seen_get k seen1 = winner (group k done_ ++ [data]) ->
                (forall k', k <> k' -> seen_get k' seen1 = seen_get k' seen) ->
                seen_inv (done_ ++ [data]) seen1).
      { intros seen1 Hnd1 Hk Hother. split; [exact Hnd1|].
        intros k'. rewrite group_snoc, Hin.
        destruct (key_eqb k k') eqn:E.
        - apply key_eqb_true in E. subst k'. exact Hk.
        - apply key_eqb_false in E. rewrite (Hother k' E). apply Hget. }
      assert (Hnd_set : NoDup (map fst (seen_set k data seen))).
      { rewrite seen_set_keys. destruct (seen_get k seen) eqn:Hg; [exact Hnd|].
        apply NoDup_app. repeat split; [exact Hnd | | apply NoDup_singleton].
        intros x Hx Hx'. apply list_elem_of_In in Hx.
        apply list_elem_of_In in Hx'. destruct Hx' as [<- | []].
        now apply (seen_get_none_keys k seen Hg). }
      rewrite winner_snoc in Hstep. rewrite <- Hget in Hstep.
      destruct (seen_get k seen) as [existing|] eqn:Hg.
      * destruct (has_images data && negb (has_images existing)) eqn:Hb.
        -- apply IH; [|exact Hall]. apply Hstep.
           ++ exact Hnd_set.
           ++ apply seen_get_set_same.
           ++ intros k' Hne. now apply seen_get_set_other.
        -- apply IH; [|exact Hall]. apply Hstep; [exact Hnd | exact Hg | reflexivity].
      * apply IH; [|exact Hall]. apply Hstep.
        -- exact Hnd_set.
        -- apply seen_get_set_same.
        -- intros k' Hne. now apply seen_get_set_other.
Qed.

(** The first loop on a batch of hashable urls. *)
Lemma reconcile_ok items :
  Forall hashable_url items ->
  exists seen,
    reconcile items = Ok seen /\ NoDup (map fst seen) /\
    forall k c, In (k, c) seen <-> winner (group k items) = Some c.
Proof.
  intros Hall.
  destruct (reconcile_loop_inv items [] []) as (seen & Hrun & Hnd & Hget).
  { split; [constructor | reflexivity]. }
  { exact Hall. }
  exists seen. repeat split; try assumption.
  - intros Hin. apply (seen_get_in k c seen Hnd) in Hin. now rewrite <- Hget.
  - intros Hw. apply (seen_get_in k c seen Hnd). now rewrite Hget.
Qed.

Lemma winner_in g c : winner g = Some c -> In c g.
Proof.
  unfold winner. destruct (find has_images g) as [w|] eqn:Hf.
  - intros [= <-]. now apply find_some in Hf.
  - destruct g; simpl; [discriminate | intros [= <-]; now left].
Qed.

Lemma winner_some g : g <> [] -> exists c, winner g = Some c.
Proof.
  unfold winner. destruct (find has_images g) as [w|]; [eauto|].
  destruct g as [|c g]; [contradiction | eauto].
Qed.

Lemma winner_keyed k items c :
  winner (group k items) = Some c -> url_case (url c) = Keyed k /\ In c items.
Proof.
  intros Hw. apply winner_in in Hw. unfold group in Hw.
  apply filter_In in Hw as [Hin Hg]. split; [|exact Hin].
  unfold in_group in Hg. destruct (url_case (url c)) as [| |k']; try discriminate.
  apply key_eqb_true in Hg. now subst.
Qed.

Lemma keyed_has_winner k items c :
  In c items -> url_case (url c) = Keyed k -> exists w, winner (group k items) = Some w.
Proof.
  intros Hin Hk. apply winner_some. intros Hnil.
  assert (Hc : In c (group k items)).
  { unfold group. apply filter_In. split; [exact Hin|].
    rewrite (in_group_keyed k c Hk). apply key_eqb_refl. }
  rewrite Hnil in Hc. destruct Hc.
Qed.

Lemma reconcile_loop_unhashable items : forall seen,
  Exists (fun c => url_case (url c) = Unhashable) items ->
  reconcile_loop items seen = Raise TypeError.
Proof.
  induction items as [|data rest IH]; intros seen Hex.
  - inversion Hex.
  - cbn [reconcile_loop]. destruct (url_case (url data)) as [| |k] eqn:Hcase.
    + apply IH. inversion Hex; subst; [congruence | assumption].
    + reflexivity.
    + assert (Hrest : Exists (fun c => url_case (url c) = Unhashable) rest)
        by (inversion Hex; subst; [congruence | assumption]).
      destruct (seen_get k seen) as [existing|];
        [destruct (has_images data && negb (has_images existing))|]; now apply IH.
Qed.

(** C5.  Reconciliation of a batch whose urls can be dictionary keys
    (as every string can): a candidate without url (absent or empty) is
    kept under no key; each url that occurs in the batch is kept exactly
    once; the candidate kept for a url is the earliest candidate of that
    url with a non-empty [images] list or, when there is none, the
    earliest candidate of that url.  So of two candidates for one url,
    the one with images is kept in either arrival order, and the first
    is kept when both or neither have images.  (A url that is a
    non-empty list or dict makes the loop raise [TypeError].) *)
Theorem reconcile_keeps_one_per_url (items : list Candidate) :
  (Forall hashable_url items ->
   exists seen,
     reconcile items = Ok seen /\
     (forall k c, In (k, c) seen -> url_case (url c) = Keyed k /\ In c items) /\
     (forall c, In c items -> url_case (url c) = Falsy -> ~ In c (map snd seen)) /\
     NoDup (map fst seen) /\
     (forall c k, In c items -> url_case (url c) = Keyed k -> In k (map fst seen)) /\
     (forall k c, In (k, c) seen <-> winner (group k items) = Some c)) /\
  (forall a b k,
     url_case (url a) = Keyed k -> url_case (url b) = Keyed k ->
     (has_images a = false -> has_images b = true ->
      reconcile [a; b] = Ok [(k, b)] /\ reconcile [b; a] = Ok [(k, b)]) /\
     (has_images a = has_images b -> reconcile [a; b] = Ok [(k, a)])) /\
  (Exists (fun c => url_case (url c) = Unhashable) items ->
   reconcile items = Raise TypeError).
Proof.
  split; [|split].
  - intros Hall.
    destruct (reconcile_loop_inv items [] []) as (seen & Hrun & Hnd & Hget).
    { split; [constructor | reflexivity]. }
    { exact Hall. }
    simpl in Hget.
    assert (Hiff : forall k c, In (k, c) seen <-> winner (group k items) = Some c).
    { intros k c. rewrite (seen_get_in k c seen Hnd), Hget. reflexivity. }
    assert (Hkeyed : forall k c, In (k, c) seen ->
                       url_case (url c) = Keyed k /\ In c items).
    { intros k c Hin. apply Hiff, winner_in in Hin.
      unfold group in Hin. apply filter_In in Hin as [Hin Hg]. split; [|exact Hin].
      unfold in_group in Hg. destruct (url_case (url c)) as [| |k']; try discriminate.
      apply key_eqb_true in Hg. now subst. }
    exists seen. repeat split.
    + exact Hrun.
    + now apply (Hkeyed k c).
    + now apply (Hkeyed k c).
    + intros c Hin Hfalsy Hkept. apply in_map_iff in Hkept as ([k c'] & Heq & Hkept).
      simpl in Heq. subst c'. apply Hkeyed in Hkept as [Hk _]. congruence.
    + exact Hnd.
    + intros c k Hin Hk.
      destruct (winner_some (group k items)) as (w & Hw).
      { intros Hnil. assert (Hc : In c (group k items)).
        { unfold group. apply filter_In. split; [exact Hin|].
          rewrite (in_group_keyed k c Hk). apply key_eqb_refl. }
        rewrite Hnil in Hc. destruct Hc. }
      apply Hiff in Hw. apply (in_map fst) in Hw. exact Hw.
    + apply Hiff.
    + apply Hiff.
  - intros a b k Ha Hb. split.
    + intros Hia Hib. unfold reconcile. split;
        repeat (cbn [reconcile_loop seen_get seen_set andb negb];
                rewrite ?Ha, ?Hb, ?key_eqb_refl, ?Hia, ?Hib); reflexivity.
    + intros Hsame. unfold reconcile.
      repeat (cbn [reconcile_loop seen_get seen_set andb negb];
              rewrite ?Ha, ?Hb, ?key_eqb_refl, ?Hsame).
      destruct (has_images b); reflexivity.
  - apply reconcile_loop_unhashable.
Qed.

End ReconcileFacts.

(** ** Persistence *)

Section PersistFacts.
Context `{PyRuntime}.
Variable utcnow : nat -> Z.

Import Main.

Lemma find_row_some k table r :
  find_row k table = Some r -> In r table /\ r_url r = k.
Proof.
  unfold find_row. intros Hf. apply find_some in Hf as [Hin Hk].
  split; [exact Hin | now apply key_eqb_true].
Qed.

Lemma find_row_none k table :
  find_row k table = None <-> ~ In k (map r_url table).
Proof.
  unfold find_row. induction table as [|r table IH]; simpl; [tauto|].
  destruct (key_eqb (r_url r) k) eqn:E.
  - apply key_eqb_true in E. split; [discriminate | intros Hn; exfalso; apply Hn; now left].
  - apply key_eqb_false in E. rewrite IH. tauto.
Qed.

Lemma find_row_app k table extra :
  find_row k (table ++ extra) =
    match find_row k table with
    | Some r => Some r
    | None => find_row k extra
    end.
Proof.
  unfold find_row. induction table as [|r table IH]; simpl; [reflexivity|].
  destruct (key_eqb (r_url r) k); [reflexivity | exact IH].
Qed.

Lemma replace_row_keys k row' table :
  r_url row' = k -> map r_url (replace_row k row' table) = map r_url table.
Proof.
  intros Hk. unfold replace_row. induction table as [|r table IH]; simpl; [reflexivity|].
  rewrite IH. destruct (key_eqb (r_url r) k) eqn:E; [|reflexivity].
  apply key_eqb_true in E. now rewrite Hk, E.
Qed.

Lemma find_row_replace_same k row' table old :
  r_url row' = k -> find_row k table = Some old ->
  find_row k (replace_row k row' table) = Some row'.
Proof.
  intros Hk. unfold find_row, replace_row.
  induction table as [|r table IH]; simpl; [discriminate|].
  destruct (key_eqb (r_url r) k) eqn:E.
  - intros _. rewrite Hk, key_eqb_refl. reflexivity.
  - rewrite E. exact IH.
Qed.

Lemma find_row_replace_other k k' row' table :
  k <> k' -> r_url row' = k ->
  find_row k' (replace_row k row' table) = find_row k' table.
Proof.
  intros Hne Hk. unfold find_row, replace_row.
  induction table as [|r table IH]; simpl; [reflexivity|].
  destruct (key_eqb (r_url r) k) eqn:E.
  - apply key_eqb_true in E. rewrite Hk, E.
    destruct (key_eqb k k') eqn:E'; [apply key_eqb_true in E'; contradiction | exact IH].
  - destruct (key_eqb (r_url r) k'); [reflexivity | exact IH].
Qed.

Lemma in_replace_row k row' table r :
  In r (replace_row k row' table) -> r = row' \/ In r table.
Proof.
  unfold replace_row. intros Hin. apply in_map_iff in Hin as (r0 & Heq & Hin).
  destruct (key_eqb (r_url r0) k); subst; auto.
Qed.

Lemma upsert_same db k data :
  exists r, find_row k (rows (upsert utcnow db (k, data))) = Some r /\
            upserted utcnow db (upsert utcnow db (k, data)) k data r.
Proof.
  unfold upsert, upserted. destruct (find_row k (rows db)) as [old|] eqn:Hf.
  - destruct (find_row_some _ _ _ Hf) as [Hin Hk].
    destruct (columns_eqb (r_cols old) (columns_of data)) eqn:E.
    + apply columns_eqb_eq in E. exists old. rewrite Hf.
      repeat split; try assumption; try reflexivity. intros Hne. contradiction.
    + eexists. cbn [rows reads]. split.
      * apply (find_row_replace_same k _ (rows db) old); [exact Hk | exact Hf].
      * cbn. repeat split; try assumption.
        -- intros Heq. rewrite Heq, columns_eqb_refl in E. discriminate.
        -- intros _. exists (reads db). split; [lia | reflexivity].
  - eexists. cbn [rows reads]. split.
    + rewrite find_row_app, Hf. unfold find_row. simpl. rewrite key_eqb_refl. reflexivity.
    + cbn. repeat split. exists (reads db). repeat split; lia.
Qed.

Lemma upsert_other db k data k' :
  k <> k' ->
  find_row k' (rows (upsert utcnow db (k, data))) = find_row k' (rows db).
Proof.
  intros Hne. unfold upsert. destruct (find_row k (rows db)) as [old|] eqn:Hf.
  - destruct (columns_eqb (r_cols old) (columns_of data)); [reflexivity|].
    cbn [rows]. apply find_row_replace_other; [exact Hne|].
    now destruct (find_row_some _ _ _ Hf).
  - cbn [rows]. rewrite find_row_app. destruct (find_row k' (rows db)); [reflexivity|].
    unfold find_row. simpl.
    destruct (key_eqb k k') eqn:E; [apply key_eqb_true in E; contradiction | reflexivity].
Qed.

Lemma upsert_urls db k data :
  stored_urls (upsert utcnow db (k, data)) =
    match find_row k (rows db) with
    | Some _ => stored_urls db
    | None => stored_urls db ++ [k]
    end.
Proof.
  unfold upsert, stored_urls. destruct (find_row k (rows db)) as [old|] eqn:Hf.
  - destruct (columns_eqb (r_cols old) (columns_of data)); [reflexivity|].
    cbn [rows]. apply replace_row_keys. now destruct (find_row_some _ _ _ Hf).
  - cbn [rows]. rewrite map_app. reflexivity.
Qed.

Lemma upsert_reads db entry : (reads db <= reads (upsert utcnow db entry))%nat.
Proof.
  destruct entry as [k data]. unfold upsert.
  destruct (find_row k (rows db)) as [old|]; [|cbn; lia].
  destruct (columns_eqb (r_cols old) (columns_of data)); cbn; lia.
Qed.

Lemma upsert_nodup db k data :
  NoDup (stored_urls db) -> NoDup (stored_urls (upsert utcnow db (k, data))).
Proof.
  intros Hnd. rewrite upsert_urls. destruct (find_row k (rows db)) eqn:Hf; [exact Hnd|].
  apply NoDup_app. repeat split; [exact Hnd | | apply NoDup_singleton].
  intros x Hx Hx'. apply list_elem_of_In in Hx, Hx'. destruct Hx' as [<- | []].
  now apply (find_row_none k (rows db)) in Hf.
Qed.

Lemma upsert_stamped db entry :
  stamped utcnow db -> stamped utcnow (upsert utcnow db entry).
Proof.
  destruct entry as [k data]. unfold stamped, upsert. intros Hst.
  destruct (find_row k (rows db)) as [old|] eqn:Hf.
  - destruct (columns_eqb (r_cols old) (columns_of data)); [exact Hst|].
    cbn [rows reads]. intros r Hin. apply in_replace_row in Hin as [-> | Hin].
    + exists (reads db). split; [lia | reflexivity].
    + destruct (Hst r Hin) as (i & Hi & Hu). exists i. split; [lia | exact Hu].
  - cbn [rows reads]. intros r Hin. apply in_app_or in Hin as [Hin | [<- | []]].
    + destruct (Hst r Hin) as (i & Hi & Hu). exists i. split; [lia | exact Hu].
    + exists (S (reads db)). split; [lia | reflexivity].
Qed.

(** The second loop over a [seen_urls] whose keys are distinct. *)
Lemma fold_upsert_spec seen : forall db,
  NoDup (map fst seen) ->
  let db' := fold_left (upsert utcnow) seen db in
  (reads db <= reads db')%nat /\
  (forall k, ~ In k (map fst seen) -> find_row k (rows db') = find_row k (rows db)) /\
  (forall k c, In (k, c) seen ->
     exists r, find_row k (rows db') = Some r /\ upserted utcnow db db' k c r) /\
  (NoDup (stored_urls db) -> NoDup (stored_urls db')) /\
  (stamped utcnow db -> stamped utcnow db').
Proof.
  induction seen as [|[k c] rest IH]; intros db Hnd; cbn zeta.
  - simpl. repeat split; try tauto; try lia.
  - apply NoDup_cons in Hnd as [Hk Hnd]. rewrite list_elem_of_In in Hk.
    cbn [fold_left]. set (db1 := upsert utcnow db (k, c)).
    destruct (IH db1 Hnd) as (Hreads & Hother & Hsame & Hnodup & Hstamped).
    pose proof (upsert_reads db (k, c)) as Hr1. fold db1 in Hr1.
    repeat split.
    + lia.
    + intros k' Hnot. simpl in Hnot. rewrite Hother by tauto.
      apply upsert_other. tauto.
    + intros k' c' [[= <- <-] | Hin].
      * destruct (upsert_same db k c) as (r & Hf & Hu). fold db1 in Hf, Hu.
        exists r. rewrite (Hother k Hk). split; [exact Hf|].
        unfold upserted in *. destruct Hu as (Hu1 & Hu2 & Hu3).
        repeat split; try assumption.
        destruct (find_row k (rows db)) as [old|].
        -- destruct Hu3 as (H1 & H2 & H3). repeat split; try assumption.
           intros Hne. destruct (H3 Hne) as (i & Hi & Hui). exists i. split; [lia | exact Hui].
        -- destruct Hu3 as (i & Hi & Hci & Hui). exists i. repeat split; try assumption; lia.
      * assert (Hne : k <> k').
        { intros <-. apply Hk. apply (in_map fst) in Hin. exact Hin. }
        destruct (Hsame k' c' Hin) as (r & Hf & Hu). exists r. split; [exact Hf|].
        unfold upserted in *. destruct Hu as (Hu1 & Hu2 & Hu3).
        repeat split; try assumption.
        unfold db1 in Hu3. rewrite (upsert_other db k c k' Hne) in Hu3.
        destruct (find_row k' (rows db)) as [old|].
        -- destruct Hu3 as (H1 & H2 & H3). repeat split; try assumption.
           intros Hneq. destruct (H3 Hneq) as (i & Hi & Hui). exists i.
           fold db1 in Hi. split; [lia | exact Hui].
        -- destruct Hu3 as (i & Hi & Hci & Hui). exists i. fold db1 in Hi.
           repeat split; try assumption; lia.
    + intros Hnd0. apply Hnodup. now apply upsert_nodup.
    + intros Hst. apply Hstamped. now apply upsert_stamped.
Qed.

Lemma fold_upsert_urls seen : forall db k,
  In k (stored_urls (fold_left (upsert utcnow) seen db)) <->
  In k (stored_urls db) \/ In k (map fst seen).
Proof.
  induction seen as [|[k0 c] rest IH]; intros db k; [simpl; tauto|].
  cbn [fold_left map fst]. rewrite IH, upsert_urls.
  destruct (find_row k0 (rows db)) eqn:Hf.
  - split; [cbn [In]; tauto|]. intros [Hin | [<- | Hin]]; auto.
    left. destruct (find_row_some _ _ _ Hf) as [Hin <-].
    unfold stored_urls. now apply in_map.
  - rewrite in_app_iff. cbn [In]. tauto.
Qed.



End PersistFacts.

(** ** The runs *)

Section RunFacts.
Context `{PyRuntime} `{BS4}.
Variable utcnow : nat -> Z.

Import Main.

Lemma sweeps_app evs evs' : sweeps (evs ++ evs') = (sweeps evs + sweeps evs')%nat.
Proof. unfold sweeps. now rewrite List.filter_app, length_app. Qed.

Lemma and_then_fst st f :
  fst (and_then st f) =
    fst st ++ match snd st with Ok items => fst (f items) | Raise _ => [] end.
Proof.
  destruct st as [evs [items|e]]; simpl.
  - destruct (f items). reflexivity.
  - now rewrite app_nil_r.
Qed.

Lemma and_then_snd st f :
  snd (and_then st f) =
    match snd st with Ok items => snd (f items) | Raise e => Raise e end.
Proof.
  destruct st as [evs [items|e]]; simpl; [|reflexivity].
  destruct (f items). reflexivity.
Qed.

Lemma extract_stage_sweeps log markup :
  (forall n, is_regex_sweep (log n) = false) ->
  sweeps (fst (extract_stage log markup)) = 0%nat.
Proof.
  intros Hlog. unfold extract_stage.
  destruct (ListingListProcessor.extract_all markup BASE_URL); unfold sweeps; simpl;
    [rewrite Hlog|]; reflexivity.
Qed.

Lemma file_stage_sweeps file : sweeps (fst (file_stage file)) = 0%nat.
Proof.
  destruct file as [[markup|e]|]; simpl; try reflexivity.
  now apply extract_stage_sweeps.
Qed.

Lemma scripts_stage_sweeps file : sweeps (fst (scripts_stage file)) = 0%nat.
Proof.
  unfold scripts_stage. destruct file as [[content|e]|]; try reflexivity.
  destruct (json_loads _); [|reflexivity].
  destruct (flat_map recover_item _); reflexivity.
Qed.

Lemma if_not_items_sweeps st items :
  sweeps (fst st) = 0%nat -> sweeps (fst (if_not_items st items)) = 0%nat.
Proof. destruct items; simpl; auto. Qed.

Lemma stage_step_sweeps st next :
  sweeps (fst st) = 0%nat -> sweeps (fst next) = 0%nat ->
  sweeps (fst (and_then st (if_not_items next))) = 0%nat.
Proof.
  intros Hst Hnext. rewrite and_then_fst, sweeps_app, Hst.
  destruct (snd st); [now apply if_not_items_sweeps | reflexivity].
Qed.

Lemma before_sweep_sweeps d html : sweeps (fst (before_sweep d html)) = 0%nat.
Proof.
  unfold before_sweep.
  repeat apply stage_step_sweeps;
    auto using file_stage_sweeps, scripts_stage_sweeps, extract_stage_sweeps.
Qed.

Lemma save_stage_sweeps db items : sweeps (fst (save_stage utcnow db items)) = 0%nat.
Proof. unfold save_stage. destruct (persist utcnow db items) as [[db' n]|e]; reflexivity. Qed.

Lemma regex_stage_sweeps html :
  sweeps (fst (regex_stage html)) = 1%nat /\ In (RegexSweep html) (fst (regex_stage html)).
Proof.
  unfold regex_stage. destruct (ListingListProcessor._fallback_regex_sweep html BASE_URL);
    simpl; auto.
Qed.

(** The events of [parse-file] are those of the candidate stages, then
    those of the session block and of the handler. *)
Lemma parse_file_sweeps d db html :
  page_html d = Ok html ->
  sweeps (snd (parse_file utcnow d db)) = sweeps (fst (parse_file_items d html)).
Proof.
  intros Hpage. unfold parse_file. rewrite Hpage.
  destruct (parse_file_items d html) as [evs [items|e]]; cbn [fst].
  - pose proof (save_stage_sweeps db items) as Hsave.
    destruct (save_stage utcnow db items) as [evs' [db'|e]]; cbn [fst snd] in *;
      rewrite ?sweeps_app, Hsave; unfold sweeps; simpl; lia.
  - cbn [snd]. rewrite sweeps_app. unfold sweeps. simpl. lia.
Qed.

Lemma run_once_sweeps client db : sweeps (snd (run_once utcnow client db)) = 0%nat.
Proof.
  unfold run_once. destruct (client_get client) as [html|e]; [|reflexivity].
  pose proof (extract_stage_sweeps LogFound html (fun _ => eq_refl)) as Hex.
  destruct (extract_stage LogFound html) as [evs [items|e]]; cbn [fst snd] in *.
  - pose proof (save_stage_sweeps db items) as Hsave.
    destruct (save_stage utcnow db items) as [evs' [db'|e]]; cbn [fst snd] in *;
      change (Dispatch html :: ?l) with ([Dispatch html] ++ l);
      rewrite ?sweeps_app, Hex, Hsave; reflexivity.
  - change (Dispatch html :: ?l) with ([Dispatch html] ++ l).
    rewrite ?sweeps_app, Hex. reflexivity.
Qed.

(** A non-empty first extraction is the list that reaches the session
    block. *)
Lemma before_sweep_found d html c items :
  ListingListProcessor.extract_all html BASE_URL = Ok (c :: items) ->
  snd (before_sweep d html) = Ok (c :: items).
Proof.
  intros Hex. unfold before_sweep. rewrite !and_then_snd.
  unfold extract_stage at 1. rewrite Hex. reflexivity.
Qed.

Lemma before_sweep_empty d html :
  snd (before_sweep d html) = Ok [] ->
  ListingListProcessor.extract_all html BASE_URL = Ok [].
Proof.
  unfold before_sweep. rewrite !and_then_snd. unfold extract_stage at 1.
  destruct (ListingListProcessor.extract_all html BASE_URL) as [[|c items]|e];
    cbn [snd if_not_items]; [reflexivity | discriminate | discriminate].
Qed.

(** C4 (amended).  In [parse-file] the regex sweep runs, once and over
    the raw markup of the page, exactly when the candidate list is still
    empty after [extract_all] on the page and after the fallbacks on
    [page_pretty.html], [scripts.json] and [page.txt]; it runs only if
    [extract_all] on the page returned no candidate.  In neither
    command does it run when [extract_all] on the fetched or read markup
    returned at least one candidate. *)
Theorem regex_sweep_last_resort (d : Dump) (db : DB) (html : string) :
  page_html d = Ok html ->
  let evs := snd (parse_file utcnow d db) in
  (snd (before_sweep d html) = Ok [] ->
   sweeps evs = 1%nat /\ In (RegexSweep html) evs) /\
  (snd (before_sweep d html) <> Ok [] -> sweeps evs = 0%nat) /\
  (sweeps evs <> 0%nat -> ListingListProcessor.extract_all html BASE_URL = Ok []) /\
  (forall c items,
     ListingListProcessor.extract_all html BASE_URL = Ok (c :: items) ->
     sweeps evs = 0%nat) /\
  (forall client c items,
     client_get client = Ok html ->
     ListingListProcessor.extract_all html BASE_URL = Ok (c :: items) ->
     sweeps (snd (run_once utcnow client db)) = 0%nat).
Proof.
  intros Hpage evs. subst evs.
  assert (Hnot : snd (before_sweep d html) <> Ok [] ->
                 sweeps (snd (parse_file utcnow d db)) = 0%nat).
  { intros Hne. rewrite (parse_file_sweeps d db html Hpage).
    unfold parse_file_items. rewrite and_then_fst, sweeps_app, before_sweep_sweeps.
    destruct (snd (before_sweep d html)) as [[|c items]|e];
      [contradiction | reflexivity | reflexivity]. }
  repeat split.
  - rewrite (parse_file_sweeps d db html Hpage).
    unfold parse_file_items. rewrite and_then_fst, sweeps_app, before_sweep_sweeps, H1.
    cbn [if_not_items]. apply regex_stage_sweeps.
  - unfold parse_file. rewrite Hpage.
    assert (Hin : In (RegexSweep html) (fst (parse_file_items d html))).
    { unfold parse_file_items. rewrite and_then_fst, H1. cbn [if_not_items].
      apply in_or_app. right. apply regex_stage_sweeps. }
    destruct (parse_file_items d html) as [evs [items|e]]; cbn [fst] in Hin.
    + destruct (save_stage utcnow db items) as [evs' [db'|e]]; cbn [snd];
        apply in_or_app; now left.
    + cbn [snd]. apply in_or_app. now left.
  - exact Hnot.
  - intros Hsw. apply (before_sweep_empty d html).
    destruct (snd (before_sweep d html)) as [[|c items]|e] eqn:Hb; [reflexivity| |];
      exfalso; apply Hsw, Hnot; discriminate.
  - intros c items Hex. apply Hnot.
    rewrite (before_sweep_found d html c items Hex). discriminate.
  - intros client c items _ _. apply run_once_sweeps.
Qed.


End RunFacts.

(** ** The extraction pipeline *)

Section ParserFacts.
Context `{PyRuntime} `{BS4}.

Import ListingListProcessor.

Lemma mem_str_spec x l : mem_str x l = true <-> In x l.
Proof.
  unfold mem_str. rewrite existsb_exists. split.
  - intros (y & Hy & Heq). apply String.eqb_eq in Heq. now subst.
  - intros Hin. exists x. split; [exact Hin | apply String.eqb_refl].
Qed.

Lemma startswith_cons p c rest :
  startswith (String p EmptyString) (String c rest) = Ascii.eqb p c.
Proof.
  unfold startswith. simpl. destruct (ascii_dec p c) as [->|Hne].
  - rewrite Ascii.eqb_refl. destruct rest; reflexivity.
  - symmetry. now apply Ascii.eqb_neq.
Qed.

Lemma startswith_slash_2 src : startswith "//" src = true -> startswith "/" src = true.
Proof.
  unfold startswith. destruct src as [|c src]; [discriminate|].
  cbn [String.prefix].
  destruct (ascii_dec "/" c); [intros _; destruct src; reflexivity | discriminate].
Qed.

Lemma rstrip_slash_head c b :
  Ascii.eqb c "/" = false -> exists x, rstrip_slash (String c b) = String c x.
Proof.
  intros Hc. simpl. destruct (rstrip_slash b) as [|c' r]; rewrite ?Hc; eauto.
Qed.

(** An absolute base gives an absolute result. *)
Lemma resolved_against_base b src :
  b <> "" -> startswith "/" b = false ->
  startswith "/" (rstrip_slash b +:+ src) = false.
Proof.
  destruct b as [|c b]; [contradiction|]. intros _ Hb.
  rewrite startswith_cons in Hb.
  assert (Hc : Ascii.eqb c "/" = false) by (rewrite Ascii.eqb_sym; exact Hb).
  destruct (rstrip_slash_head c b Hc) as (x & ->).
  change (String c x +:+ src) with (String c (x +:+ src)).
  rewrite startswith_cons. exact Hb.
Qed.

Lemma resolve_src_absolute b src :
  b <> "" -> startswith "/" b = false ->
  startswith "/" (resolve_src (Some b) src) = false.
Proof.
  intros Hne Hb. unfold resolve_src.
  destruct (startswith "//" src) eqn:H2; [reflexivity|].
  destruct (startswith "/" src) eqn:H1; cbn [andb].
  - assert (Ht : truthy_str (Some b) = true).
    { simpl. apply String.eqb_neq in Hne. now rewrite Hne. }
    rewrite Ht. simpl default. now apply resolved_against_base.
  - exact H1.
Qed.

Lemma resolve_src_id base_url src : startswith "/" src = false -> resolve_src base_url src = src.
Proof.
  intros H1. unfold resolve_src. rewrite H1.
  destruct (startswith "//" src) eqn:H2; [|reflexivity].
  apply startswith_slash_2 in H2. congruence.
Qed.

(** Where the entries of the image list come from. *)
Lemma collect_images_in base_url srcs : forall imgs i,
  In i (collect_images base_url srcs imgs) ->
  In i imgs \/
  exists src, In (Some src) srcs /\ src <> "" /\ i = resolve_src base_url src.
Proof.
  induction srcs as [|o srcs IH]; intros imgs i Hin; simpl in Hin; [now left|].
  destruct (truthy_str o && negb (mem_str (default "" o) imgs)) eqn:Hb.
  - apply andb_true_iff in Hb as [Ht _]. destruct o as [src|]; [|discriminate].
    simpl in Ht, Hin. apply IH in Hin as [Hin | (src' & Hs & Hne & Hi)].
    + apply in_app_or in Hin as [Hin | [<- | []]]; [now left | right].
      exists src. repeat split; [now left|].
      intros ->. discriminate.
    + right. exists src'. repeat split; [now right | exact Hne | exact Hi].
  - apply IH in Hin as [Hin | (src' & Hs & Hne & Hi)]; [now left | right].
    exists src'. repeat split; [now right | exact Hne | exact Hi].
Qed.

(** The loop removes repetitions among sources that are written in
    absolute form. *)
Lemma collect_images_nodup base_url srcs : forall imgs,
  (forall src, In (Some src) srcs -> startswith "/" src = false) ->
  NoDup imgs -> NoDup (collect_images base_url srcs imgs).
Proof.
  induction srcs as [|o srcs IH]; intros imgs Habs Hnd; simpl; [exact Hnd|].
  assert (Habs' : forall src, In (Some src) srcs -> startswith "/" src = false)
    by (intros src Hin; apply Habs; now right).
  destruct (truthy_str o && negb (mem_str (default "" o) imgs)) eqn:Hb.
  - apply andb_true_iff in Hb as [Ht Hm]. destruct o as [src|]; [|discriminate].
    simpl in Hm |- *. apply IH; [exact Habs'|].
    rewrite (resolve_src_id base_url src) by (apply Habs; now left).
    apply NoDup_app. repeat split; [exact Hnd | | apply NoDup_singleton].
    intros x Hx Hx'. apply list_elem_of_In in Hx, Hx'. destruct Hx' as [<- | []].
    apply negb_true_iff in Hm. apply mem_str_spec in Hx. congruence.
  - now apply IH.
Qed.

(** A tier-1 candidate has no [images] entry (page-level link) or the
    list built from the [img] elements of its card. *)
Lemma extract_from_soup_images base_url soup c :
  In c (extract_from_soup base_url soup) ->
  images c = None \/ exists card, images c = Some (card_images base_url card).
Proof.
  unfold extract_from_soup.
  set (card_nodes := match select soup CARDS_PRIMARY with
                     | [] => select soup CARDS_FALLBACK
                     | nodes => nodes
                     end).
  destruct (List.filter has_title_or_url (map (card_item base_url) card_nodes))
    as [|c0 l] eqn:Hcards.
  - intros Hin. left. apply list_elem_of_In, list_elem_of_omap in Hin as (a & _ & Ha).
    unfold link_item in Ha.
    destruct (negb (truthy_str (attr a "href"))); [discriminate|].
    injection Ha as <-. reflexivity.
  - intros Hin. right. rewrite <- Hcards in Hin.
    apply filter_In in Hin as [Hin _]. apply in_map_iff in Hin as (card & <- & _).
    exists card. reflexivity.
Qed.

Lemma keep_candidate_one cand c : keep_candidate cand = [c] -> c = cand.
Proof. unfold keep_candidate. destruct (has_title_or_url cand); now intros [= <-]. Qed.

(** C6 (amended).  The image list of a tier-1 candidate is built from
    the [src] attributes of the [img] elements of its card: a source
    that starts with "//" is emitted with "https:" in front, a source
    that starts with one "/" is emitted with [base_url] (less its
    trailing slashes) in front, so that with an absolute [base_url] no
    emitted entry starts with "/"; a card whose sources are all written
    in absolute form gives a list without repetition.  A tier-2
    candidate carries the image strings of its structured-data object
    as they are. *)
Theorem card_images_resolved (base_url : option string) :
  (forall soup c imgs,
     In c (extract_from_soup base_url soup) -> images c = Some imgs ->
     exists card,
       imgs = card_images base_url card /\
       (forall i, In i imgs ->
          exists img src,
            In img (select card CARD_IMAGES) /\ attr img "src" = Some src /\
            src <> "" /\ i = resolve_src base_url src) /\
       (forall b, base_url = Some b -> b <> "" -> startswith "/" b = false ->
          forall i, In i imgs -> startswith "/" i = false) /\
       ((forall img src, In img (select card CARD_IMAGES) ->
           attr img "src" = Some src -> startswith "/" src = false) ->
        NoDup imgs)) /\
  (forall src, startswith "//" src = true ->
     resolve_src base_url src = "https:" +:+ src) /\
  (forall b src, base_url = Some b -> b <> "" ->
     startswith "//" src = false -> startswith "/" src = true ->
     resolve_src base_url src = rstrip_slash b +:+ src) /\
  (forall obj c, payload_candidate base_url obj = Ok [c] ->
     images c = Some (image_list (dget obj "image"))) /\
  (forall offer c, graph_offer base_url offer = Ok [c] ->
     images c = Some (if truthy (dget offer "image")
                      then image_list (dget offer "image") else [])).
Proof.
  repeat apply conj.
  - intros soup c imgs Hin Himgs.
    destruct (extract_from_soup_images base_url soup c Hin) as [Hnone | (card & Hcard)];
      [congruence|].
    rewrite Hcard in Himgs. injection Himgs as <-.
    assert (Hfrom : forall i, In i (card_images base_url card) ->
              exists img src,
                In img (select card CARD_IMAGES) /\ attr img "src" = Some src /\
                src <> "" /\ i = resolve_src base_url src).
    { intros i Hi. unfold card_images in Hi.
      apply collect_images_in in Hi as [[] | (src & Hsrc & Hne & Hi)].
      apply in_map_iff in Hsrc as (img & Hattr & Himg). eauto 10. }
    exists card. repeat apply conj.
    + reflexivity.
    + exact Hfrom.
    + intros b Hb Hne Habs i Hi. destruct (Hfrom i Hi) as (img & src & _ & _ & _ & ->).
      rewrite Hb. now apply resolve_src_absolute.
    + intros Habs. unfold card_images. apply collect_images_nodup; [|constructor].
      intros src Hsrc. apply in_map_iff in Hsrc as (img & Hattr & Himg). eauto.
  - intros src H2. unfold resolve_src. now rewrite H2.
  - intros b src Hb Hne H2 H1. unfold resolve_src. rewrite H2, H1, Hb. simpl.
    apply String.eqb_neq in Hne. now rewrite Hne.
  - intros obj c. unfold payload_candidate.
    destruct (isinstance_dict obj); [|discriminate].
    destruct (resolve_json_url base_url (dget obj "url")) as [u|e]; [|discriminate].
    cbn [bind].
    destruct (if isinstance_dict (dget obj "address")
              then join_address (dget (dget obj "address") "streetAddress")
                                (dget (dget obj "address") "addressLocality")
              else Ok None) as [a|e]; [|discriminate].
    cbn [bind]. intros [= Hk]. apply keep_candidate_one in Hk. now subst c.
  - intros offer c. unfold graph_offer.
    destruct (isinstance_dict offer); [|discriminate].
    destruct (resolve_json_url base_url (dget offer "url")) as [u|e]; [|discriminate].
    cbn [bind]. intros [= Hk]. apply keep_candidate_one in Hk. now subst c.
Qed.


End ParserFacts.

(** ** The properties on concrete runs *)


Lemma fixture_batch_hashable :
  Forall hashable_url [Fixture.bare; Fixture.pictured; Fixture.nameless].
Proof. repeat constructor; discriminate. Qed.

Lemma reconcile_keeps_one_per_url_witness :
  exists seen,
    Main.reconcile [Fixture.bare; Fixture.pictured; Fixture.nameless] = Ok seen /\
    NoDup (map fst seen) /\
    In (inr "https://x.test/item/1", Fixture.pictured) seen.
Proof.
  destruct (reconcile_keeps_one_per_url
              [Fixture.bare; Fixture.pictured; Fixture.nameless]) as (Hkept & _).
  destruct (Hkept fixture_batch_hashable) as (seen & Hrun & _ & _ & Hnd & _ & Hwin).
  exists seen. repeat split.
  - exact Hrun.
  - exact Hnd.
  - apply Hwin. reflexivity.
Defined.

Lemma card_images_resolved_witness :
  images Fixture.candidate_C
    = Some ["https://x.test/img/a.jpg"; "https://cdn.x.test/b.jpg"] /\
  startswith "/" "https://x.test/img/a.jpg" = false /\
  startswith "/" "https://cdn.x.test/b.jpg" = false /\
  NoDup ["https://x.test/img/a.jpg"; "https://cdn.x.test/b.jpg"].
Proof.
  destruct (@card_images_resolved Fixture.rt Fixture.page_C (Some "https://x.test"))
    as (Hcard & _).
  destruct (Hcard (soup_lxml "<html></html>") Fixture.candidate_C
              ["https://x.test/img/a.jpg"; "https://cdn.x.test/b.jpg"])
    as (card & Hcard_images & Hfrom & Habsolute & _).
  - left. reflexivity.
  - reflexivity.
  - pose proof (Habsolute "https://x.test" eq_refl ltac:(discriminate) eq_refl) as Habs.
    split; [reflexivity|].
    split; [apply Habs; now left|].
    split; [apply Habs; right; now left|].
    apply NoDup_cons. split.
    + rewrite list_elem_of_In. intros [Heq | []]. discriminate Heq.
    + apply NoDup_singleton.
Defined.

(** C6, as stated, fails: the candidate that tier 2 builds from a
    structured-data script keeps the image paths of the script, here
    the same root-relative path twice. *)
Lemma structured_data_images_as_written :
  @ListingListProcessor.extract_all Fixture.rt Fixture.page_B
    "<html></html>" (Some "https://x.test") = Ok [Fixture.candidate_B] /\
  images Fixture.candidate_B = Some ["/p.jpg"; "/p.jpg"] /\
  ~ NoDup ["/p.jpg"; "/p.jpg"] /\
  startswith "/" "/p.jpg" = true.
Proof.
  repeat split.
  intros Hnd. apply NoDup_cons in Hnd as [Hnotin _]. apply Hnotin. now left.
Qed.



Lemma regex_sweep_last_resort_witness :
  Main.sweeps (snd (@Main.parse_file Fixture.rt Fixture.page_empty Fixture.clock
                 Fixture.dump_alone Fixture.empty_db)) = 1%nat.
Proof.
  destruct (@regex_sweep_last_resort Fixture.rt Fixture.page_empty Fixture.clock
              Fixture.dump_alone Fixture.empty_db "<html></html>") as (Hlast & _).
  - reflexivity.
  - apply Hlast. reflexivity.
Defined.

(** C4, as stated, fails: [run-once] ends with zero records without a
    regex sweep when [extract_all] returns no candidate, and
    [parse-file] skips the sweep when [scripts.json] gave a candidate
    although tiers 1 and 2 gave none. *)
Lemma sweep_not_attempted :
  @ListingListProcessor.extract_all Fixture.rt Fixture.page_empty
    "<html></html>" Main.BASE_URL = Ok [] /\
  snd (@Main.run_once Fixture.rt Fixture.page_empty Fixture.clock
         (Main.Playwright Fixture.settings (Fixture.browser "<html></html>"))
         Fixture.empty_db)
  = [Main.Dispatch "<html></html>"; Main.ExtractAll "<html></html>";
     Main.LogFound 0; Main.LogSaved 0] /\
  snd (@Main.parse_file Fixture.rt Fixture.page_empty Fixture.clock
         Fixture.dump_with_scripts Fixture.empty_db)
  = [Main.ExtractAll "<html></html>"; Main.LogFound 0;
     Main.LogRecovered 1; Main.LogSaved 1].
Proof. repeat split. Qed.



(** ** More on the browser fetcher *)

Section PlaywrightMore.
Context `{PyRuntime}.
Variable s : Settings.
Variable b : PlaywrightClient.Browser.

Import PlaywrightClient.

(** X7.  Challenge solving is optional and its failures stay inside:
    without a solving-service key the solver is not asked and the page
    is read as it is; a failure of the token injection, of the click or
    of the wait after it leaves the step with "not solved"; the step
    raises only when the solving service itself raises. *)
Theorem challenge_solving_is_optional :
  (truthy_str (anticaptcha_key s) = false ->
   recaptcha_step s b = Ok false /\
   after_render s b =
     (do content <- page_content b false ; do _ <- close b ; Ok content)%exc) /\
  (forall e token,
     solve_and_return_solution b = Ok token -> inject_token b = Raise e ->
     recaptcha_step s b = Ok false) /\
  (forall e, recaptcha_step s b = Raise e ->
     truthy_str (anticaptcha_key s) = true /\ solve_and_return_solution b = Raise e) /\
  (recaptcha_step s b = Ok true ->
   inject_token b = Ok tt /\ wait_load_state b = Ok tt).
Proof.
  assert (Hraise : forall e, recaptcha_step s b = Raise e ->
            truthy_str (anticaptcha_key s) = true /\ solve_and_return_solution b = Raise e).
  { intros e. unfold recaptcha_step, solve_recaptcha_v2.
    destruct (truthy match eval_site_key b with Ok k => k | Raise _ => PNone end);
      [|discriminate].
    destruct (truthy_str (anticaptcha_key s)); cbn [negb]; [|discriminate].
    destruct (solve_and_return_solution b) as [token|e']; cbn [bind].
    - destruct (truthy (if truthy token then token else PNone)); discriminate.
    - intros [= <-]. split; reflexivity. }
  repeat apply conj.
  - intros Hkey.
    assert (Hstep : recaptcha_step s b = Ok false).
    { unfold recaptcha_step, solve_recaptcha_v2. rewrite Hkey. cbn [negb bind truthy].
      destruct (truthy match eval_site_key b with Ok k => k | Raise _ => PNone end);
        reflexivity. }
    split; [exact Hstep|]. unfold after_render. rewrite Hstep. reflexivity.
  - intros e token Hsolve Hinj. unfold recaptcha_step, solve_recaptcha_v2.
    rewrite Hsolve, Hinj. cbn [bind is_ok].
    destruct (truthy match eval_site_key b with Ok k => k | Raise _ => PNone end);
      [|reflexivity].
    destruct (negb (truthy_str (anticaptcha_key s))); cbn [bind truthy]; [reflexivity|].
    destruct (truthy (if truthy token then token else PNone)); reflexivity.
  - exact Hraise.
  - unfold recaptcha_step.
    destruct (truthy match eval_site_key b with Ok k => k | Raise _ => PNone end);
      [|discriminate].
    destruct (solve_recaptcha_v2 s b) as [token|e']; cbn [bind]; [|discriminate].
    destruct (truthy token); [|discriminate].
    destruct (inject_token b) as [[]|e1]; cbn [bind is_ok]; [|discriminate].
    destruct (click_submit b) as [[]|e2]; cbn [try_except bind];
      destruct (wait_load_state b) as [[]|e3]; cbn [is_ok]; try discriminate;
      intros _; split; reflexivity.
Qed.

(** X8.  A cookie file that is absent, unreadable or not JSON does not
    stop [get]; a cookie file that holds JSON of another shape than an
    object does: [stored.get] raises [AttributeError] before the page
    is opened. *)
Theorem cookie_file_shape :
  launch b = Ok tt ->
  (forall content v,
     cookie_file b = CookieStore.Content content -> json_loads content = Ok v ->
     isinstance_dict v = false -> get s b = Raise AttributeError) /\
  (cookie_file b = CookieStore.Absent \/
   (exists e, cookie_file b = CookieStore.Unreadable e) \/
   (exists content e, cookie_file b = CookieStore.Content content /\
                      json_loads content = Raise e) ->
   get s b = (do _ <- goto b ; do _ <- ensure_rendered b ; after_render s b)%exc).
Proof.
  intros Hlaunch. split.
  - intros content v Hfile Hloads Hshape. unfold get. rewrite Hlaunch. cbn [bind].
    cbn zeta. unfold CookieStore.load. rewrite Hfile, Hloads. cbn [fst].
    destruct v; try discriminate; reflexivity.
  - intros Hcases. unfold get. rewrite Hlaunch. cbn [bind]. cbn zeta.
    assert (Hdefault : fst (CookieStore.load (cookie_file b)) = CookieStore.default).
    { destruct Hcases as [-> | [(e & ->) | (content & e & -> & Hl)]];
        unfold CookieStore.load; rewrite ?Hl; reflexivity. }
    rewrite Hdefault. reflexivity.
Qed.

End PlaywrightMore.

(** ** More on the primary fetcher *)

Section CurlClientMore.
Context `{PyRuntime}.
Variable s : Settings.
Variable net : Net.
Variable b : PlaywrightClient.Browser.

Import CurlClient.

Local Abbreviation run := (attempts s net b).

Lemma fallbacks_at_most_one todo : (fallbacks (fst (run todo)) <= 1)%nat.
Proof.
  induction todo as [|a rest IH]; [unfold fallbacks; simpl; lia|].
  cbn [attempts]. destruct (session_get net a) as [r|e]; [|unfold fallbacks; simpl; lia].
  destruct (status_in (status_code r) [200; 201]); [unfold fallbacks; simpl; lia|].
  destruct (status_in (status_code r) [403; 429; 503]); [|unfold fallbacks; simpl; lia].
  destruct (run rest) as [evs res]. unfold fallbacks in *. simpl in *. lia.
Qed.

Lemma fallback_needs_retryable todo :
  fallbacks (fst (run todo)) = 1%nat ->
  forall a, In a todo -> exists r, session_get net a = Ok r /\ retryable r.
Proof.
  induction todo as [|a rest IH]; [intros _ a []|].
  cbn [attempts]. destruct (session_get net a) as [r|e] eqn:Hget;
    [|unfold fallbacks; simpl; discriminate].
  destruct (status_in (status_code r) [200; 201]); [unfold fallbacks; simpl; discriminate|].
  destruct (status_in (status_code r) [403; 429; 503]) eqn:Hr;
    [|unfold fallbacks; simpl; discriminate].
  destruct (run rest) as [evs res] eqn:Hrest. intros Hfb a' [<- | Hin].
  - exists r. split; [exact Hget | exact Hr].
  - apply IH; [|exact Hin]. unfold fallbacks in *. simpl in *. exact Hfb.
Qed.

(** X1.  The browser is started at most once in a call, and exactly
    when all five attempts met a retryable status. *)
Theorem browser_only_on_exhaustion :
  let evs := fst (get s net b) in
  (fallbacks evs <= 1)%nat /\
  (fallbacks evs = 1%nat <-> all_retryable net 1 5) /\
  (fallbacks evs = 1%nat -> requests evs = 5%nat /\ length (sleeps evs) = 5%nat).
Proof.
  cbn zeta. unfold get, max_attempts.
  assert (Hback : all_retryable net 1 5 ->
            fallbacks (fst (run (seqZ 1 5))) = 1%nat /\
            requests (fst (run (seqZ 1 5))) = 5%nat /\
            length (sleeps (fst (run (seqZ 1 5)))) = 5%nat).
  { intros Hall. pose proof (attempts_retry_run s net b 5 1 [] Hall) as (_ & H2 & H3 & H4).
    change (seqZ 1 (Z.of_nat 5) ++ []) with (seqZ 1 5) in *.
    cbn [attempts fst] in *. rewrite H2, H3, H4. repeat split. }
  assert (Hforth : fallbacks (fst (run (seqZ 1 5))) = 1%nat -> all_retryable net 1 5).
  { intros Hfb a Ha. apply (fallback_needs_retryable _ Hfb).
    apply list_elem_of_In, elem_of_seqZ. lia. }
  repeat split.
  - apply fallbacks_at_most_one.
  - exact Hforth.
  - intros Hall. now apply Hback.
  - now apply Hback, Hforth.
  - now apply Hback, Hforth.
Qed.

(** X2.  A transport failure of [session.get] is not retried: after
    [k] retryable answers it leaves the call at once, with no sleep of
    its own, no write of the cookie store for that attempt and no
    browser fallback. *)
Theorem transport_error_propagates (k : nat) (e : PyError) :
  (k < 5)%nat -> all_retryable net 1 k ->
  session_get net (Z.of_nat k + 1) = Raise e ->
  let evs := fst (get s net b) in
  snd (get s net b) = Raise e /\
  requests evs = S k /\ fallbacks evs = 0%nat /\
  sleeps evs = map (backoff net) (seqZ 1 (Z.of_nat k)) /\
  cookie_saves evs = k.
Proof.
  intros Hk Hall Hget. cbn zeta. unfold get, max_attempts.
  assert (Hsplit : seqZ 1 5 = seqZ 1 (Z.of_nat k) ++ seqZ (Z.of_nat k + 1) (5 - Z.of_nat k)).
  { replace (Z.of_nat k + 1) with (1 + Z.of_nat k) by lia.
    rewrite <- seqZ_app by lia. f_equal. lia. }
  rewrite Hsplit.
  assert (Htail : run (seqZ (Z.of_nat k + 1) (5 - Z.of_nat k)) =
            ([EvRequest (Z.of_nat k + 1) (select_user_agent s net (Z.of_nat k + 1))
                (select_proxy s net (Z.of_nat k + 1))], Raise e)).
  { rewrite seqZ_cons by lia. cbn [attempts]. rewrite Hget. reflexivity. }
  assert (Hsaves : forall n from rest, all_retryable net from n ->
            cookie_saves (fst (run (seqZ from (Z.of_nat n) ++ rest))) =
            (n + cookie_saves (fst (run rest)))%nat).
  { induction n as [|n IH]; intros from rest Hn; [reflexivity|].
    rewrite Nat2Z.inj_succ, seqZ_cons by lia.
    replace (Z.pred (Z.succ (Z.of_nat n))) with (Z.of_nat n) by lia.
    destruct (Hn from) as (r0 & Hg & Hr); [lia|].
    rewrite <- app_comm_cons, (attempts_retry s net b _ _ _ Hg Hr).
    cbn [fst]. unfold cookie_saves in *. cbn. rewrite IH; [reflexivity|].
    intros a Ha. apply Hn. lia. }
  destruct (attempts_retry_run s net b k 1 (seqZ (Z.of_nat k + 1) (5 - Z.of_nat k)) Hall)
    as (H1 & H2 & H3 & H4).
  rewrite (Hsaves k 1 _ Hall), Htail in *. cbn [fst snd] in *. repeat split.
  - exact H1.
  - rewrite H2. unfold requests. simpl. lia.
  - rewrite H3. reflexivity.
  - rewrite H4. unfold sleeps. simpl. apply app_nil_r.
  - unfold cookie_saves. simpl. lia.
Qed.

Lemma saves_bounds todo :
  (cookie_saves (fst (run todo)) <= requests (fst (run todo))
   <= S (cookie_saves (fst (run todo))))%nat /\
  ((forall a, In a todo -> is_ok (session_get net a) = true) ->
   cookie_saves (fst (run todo)) = requests (fst (run todo))).
Proof.
  induction todo as [|a rest [IHb IHe]].
  - unfold cookie_saves, requests. simpl. split; [lia | reflexivity].
  - cbn [attempts]. destruct (session_get net a) as [r|e] eqn:Hget.
    + assert (Hrest : (forall a0, In a0 (a :: rest) -> is_ok (session_get net a0) = true) ->
                forall a0, In a0 rest -> is_ok (session_get net a0) = true)
        by (intros Hall a0 Hin; apply Hall; now right).
      destruct (status_in (status_code r) [200; 201]);
        [unfold cookie_saves, requests; simpl; split; [lia | reflexivity]|].
      destruct (status_in (status_code r) [403; 429; 503]);
        [|unfold cookie_saves, requests; simpl; split; [lia | reflexivity]].
      destruct (run rest) as [evs res]. unfold cookie_saves, requests in *.
      cbn [fst] in *. simpl. split; [lia|]. intros Hall. rewrite IHe; auto.
    + unfold cookie_saves, requests. simpl. split; [lia|].
      intros Hall. specialize (Hall a (or_introl eq_refl)). rewrite Hget in Hall.
      discriminate.
Qed.

(** X3.  The cookie store is written once for every request that got an
    answer: the writes fall short of the requests by at most one (a
    last request whose transport failed), and equal them when every
    request is answered. *)
Theorem cookies_saved_after_every_answer :
  let evs := fst (get s net b) in
  (cookie_saves evs <= requests evs <= S (cookie_saves evs))%nat /\
  ((forall a, 1 <= a <= 5 -> is_ok (session_get net a) = true) ->
   cookie_saves evs = requests evs).
Proof.
  cbn zeta. unfold get, max_attempts.
  destruct (saves_bounds (seqZ 1 5)) as [Hb He]. split; [exact Hb|].
  intros Hall. apply He. intros a Hin.
  apply list_elem_of_In, elem_of_seqZ in Hin. apply Hall. lia.
Qed.

Lemma sleeps_prefix todo :
  exists n, sleeps (fst (run todo)) = map (backoff net) (take n todo).
Proof.
  induction todo as [|a rest (n & IH)]; [exists 0%nat; reflexivity|].
  cbn [attempts]. destruct (session_get net a) as [r|e]; [|exists 0%nat; reflexivity].
  destruct (status_in (status_code r) [200; 201]); [exists 0%nat; reflexivity|].
  destruct (status_in (status_code r) [403; 429; 503]); [|exists 0%nat; reflexivity].
  destruct (run rest) as [evs res]. exists (S n). cbn [fst] in *.
  unfold sleeps in *. cbn. now rewrite IH.
Qed.

(** X4.  With every jitter draw in [0, 1/2], a call sleeps 36.5 seconds
    at most in total (2 + 4 + 8 + 10 + 10 and five draws), and never a
    negative time. *)
Theorem total_sleep_bounded :
  (forall a, 0 <= uniform_0_half net a <= 1 # 2)%Q ->
  (0 <= total_sleep (fst (get s net b)) <= 73 # 2)%Q.
Proof.
  intros Hjit. unfold total_sleep, get, max_attempts.
  destruct (sleeps_prefix (seqZ 1 5)) as (n & ->).
  change (seqZ 1 5) with [1; 2; 3; 4; 5].
  pose proof (Hjit 1) as [? ?]. pose proof (Hjit 2) as [? ?].
  pose proof (Hjit 3) as [? ?]. pose proof (Hjit 4) as [? ?].
  pose proof (Hjit 5) as [? ?].
  do 6 (try destruct n as [|n]); cbn [take map fold_right]; unfold backoff;
    change (inject_Z (Z.min 10 (2 ^ 1))) with (2 # 1)%Q;
    change (inject_Z (Z.min 10 (2 ^ 2))) with (4 # 1)%Q;
    change (inject_Z (Z.min 10 (2 ^ 3))) with (8 # 1)%Q;
    change (inject_Z (Z.min 10 (2 ^ 4))) with (10 # 1)%Q;
    change (inject_Z (Z.min 10 (2 ^ 5))) with (10 # 1)%Q;
    split; lra.
Qed.

Lemma request_identity todo a ua px :
  In (EvRequest a ua px) (fst (run todo)) ->
  In a todo /\ ua = select_user_agent s net a /\ px = select_proxy s net a.
Proof.
  induction todo as [|a0 rest IH]; [simpl; intros [Heq | []]; discriminate|].
  cbn [attempts].
  assert (Hhead : forall l, In (EvRequest a ua px)
                    (EvRequest a0 (select_user_agent s net a0) (select_proxy s net a0) :: l) ->
                    (In (EvRequest a ua px) l -> In a rest /\ ua = select_user_agent s net a
                                                  /\ px = select_proxy s net a) ->
                    In a (a0 :: rest) /\ ua = select_user_agent s net a
                    /\ px = select_proxy s net a).
  { intros l [Heq | Hin] Hl.
    - injection Heq as <- <- <-. repeat split. now left.
    - destruct (Hl Hin) as (? & ? & ?). repeat split; auto. now right. }
  destruct (session_get net a0) as [r|e].
  - destruct (status_in (status_code r) [200; 201]).
    + intros Hin. apply (Hhead _ Hin). intros [Heq | []]. discriminate.
    + destruct (status_in (status_code r) [403; 429; 503]).
      * destruct (run rest) as [evs res]. cbn [fst] in *. intros Hin.
        apply (Hhead _ Hin). intros [Heq | [Heq | Hin']]; try discriminate. now apply IH.
      * intros Hin. apply (Hhead _ Hin). intros [Heq | []]. discriminate.
  - intros Hin. apply (Hhead _ Hin). intros [].
Qed.

(** X5.  A configured user agent and a configured proxy are used for
    every request of a call: with them set there is no rotation between
    attempts. *)
Theorem pinned_identity_on_every_request (ua0 p0 : string) :
  user_agent s = ua0 -> ua0 <> "" ->
  proxy_url s = Some p0 -> p0 <> "" ->
  forall a ua px,
    In (EvRequest a ua px) (fst (get s net b)) -> ua = Some ua0 /\ px = Some p0.
Proof.
  intros Hua Hne Hp Hpne a ua px Hin.
  apply request_identity in Hin as (_ & -> & ->).
  apply String.eqb_neq in Hne, Hpne. split.
  - unfold select_user_agent. rewrite Hua, Hne. reflexivity.
  - unfold select_proxy. rewrite Hp. cbn [truthy_str]. rewrite Hpne. cbn [negb].
    cbn [truthy_str]. rewrite Hpne. reflexivity.
Qed.

Lemma random_choice_in attempt l p : random_choice net attempt l = Some p -> In p l.
Proof.
  unfold random_choice. intros Hl. apply list_elem_of_In.
  now apply list_elem_of_lookup_2 in Hl.
Qed.

(** X6.  The identity of a request comes from the configuration: its
    proxy is the configured proxy or a line of the proxies file, and is
    never the empty string; its user agent is the configured one or a
    line of the user-agent file. *)
Theorem identity_from_configuration :
  forall a ua px,
    In (EvRequest a ua px) (fst (get s net b)) ->
    (forall p, px = Some p ->
       p <> "" /\ (proxy_url s = Some p \/ In p (proxies_file_lines s))) /\
    (forall u, ua = Some u ->
       u = user_agent s \/ exists l, user_agent_list s = Some l /\ In u l).
Proof.
  intros a ua px Hin. apply request_identity in Hin as (_ & -> & ->). split.
  - intros p. unfold select_proxy.
    set (proxy := if truthy_str (proxy_url s) then proxy_url s
                  else match proxies_file_lines s with
                       | [] => None
                       | l => random_choice net a l
                       end).
    destruct (truthy_str proxy) eqn:Ht; [|discriminate].
    intros Hp. split.
    + intros ->. rewrite Hp in Ht. discriminate.
    + subst proxy. destruct (truthy_str (proxy_url s)); [now left | right].
      destruct (proxies_file_lines s) as [|x l] eqn:Hl; [discriminate|].
      now apply random_choice_in in Hp.
  - intros u. unfold select_user_agent.
    destruct (negb (String.eqb (user_agent s) "")); [intros [= <-]; now left|].
    destruct (user_agent_list s) as [[|x l]|]; try discriminate.
    intros Hu. right. exists (x :: l). split; [reflexivity|].
    now apply random_choice_in in Hu.
Qed.

End CurlClientMore.

(** ** More on the extraction pipeline *)

Section ParserMore.
Context `{PyRuntime} `{BS4}.

Import ListingListProcessor.

Lemma append_empty x y : x +:+ y = "" -> y = "".
Proof. destruct x; simpl; [auto | discriminate]. Qed.

Lemma resolve_href_nonempty base_url h : h <> "" -> resolve_href base_url h <> "".
Proof.
  intros Hne. unfold resolve_href.
  destruct (startswith "/" h && truthy_str base_url); [|exact Hne].
  intros Heq. apply append_empty in Heq. contradiction.
Qed.

Lemma truthy_PStr x : x <> "" -> truthy (PStr x) = true.
Proof. intros Hne. simpl. apply String.eqb_neq in Hne. now rewrite Hne. Qed.

Lemma keep_candidate_kept cand c : In c (keep_candidate cand) -> has_title_or_url c = true.
Proof.
  unfold keep_candidate. destruct (has_title_or_url cand) eqn:Hk; [|intros []].
  intros [<- | []]. exact Hk.
Qed.

(** What [collect] returns comes from the elements of the list. *)
Lemma collect_in {A B} (f : A -> Exc (list B)) xs : forall l y,
  collect f xs = Ok l -> In y l ->
  exists x ys, In x xs /\ f x = Ok ys /\ In y ys.
Proof.
  induction xs as [|x xs IH]; intros l y; simpl.
  - intros [= <-] [].
  - destruct (f x) as [ys|e] eqn:Hfx; simpl; [|discriminate].
    destruct (collect f xs) as [zs|e]; simpl; [|discriminate].
    intros [= <-] Hin. apply in_app_or in Hin as [Hin | Hin].
    + exists x, ys. split; [now left | split; assumption].
    + destruct (IH zs y eq_refl Hin) as (x' & ys' & Hx' & Hf & Hy).
      exists x', ys'. split; [now right | split; assumption].
Qed.

Lemma collect_app {A B} (f : A -> Exc (list B)) xs ys :
  collect f (xs ++ ys) =
    (do a <- collect f xs ; do c <- collect f ys ; Ok (a ++ c))%exc.
Proof.
  induction xs as [|x xs IH]; simpl.
  - destruct (collect f ys); reflexivity.
  - destruct (f x) as [l|e]; simpl; [|reflexivity]. rewrite IH.
    destruct (collect f xs) as [a|e]; simpl; [|reflexivity].
    destruct (collect f ys) as [c|e]; simpl; [|reflexivity].
    now rewrite app_assoc.
Qed.

Lemma graph_offer_kept base_url offer l c :
  graph_offer base_url offer = Ok l -> In c l -> has_title_or_url c = true.
Proof.
  unfold graph_offer. destruct (isinstance_dict offer); [|intros [= <-] []].
  destruct (resolve_json_url base_url (dget offer "url")); simpl; [|discriminate].
  intros [= <-]. apply keep_candidate_kept.
Qed.

Lemma payload_candidate_kept base_url obj l c :
  payload_candidate base_url obj = Ok l -> In c l -> has_title_or_url c = true.
Proof.
  unfold payload_candidate. destruct (isinstance_dict obj); [|intros [= <-] []].
  destruct (resolve_json_url base_url (dget obj "url")); simpl; [|discriminate].
  destruct (if isinstance_dict (dget obj "address")
            then join_address (dget (dget obj "address") "streetAddress")
                              (dget (dget obj "address") "addressLocality")
            else Ok None); simpl; [|discriminate].
  intros [= <-]. apply keep_candidate_kept.
Qed.

Lemma graph_candidates_kept base_url data l c :
  graph_candidates base_url data = Ok l -> In c l -> has_title_or_url c = true.
Proof.
  unfold graph_candidates. destruct data as [| | | |?|d]; try (intros [= <-] []).
  destruct (assoc_mem "@graph" d); [|intros [= <-] []].
  destruct (assoc_get "@graph" d) as [| | | |graph|?]; try (intros [= <-] []).
  intros Hc Hin. destruct (collect_in _ _ _ _ Hc Hin) as (g & ys & _ & Hg & Hy).
  unfold graph_item in Hg. destruct g as [| | | |?|gd]; try (injection Hg as <-; destruct Hy).
  destruct (assoc_mem "offers" gd); [|injection Hg as <-; destruct Hy].
  destruct (assoc_get "offers" gd) as [| | | |?|o]; try (injection Hg as <-; destruct Hy).
  destruct (assoc_mem "offers" o); [|injection Hg as <-; destruct Hy].
  destruct (assoc_get "offers" o) as [| | | |offers|?]; try (injection Hg as <-; destruct Hy).
  destruct (collect_in _ _ _ _ Hg Hy) as (offer & zs & _ & Ho & Hz).
  now apply (graph_offer_kept base_url offer zs c).
Qed.

Lemma ld_json_script_kept base_url tag l c :
  ld_json_script base_url tag = Ok l -> In c l -> has_title_or_url c = true.
Proof.
  unfold ld_json_script. destruct (json_loads _) as [data|e]; [|intros [= <-] []].
  destruct (graph_candidates base_url data) as [g|e] eqn:Hg; simpl; [|discriminate].
  destruct (collect (payload_candidate base_url) _) as [p|e] eqn:Hp; simpl; [|discriminate].
  intros [= <-] Hin. apply in_app_or in Hin as [Hin | Hin].
  - now apply (graph_candidates_kept base_url data g c).
  - destruct (collect_in _ _ _ _ Hp Hin) as (obj & ys & _ & Ho & Hy).
    now apply (payload_candidate_kept base_url obj ys c).
Qed.

Lemma state_item_kept base_url it c :
  In c (state_item base_url it) -> has_title_or_url c = true.
Proof.
  unfold state_item. destruct (isinstance_dict it); [|intros []].
  apply keep_candidate_kept.
Qed.

Lemma state_script_kept base_url script c :
  In c (state_script base_url script) -> has_title_or_url c = true.
Proof.
  unfold state_script. destruct (contains "__INITIAL_STATE__" _); [|intros []].
  destruct (brace_region _); [|intros []].
  destruct (json_loads _); [|intros []].
  intros Hin. apply in_flat_map in Hin as (it & _ & Hin).
  now apply (state_item_kept base_url it).
Qed.

(** X15.  The scan of the inline scripts stops at the first script that
    gives a candidate, and returns what that script gives. *)
Theorem state_scripts_first_yield (base_url : option string) (scripts : list Tag) :
  state_scripts base_url scripts =
    match find (fun script => negb (bool_decide (state_script base_url script = [])))
               scripts with
    | Some script => state_script base_url script
    | None => []
    end.
Proof.
  induction scripts as [|script rest IH]; [reflexivity|].
  cbn [state_scripts find]. destruct (state_script base_url script) as [|c l] eqn:Hs.
  - rewrite bool_decide_eq_true_2 by reflexivity. exact IH.
  - rewrite bool_decide_eq_false_2 by discriminate. cbn [negb]. now rewrite Hs.
Qed.

Lemma state_scripts_kept base_url scripts c :
  In c (state_scripts base_url scripts) -> has_title_or_url c = true.
Proof.
  induction scripts as [|script rest IH]; [intros []|].
  cbn [state_scripts]. destruct (state_script base_url script) as [|c0 l] eqn:Hs;
    [exact IH|].
  rewrite <- Hs. apply state_script_kept.
Qed.

Lemma extract_from_soup_kept base_url soup c :
  In c (extract_from_soup base_url soup) -> has_title_or_url c = true.
Proof.
  unfold extract_from_soup.
  set (card_nodes := match select soup CARDS_PRIMARY with
                     | [] => select soup CARDS_FALLBACK
                     | nodes => nodes
                     end).
  destruct (List.filter has_title_or_url (map (card_item base_url) card_nodes))
    as [|c0 l] eqn:Hcards.
  - intros Hin. apply list_elem_of_In, list_elem_of_omap in Hin as (a & _ & Ha).
    unfold link_item in Ha.
    destruct (attr a "href") as [h|] eqn:Hattr; [|discriminate].
    destruct (truthy_str (Some h)) eqn:Hhref; cbn [negb] in Ha; [|discriminate].
    injection Ha as <-. unfold has_title_or_url. cbn [url]. simpl default.
    rewrite (truthy_PStr (resolve_href base_url h)); [apply orb_true_r|].
    apply resolve_href_nonempty. intros ->. discriminate.
  - intros Hin. rewrite <- Hcards in Hin. now apply filter_In in Hin as [_ Hk].
Qed.

Lemma dedupe_in items : forall seen c,
  In c (dedupe items seen) ->
  In c items /\ exists u, url c = PStr u /\ ~ In u seen.
Proof.
  induction items as [|it rest IH]; intros seen c; [intros []|].
  cbn [dedupe]. destruct (url it) as [| | |u| |] eqn:Hu;
    try (intros Hin; destruct (IH seen c Hin) as (? & ?); split; [now right | assumption]).
  destruct (mem_str u seen) eqn:Hm.
  - intros Hin. destruct (IH seen c Hin) as (? & ?). split; [now right | assumption].
  - intros [<- | Hin].
    + split; [now left|]. exists u. split; [exact Hu|].
      intros Hin. apply mem_str_spec in Hin. congruence.
    + destruct (IH (u :: seen) c Hin) as (Hc & u' & Hu' & Hnot).
      split; [now right|]. exists u'. split; [exact Hu'|].
      intros Hin'. apply Hnot. now right.
Qed.

(** X9.  No tier lets through a candidate that has neither title nor
    url: every candidate of [extract_all] has a truthy title or url,
    and every candidate of the regex sweep has a non-empty title and a
    string url. *)
Theorem candidates_have_title_or_url (html : string) (base_url : option string) :
  (forall l c, extract_all html base_url = Ok l -> In c l ->
               has_title_or_url c = true) /\
  (forall c, In c (_fallback_regex_sweep html base_url) ->
             truthy (title c) = true /\ exists u, url c = PStr u).
Proof.
  split.
  - intros l c. unfold extract_all.
    destruct (_extract_from_scripts (soup_lxml html) base_url) as [scripted|e] eqn:Hs;
      simpl; [|discriminate].
    intros [= <-] Hin. apply in_app_or in Hin as [Hin | Hin].
    + unfold tier1_cards in Hin.
      destruct (extract_from_soup base_url (soup_lxml html)) as [|c0 l0] eqn:H1.
      * now apply (extract_from_soup_kept base_url (soup_html_parser html)).
      * rewrite <- H1 in Hin. now apply (extract_from_soup_kept base_url (soup_lxml html)).
    + unfold _extract_from_scripts in Hs.
      destruct (collect (ld_json_script base_url) (select (soup_lxml html) LD_JSON_SCRIPTS))
        as [items|e] eqn:Hc; simpl in Hs; [|discriminate].
      destruct items as [|i0 items].
      * injection Hs as <-. exact (state_scripts_kept base_url _ c Hin).
      * injection Hs as <-.
        destruct (collect_in _ _ _ _ Hc Hin) as (tag & ys & _ & Ht & Hy).
        now apply (ld_json_script_kept base_url tag ys c).
  - intros c Hin. unfold _fallback_regex_sweep in Hin.
    apply dedupe_in in Hin as (Hin & u & Hu & _). split; [|eauto].
    apply in_flat_map in Hin as ([[href inner] tail] & _ & Hin).
    unfold sweep_candidate in Hin.
    set (title_text := _normalize (Some (re_sub_tags inner))) in *.
    destruct (String.eqb title_text "") eqn:Hempty; cbn [orb] in Hin; [destruct Hin|].
    destruct ((str_len title_text <? 3) || String.eqb (str_lower title_text) "подробнее");
      [destruct Hin|].
    destruct Hin as [<- | []]. cbn [title truthy]. now rewrite Hempty.
Qed.

End ParserMore.

Section ParserMore2.
Context `{PyRuntime} `{BS4}.

Import ListingListProcessor.

Lemma dedupe_sublist items : forall seen, sublist (dedupe items seen) items.
Proof.
  induction items as [|it rest IH]; intros seen; [constructor|].
  cbn [dedupe]. destruct (url it) as [| | |u| |]; try (apply sublist_cons, IH).
  destruct (mem_str u seen); [apply sublist_cons, IH | apply sublist_skip, IH].
Qed.

Lemma dedupe_nodup items : forall seen, NoDup (map url (dedupe items seen)).
Proof.
  induction items as [|it rest IH]; intros seen; [constructor|].
  cbn [dedupe]. destruct (url it) as [| | |u| |] eqn:Hu; try apply IH.
  destruct (mem_str u seen); [apply IH|].
  cbn [map]. rewrite Hu. apply NoDup_cons. split; [|apply IH].
  rewrite list_elem_of_In. intros Hin. apply in_map_iff in Hin as (c & Hc & Hin).
  apply dedupe_in in Hin as (_ & u' & Hu' & Hnot). rewrite Hu' in Hc.
  injection Hc as ->. apply Hnot. now left.
Qed.

Lemma dedupe_complete items : forall seen c u,
  In c items -> url c = PStr u -> ~ In u seen ->
  exists c', In c' (dedupe items seen) /\ url c' = PStr u.
Proof.
  induction items as [|it rest IH]; intros seen c u; [intros []|].
  intros [<- | Hin] Hu Hnot; cbn [dedupe].
  - rewrite Hu. destruct (mem_str u seen) eqn:Hm.
    + apply mem_str_spec in Hm. contradiction.
    + exists it. split; [now left | exact Hu].
  - destruct (url it) as [| | |u0| |] eqn:Hu0; try (now apply (IH seen c u)).
    destruct (mem_str u0 seen) eqn:Hm; [now apply (IH seen c u)|].
    destruct (String.eqb u0 u) eqn:E.
    + apply String.eqb_eq in E. subst u0. exists it. split; [now left | exact Hu0].
    + apply String.eqb_neq in E.
      destruct (IH (u0 :: seen) c u Hin Hu) as (c' & Hc' & Hu').
      { intros [Heq | Hin']; [contradiction | now apply Hnot]. }
      exists c'. split; [now right | exact Hu'].
Qed.

(** X10.  The regex sweep returns one candidate per url: its urls are
    pairwise different, every url matched in the markup (with an
    acceptable title) is among them, and the candidates keep the order
    of the matches. *)
Theorem regex_sweep_one_per_url (html : string) (base_url : option string) :
  let matched := flat_map (sweep_candidate base_url) (re_finditer_item_anchors html) in
  let swept := _fallback_regex_sweep html base_url in
  NoDup (map url swept) /\
  sublist swept matched /\
  (forall c, In c matched -> exists c', In c' swept /\ url c' = url c).
Proof.
  cbn zeta. unfold _fallback_regex_sweep. repeat split.
  - apply dedupe_nodup.
  - apply dedupe_sublist.
  - intros c Hin.
    assert (Hu : exists u, url c = PStr u).
    { apply in_flat_map in Hin as ([[href inner] tail] & _ & Hin).
      unfold sweep_candidate in Hin.
      destruct (_ || _ || _); [destruct Hin|]. destruct Hin as [<- | []]. eauto. }
    destruct Hu as (u & Hu). rewrite Hu.
    apply (dedupe_complete _ [] c u Hin Hu). intros [].
Qed.

(** X11.  A structured-data script whose text is not JSON adds nothing
    and stops nothing: the scan gives what it gives without that
    script. *)
Theorem bad_script_is_skipped (base_url : option string) (before after : list Tag)
    (tag : Tag) (e : PyError) :
  json_loads (script_source tag) = Raise e ->
  ld_json_script base_url tag = Ok [] /\
  collect (ld_json_script base_url) (before ++ tag :: after) =
  collect (ld_json_script base_url) (before ++ after).
Proof.
  intros Hbad.
  assert (Hone : ld_json_script base_url tag = Ok []).
  { unfold ld_json_script. fold (script_source tag). now rewrite Hbad. }
  split; [exact Hone|].
  rewrite !collect_app. cbn [collect]. rewrite Hone. cbn [bind].
  destruct (collect (ld_json_script base_url) before) as [a|e1]; cbn [bind]; [|reflexivity].
  destruct (collect (ld_json_script base_url) after) as [c|e2]; reflexivity.
Qed.

Lemma resolve_json_url_raises base_url u :
  (forall e, resolve_json_url base_url u = Raise e ->
             e = AttributeError /\ str_or_falsy u = false) /\
  (str_or_falsy u = false -> resolve_json_url base_url u = Raise AttributeError).
Proof.
  unfold resolve_json_url, str_or_falsy.
  destruct (truthy u) eqn:Ht; cbn [negb orb].
  - destruct u; cbn [isinstance_str]; split; intros; try discriminate; try auto;
      match goal with
      | Hr : Raise _ = Raise _ |- _ => injection Hr as <-; auto
      end.
  - split; intros; discriminate.
Qed.

(** X12.  The mapping of one structured-data object raises in two
    cases only: [AttributeError] when its [url] is truthy and not a
    string, and (for the flat shape) [TypeError] when a truthy part of
    its address is not a string.  In every other case it returns. *)
Theorem structured_data_errors (base_url : option string) (obj : PyVal) :
  (forall e, graph_offer base_url obj = Raise e <->
     isinstance_dict obj = true /\ str_or_falsy (dget obj "url") = false /\
     e = AttributeError) /\
  (forall e, payload_candidate base_url obj = Raise e <->
     isinstance_dict obj = true /\
     (str_or_falsy (dget obj "url") = false /\ e = AttributeError \/
      str_or_falsy (dget obj "url") = true /\
      isinstance_dict (dget obj "address") = true /\
      str_or_falsy (dget (dget obj "address") "streetAddress")
      && str_or_falsy (dget (dget obj "address") "addressLocality") = false /\
      e = TypeError)).
Proof.
  destruct (resolve_json_url_raises base_url (dget obj "url")) as [Hr1 Hr2].
  split; intros e.
  - unfold graph_offer. destruct (isinstance_dict obj).
    + destruct (resolve_json_url base_url (dget obj "url")) as [u|e'] eqn:Hu; cbn [bind].
      * split; [discriminate|]. intros (_ & Hf & _). pose proof (Hr2 Hf) as Hx. congruence.
      * destruct (Hr1 e' eq_refl) as [-> Hf]. split.
        -- intros [= <-]. auto.
        -- intros (_ & _ & ->). reflexivity.
    + split; [discriminate | intros (Hd & _); discriminate].
  - unfold payload_candidate. destruct (isinstance_dict obj).
    + destruct (resolve_json_url base_url (dget obj "url")) as [u|e'] eqn:Hu; cbn [bind].
      * assert (Hsf : str_or_falsy (dget obj "url") = true).
        { destruct (str_or_falsy (dget obj "url")) eqn:Hf; [reflexivity|].
          pose proof (Hr2 eq_refl) as Hx. congruence. }
        destruct (isinstance_dict (dget obj "address")).
        -- unfold join_address.
           set (street := dget (dget obj "address") "streetAddress").
           set (locality := dget (dget obj "address") "addressLocality").
           assert (Hall : forallb isinstance_str (List.filter truthy [street; locality])
                          = str_or_falsy street && str_or_falsy locality).
           { unfold str_or_falsy. cbn [List.filter].
             destruct (truthy street), (truthy locality); cbn;
               rewrite ?andb_true_r; reflexivity. }
           rewrite Hall. destruct (str_or_falsy street && str_or_falsy locality);
             cbn [bind].
           ++ split; [discriminate|].
              intros (_ & [(Hf & _) | (_ & _ & Hf & _)]); congruence.
           ++ split.
              ** intros [= <-]. split; [reflexivity|]. right. auto.
              ** intros (_ & [(Hf & _) | (_ & _ & _ & ->)]); [congruence | reflexivity].
        -- cbn [bind]. split; [discriminate|].
           intros (_ & [(Hf & _) | (_ & Hd & _)]); congruence.
      * destruct (Hr1 e' eq_refl) as [-> Hf]. split.
        -- intros [= <-]. split; [reflexivity|]. left. auto.
        -- intros (_ & [(_ & ->) | (Ht & _)]); [reflexivity | congruence].
    + split; [discriminate | intros (Hd & _); discriminate].
Qed.

Lemma collect_images_grows base_url srcs : forall imgs i,
  In i imgs -> In i (collect_images base_url srcs imgs).
Proof.
  induction srcs as [|o srcs IH]; intros imgs i Hin; [exact Hin|].
  cbn [collect_images]. destruct (truthy_str o && negb (mem_str (default "" o) imgs));
    apply IH; [apply in_or_app; now left | exact Hin].
Qed.

Lemma collect_images_complete base_url srcs : forall imgs src,
  In (Some src) srcs -> src <> "" ->
  In src (collect_images base_url srcs imgs) \/
  In (resolve_src base_url src) (collect_images base_url srcs imgs).
Proof.
  induction srcs as [|o srcs IH]; intros imgs src; [intros []|].
  intros [-> | Hin] Hne; cbn [collect_images].
  - assert (Ht : truthy_str (Some src) = true)
      by (simpl; apply String.eqb_neq in Hne; now rewrite Hne).
    rewrite Ht. simpl default. destruct (mem_str src imgs) eqn:Hm; cbn [andb negb].
    + left. apply collect_images_grows. now apply mem_str_spec.
    + right. apply collect_images_grows. apply in_or_app. right. now left.
  - destruct (truthy_str o && negb (mem_str (default "" o) imgs)); now apply IH.
Qed.

(** X13.  No image of a card is lost: for every [img] element of the
    card with a non-empty [src], the list holds that source as written
    or in its resolved form (for a source in absolute form the two are
    the same). *)
Theorem card_images_complete (base_url : option string) (card img : Tag) (src : string) :
  In img (select card CARD_IMAGES) -> attr img "src" = Some src -> src <> "" ->
  (In src (card_images base_url card) \/
   In (resolve_src base_url src) (card_images base_url card)) /\
  (startswith "/" src = false -> In src (card_images base_url card)).
Proof.
  intros Himg Hattr Hne.
  assert (Hor : In src (card_images base_url card) \/
                In (resolve_src base_url src) (card_images base_url card)).
  { unfold card_images. apply collect_images_complete; [|exact Hne].
    apply in_map_iff. exists img. split; assumption. }
  split; [exact Hor|]. intros Habs.
  rewrite (resolve_src_id base_url src Habs) in Hor. tauto.
Qed.

Lemma rstrip_slash_snoc x : rstrip_slash (x +:+ "/") = rstrip_slash x.
Proof.
  induction x as [|c x IH]; [reflexivity|].
  change (String c x +:+ "/") with (String c (x +:+ "/")).
  cbn [rstrip_slash]. now rewrite IH.
Qed.

Lemma rstrip_slash_no_trailing x : forall y, rstrip_slash x <> y +:+ "/".
Proof.
  induction x as [|c x IH]; intros y.
  - destruct y; discriminate.
  - cbn [rstrip_slash]. destruct (rstrip_slash x) as [|c' r] eqn:Hr.
    + destruct (Ascii.eqb c "/") eqn:Hc.
      * destruct y; discriminate.
      * destruct y as [|d y]; cbn.
        -- intros [= ->]. rewrite Ascii.eqb_refl in Hc. discriminate.
        -- intros [= _ Hy]. destruct y; discriminate.
    + destruct y as [|d y]; cbn.
      * discriminate.
      * intros [= _ Hy]. now apply (IH y).
Qed.

(** X14.  Trailing slashes of the base do not show in a resolved link:
    the stripped base never ends in "/", a base with one more slash at
    its end resolves every link to the same result, and a link that
    does not start with "/" is left as it is. *)
Theorem base_trailing_slash_irrelevant (b h : string) :
  (forall y, rstrip_slash b <> y +:+ "/") /\
  rstrip_slash (b +:+ "/") = rstrip_slash b /\
  resolve_href (Some (b +:+ "/")) h = resolve_href (Some b) h /\
  (startswith "/" h = false -> forall base_url, resolve_href base_url h = h).
Proof.
  repeat split.
  - apply rstrip_slash_no_trailing.
  - apply rstrip_slash_snoc.
  - unfold resolve_href. destruct (startswith "/" h) eqn:Hh; cbn [andb]; [|reflexivity].
    assert (Ht : truthy_str (Some (b +:+ "/")) = true) by (destruct b; reflexivity).
    rewrite Ht. simpl default. rewrite rstrip_slash_snoc.
    destruct b as [|c b]; [reflexivity|]. reflexivity.
  - intros Hh base_url. unfold resolve_href. now rewrite Hh.
Qed.

(** X17.  A state blob in which no dict has a list under a key that
    reads "items", "list" or "docs" yields nothing. *)
Theorem walk_needs_item_list (state : PyVal) :
  mentions_items state = false -> walk state = [].
Proof.
  induction state using PyVal_nested_ind; try reflexivity.
  - cbn [mentions_items walk]. induction H1 as [|x l Hx Hl IH]; [reflexivity|].
    cbn [existsb flat_map]. intros Hm. apply orb_false_iff in Hm as [Hm1 Hm2].
    now rewrite (Hx Hm1), (IH Hm2).
  - cbn [mentions_items walk]. induction H1 as [|[k x] d Hx Hd IH]; [reflexivity|].
    cbn [existsb flat_map fst snd]. intros Hm.
    apply orb_false_iff in Hm as [Hm1 Hm2]. apply orb_false_iff in Hm1 as [Hk Hmx].
    rewrite Hk. cbn [snd] in Hx. now rewrite (Hx Hmx), (IH Hm2).
Qed.

End ParserMore2.

(** ** More on reconciliation, persistence and the runs *)

Section ReconcileMore.

Import Main.

Lemma seen_set_absent k data seen :
  seen_get k seen = None -> seen_set k data seen = seen ++ [(k, data)].
Proof.
  induction seen as [|[k' c] rest IH]; simpl; [reflexivity|].
  destruct (key_eqb k' k); [discriminate|]. intros Hn. now rewrite IH.
Qed.

Lemma seen_get_absent k seen : ~ In k (map fst seen) -> seen_get k seen = None.
Proof.
  induction seen as [|[k' c] rest IH]; simpl; [reflexivity|].
  intros Hnot. destruct (key_eqb k' k) eqn:E.
  - apply key_eqb_true in E. tauto.
  - apply IH. tauto.
Qed.

(** The loop on a list of entries with distinct keys only appends. *)
Lemma reconcile_loop_distinct seen : forall seen0,
  NoDup (map fst (seen0 ++ seen)) ->
  (forall k c, In (k, c) seen -> url_case (url c) = Keyed k) ->
  reconcile_loop (map snd seen) seen0 = Ok (seen0 ++ seen).
Proof.
  induction seen as [|[k c] rest IH]; intros seen0 Hnd Hkeyed.
  - now rewrite app_nil_r.
  - cbn [map snd reconcile_loop]. rewrite (Hkeyed k c) by now left.
    assert (Habsent : seen_get k seen0 = None).
    { apply seen_get_absent. rewrite map_app in Hnd. apply NoDup_app in Hnd as (_ & Hd & _).
      intros Hin. apply (Hd k); [now apply list_elem_of_In|]. cbn. left. }
    rewrite Habsent, (seen_set_absent k c seen0 Habsent).
    replace (seen0 ++ (k, c) :: rest) with ((seen0 ++ [(k, c)]) ++ rest)
      by (now rewrite <- app_assoc).
    apply IH.
    + now rewrite <- app_assoc.
    + intros k' c' Hin. apply Hkeyed. now right.
Qed.

Lemma reconcile_ok_hashable items seen :
  reconcile items = Ok seen -> Forall hashable_url items.
Proof.
  intros Hrun. apply Forall_forall. intros c Hin Hun.
  unfold reconcile in Hrun.
  rewrite (reconcile_loop_unhashable items []) in Hrun; [discriminate|].
  apply Exists_exists. exists c. split; [first [exact Hin | now apply list_elem_of_In] | exact Hun].
Qed.

Lemma reconcile_facts items seen :
  reconcile items = Ok seen ->
  NoDup (map fst seen) /\
  forall k c, In (k, c) seen <-> winner (group k items) = Some c.
Proof.
  intros Hrun. destruct (reconcile_ok items (reconcile_ok_hashable items seen Hrun))
    as (seen' & Hrun' & Hnd & Hiff).
  rewrite Hrun in Hrun'. injection Hrun' as <-. split; assumption.
Qed.

(** X18.  Reconciliation is idempotent: the candidates it keeps,
    reconciled again, are kept as they are and in the same order. *)
Theorem reconcile_idempotent (items : list Candidate) (seen : list (Key * Candidate)) :
  reconcile items = Ok seen -> reconcile (map snd seen) = Ok seen.
Proof.
  intros Hrun. destruct (reconcile_facts items seen Hrun) as [Hnd Hiff].
  unfold reconcile. apply (reconcile_loop_distinct seen []); [exact Hnd|].
  intros k c Hin. apply Hiff in Hin. now apply winner_keyed in Hin.
Qed.

Lemma reconcile_loop_length items : forall seen seen',
  reconcile_loop items seen = Ok seen' ->
  (length seen' <= length seen + length items)%nat.
Proof.
  induction items as [|data rest IH]; intros seen seen'.
  - intros [= <-]. simpl. lia.
  - cbn [reconcile_loop]. destruct (url_case (url data)) as [| |k]; [|discriminate|].
    + intros Hr. apply IH in Hr. simpl. lia.
    + assert (Hset : (length (seen_set k data seen) <= S (length seen))%nat).
      { clear. induction seen as [|[k' c] l IHl]; simpl; [lia|].
        destruct (key_eqb k' k); simpl; lia. }
      destruct (seen_get k seen) as [existing|];
        [destruct (has_images data && negb (has_images existing))|];
        intros Hr; apply IH in Hr; simpl; lia.
Qed.

End ReconcileMore.

Section PersistMore.
Context `{PyRuntime}.
Variable utcnow : nat -> Z.

Import Main.

(** X19.  The count that a run reports is the number of distinct urls
    of the batch: candidates without url and repeated urls do not
    count, and neither the content of the table nor whether a row had
    to be written changes it. *)
Theorem saved_counts_distinct_urls (db db1 : DB) (items : list Candidate) (n : nat) :
  persist utcnow db items = Ok (db1, n) ->
  (n <= length items)%nat /\
  (exists keys,
     NoDup keys /\ length keys = n /\
     forall k, In k keys <-> exists c, In c items /\ url_case (url c) = Keyed k) /\
  (forall db', exists db2, persist utcnow db' items = Ok (db2, n)).
Proof.
  unfold persist. destruct (reconcile items) as [seen|e] eqn:Hrun; cbn [bind]; [|discriminate].
  intros [= <- <-]. destruct (reconcile_facts items seen Hrun) as [Hnd Hiff].
  repeat split.
  - apply (reconcile_loop_length items [] seen Hrun).
  - exists (map fst seen). repeat split.
    + exact Hnd.
    + apply length_map.
    + intros Hin. apply in_map_iff in Hin as ([k' c] & Heq & Hin). simpl in Heq. subst k'.
      apply Hiff, winner_keyed in Hin as [Hk Hin]. eauto.
    + intros (c & Hin & Hk). destruct (keyed_has_winner k items c Hin Hk) as (w & Hw).
      apply Hiff in Hw. apply (in_map fst) in Hw. exact Hw.
  - intros db'. eexists. reflexivity.
Qed.

(** X20.  Persisting a batch removes no row and touches no row of
    another url: a url that no candidate of the batch carries keeps its
    row as it was, every row keeps its [created_at], and the table does
    not shrink. *)
Theorem persist_frame (db db1 : DB) (items : list Candidate) (n : nat) :
  persist utcnow db items = Ok (db1, n) ->
  (forall k, (forall c, In c items -> url_case (url c) <> Keyed k) ->
             find_row k (rows db1) = find_row k (rows db)) /\
  (forall k r, find_row k (rows db) = Some r ->
               exists r', find_row k (rows db1) = Some r' /\
                          created_at r' = created_at r) /\
  (forall k, In k (stored_urls db) -> In k (stored_urls db1)) /\
  (reads db <= reads db1)%nat.
Proof.
  unfold persist. destruct (reconcile items) as [seen|e] eqn:Hrun; cbn [bind]; [|discriminate].
  intros [= <- <-]. destruct (reconcile_facts items seen Hrun) as [Hnd Hiff].
  destruct (fold_upsert_spec utcnow seen db Hnd) as (Hreads & Hother & Hsame & _ & _).
  assert (Hkeys : forall k, In k (map fst seen) ->
                    exists c, In c items /\ url_case (url c) = Keyed k).
  { intros k Hin. apply in_map_iff in Hin as ([k' c] & Heq & Hin). simpl in Heq. subst k'.
    apply Hiff, winner_keyed in Hin as [Hk Hin]. eauto. }
  repeat split.
  - intros k Hnone. apply Hother. intros Hin.
    destruct (Hkeys k Hin) as (c & Hc & Hk). now apply (Hnone c).
  - intros k r Hrow.
    destruct (in_dec (fun a b => decide (a = b)) k (map fst seen)) as [Hin | Hnot].
    + apply in_map_iff in Hin as ([k' c] & Heq & Hin). simpl in Heq. subst k'.
      destruct (Hsame k c Hin) as (r' & Hf & Hu). exists r'. split; [exact Hf|].
      destruct Hu as (_ & _ & Hu). rewrite Hrow in Hu. apply Hu.
    + exists r. split; [|reflexivity]. now rewrite (Hother k Hnot).
  - intros k Hin. apply fold_upsert_urls. now left.
  - exact Hreads.
Qed.

End PersistMore.

Section RunMore.
Context `{PyRuntime} `{BS4}.
Variable utcnow : nat -> Z.

Import Main.

(** X21.  A run stores all of its batch or nothing.  [run-once] either
    logs "Fetch failed" last and leaves the table as it was, or it
    fetched, extracted and persisted, and its events are the dispatch,
    the extraction, the count found and the count saved; [parse-file]
    either logs "parse-file failed" last and leaves the table as it
    was, or persisted the candidate list it settled on and logs the
    count saved last. *)
Theorem runs_store_all_or_nothing (db : DB) :
  (forall client,
     (exists e, last (snd (run_once utcnow client db)) = Some (LogFetchFailed e) /\
                fst (run_once utcnow client db) = db) \/
     (exists html items n,
        client_get client = Ok html /\
        ListingListProcessor.extract_all html BASE_URL = Ok items /\
        persist utcnow db items = Ok (fst (run_once utcnow client db), n) /\
        snd (run_once utcnow client db) =
          [Dispatch html; ExtractAll html; LogFound (length items); LogSaved n])) /\
  (forall d,
     (exists e, last (snd (parse_file utcnow d db)) = Some (LogParseFileFailed e) /\
                fst (parse_file utcnow d db) = db) \/
     (exists html items n,
        page_html d = Ok html /\
        snd (parse_file_items d html) = Ok items /\
        persist utcnow db items = Ok (fst (parse_file utcnow d db), n) /\
        last (snd (parse_file utcnow d db)) = Some (LogSaved n))).
Proof.
  split.
  - intros client. unfold run_once.
    destruct (client_get client) as [html|e] eqn:Hget; [|left; exists e; split; reflexivity].
    unfold extract_stage.
    destruct (ListingListProcessor.extract_all html BASE_URL) as [items|e] eqn:Hex.
    + unfold save_stage. destruct (persist utcnow db items) as [[db' n]|e] eqn:Hp.
      * right. exists html, items, n. cbn [fst snd app]. auto.
      * left. exists e. split; reflexivity.
    + left. exists e. split; reflexivity.
  - intros d. unfold parse_file.
    destruct (page_html d) as [html|e] eqn:Hpage; [|left; exists e; split; reflexivity].
    destruct (parse_file_items d html) as [evs [items|e]] eqn:Hitems.
    + unfold save_stage. destruct (persist utcnow db items) as [[db' n]|e] eqn:Hp.
      * right. exists html, items, n. rewrite Hitems. cbn [fst snd].
        split; [reflexivity|]. split; [reflexivity|]. split; [exact Hp|].
        apply last_snoc.
      * left. exists e. cbn [fst snd]. split; [|reflexivity].
        rewrite app_nil_l. apply last_snoc.
    + left. exists e. cbn [fst snd]. split; [apply last_snoc | reflexivity].
Qed.

(** X22.  [parse-file] stops at the first source that gives candidates:
    when [extract_all] on the page gives at least one, no sibling file
    is read (not even an unreadable one matters) and the sweep is not
    run, and that list is the one persisted. *)
Theorem parse_file_stops_at_first_yield (d : Dump) (html : string) (c : Candidate)
    (items : list Candidate) :
  ListingListProcessor.extract_all html BASE_URL = Ok (c :: items) ->
  parse_file_items d html =
    ([ExtractAll html; LogFound (S (length items))], Ok (c :: items)).
Proof.
  intros Hex. unfold parse_file_items, before_sweep, extract_stage. rewrite Hex.
  reflexivity.
Qed.

(** X23.  The chat handler never reports an error of the run: no
    exception reaches its last [except] branch, and after a [run-once]
    whose fetch failed it answers that the parsing was done. *)
Theorem bot_reply_hides_failure :
  (forall target_url cmd db e,
     fst (fst (on_run_parser utcnow target_url cmd db)) <> ReplyError e) /\
  (forall target_url client db e,
     target_url <> "" -> client_get client = Raise e ->
     on_run_parser utcnow target_url (RunOnce client) db
     = (ReplyDone, db, [LogFetchFailed e])) /\
  (forall cmd db, on_run_parser utcnow "" cmd db = (ReplyFinished, db, [])).
Proof.
  repeat split.
  - intros target_url cmd db e. unfold on_run_parser, main.
    destruct (String.eqb target_url ""); [discriminate|].
    destruct cmd as [client|[dmp|]].
    + destruct (run_once utcnow client db). discriminate.
    + destruct (parse_file utcnow dmp db). discriminate.
    + discriminate.
  - intros target_url client db e Hurl Hget. unfold on_run_parser, main.
    apply String.eqb_neq in Hurl. rewrite Hurl. unfold run_once. rewrite Hget. reflexivity.
Qed.

End RunMore.

Section HelpersMore.
Context `{PyRuntime}.

(** X24.  For a page size [limit > 0] and an offset inside a non-empty
    journal, the four buttons point inside the journal: the previous
    offset is in [0, offset], the next one in [offset, total), the last
    page starts at a multiple of [limit] and holds the last record; the
    offsets stay multiples of [limit] when [offset] is one.  With an
    empty journal the last-page button carries the negative offset
    [-limit]; with [limit = 0] the markup cannot be built. *)
Theorem pagination_bounds (offset limit total : Z) :
  (0 < limit -> 0 <= offset < total ->
   exists p,
     build_pagination_markup offset limit total = Some p /\
     first_off p = 0 /\
     0 <= prev_off p <= offset /\
     offset <= next_off p < total /\
     0 <= last_page_off p < total /\ total <= last_page_off p + limit /\
     ((limit | offset) ->
      (limit | prev_off p) /\ (limit | next_off p) /\ (limit | last_page_off p))) /\
  (0 < limit -> total = 0 ->
   exists p, build_pagination_markup offset limit total = Some p /\
             last_page_off p = - limit) /\
  (limit = 0 -> build_pagination_markup offset limit total = None).
Proof.
  split; [|split].
  - intros Hlimit Hoff. unfold build_pagination_markup.
    destruct (limit =? 0) eqn:E; [apply Z.eqb_eq in E; lia|].
    eexists. split; [reflexivity|]. cbn [first_off prev_off next_off last_page_off].
    pose proof (Z.mul_div_le (total - 1) limit Hlimit) as Hle.
    pose proof (Z.mul_succ_div_gt (total - 1) limit Hlimit) as Hgt.
    assert (Hq : 0 <= (total - 1) / limit) by (apply Z.div_pos; lia).
    assert (Hnext : offset <= (if offset + limit <? total then offset + limit else offset)
                    < total).
    { destruct (offset + limit <? total) eqn:En; [apply Z.ltb_lt in En|]; lia. }
    split; [reflexivity|]. split; [lia|]. split; [exact Hnext|].
    split; [nia|]. split; [nia|].
    intros Hdiv. split; [|split].
    + destruct (Z.max_spec 0 (offset - limit)) as [[_ ->] | [_ ->]].
      * apply Z.divide_sub_r; [exact Hdiv | apply Z.divide_refl].
      * apply Z.divide_0_r.
    + destruct (offset + limit <? total); [|exact Hdiv].
      apply Z.divide_add_r; [exact Hdiv | apply Z.divide_refl].
    + apply Z.divide_factor_l.
  - intros Hlimit ->. unfold build_pagination_markup.
    destruct (limit =? 0) eqn:E; [apply Z.eqb_eq in E; lia|].
    eexists. split; [reflexivity|]. cbn [last_page_off].
    replace ((0 - 1) / limit) with (-1); [lia|].
    apply Z.div_unique with (r := limit - 1); lia.
  - intros ->. reflexivity.
Qed.

Lemma PyVal_eqb_spec a b : PyVal_eqb a b = true <-> a = b.
Proof. split; [apply PyVal_eqb_eq | intros ->; apply PyVal_eqb_refl]. Qed.

(** X25.  [sanitize_query_params] drops exactly the entries whose value
    is [None] or the empty string and keeps the others in their order,
    the falsy values [0], [False] and [[]] included; applying it twice
    changes nothing more.  [load_proxies] gives no proxy without a
    configured path or without the file, and never an empty line. *)
Theorem helpers_filter (params : list (string * PyVal)) :
  (forall k v, In (k, v) (sanitize_query_params params) <->
               In (k, v) params /\ v <> PNone /\ v <> PStr "") /\
  sublist (sanitize_query_params params) params /\
  sanitize_query_params (sanitize_query_params params) = sanitize_query_params params /\
  (forall k, sanitize_query_params [(k, PInt 0); (k, PNone); (k, PBool false);
                                    (k, PStr ""); (k, PList [])]
             = [(k, PInt 0); (k, PBool false); (k, PList [])]) /\
  (forall file_path lines p,
     In p (load_proxies file_path lines) ->
     p <> "" /\ truthy_str file_path = true /\
     exists ls line, lines = Some ls /\ In line ls /\ p = str_strip line) /\
  (forall lines, load_proxies None lines = []) /\
  (forall file_path, load_proxies file_path None = []).
Proof.
  repeat apply conj.
  - intros k v. unfold sanitize_query_params. rewrite filter_In. cbn [snd].
    rewrite andb_true_iff, !negb_true_iff.
    split; intros (Hin & Hv); (split; [exact Hin|]).
    + destruct Hv as [H1 H2]. split; intros ->.
      * rewrite PyVal_eqb_refl in H1. discriminate.
      * rewrite PyVal_eqb_refl in H2. discriminate.
    + destruct Hv as [H1 H2]. split.
      * destruct (PyVal_eqb v PNone) eqn:E; [apply PyVal_eqb_eq in E; contradiction | reflexivity].
      * destruct (PyVal_eqb v (PStr "")) eqn:E;
          [apply PyVal_eqb_eq in E; contradiction | reflexivity].
  - unfold sanitize_query_params. induction params as [|kv rest IH]; [constructor|].
    cbn [List.filter].
    destruct (negb (PyVal_eqb (snd kv) PNone) && negb (PyVal_eqb (snd kv) (PStr "")));
      [now apply sublist_skip | now apply sublist_cons].
  - unfold sanitize_query_params. induction params as [|kv rest IH]; [reflexivity|].
    cbn [List.filter].
    destruct (negb (PyVal_eqb (snd kv) PNone) && negb (PyVal_eqb (snd kv) (PStr ""))) eqn:E.
    + cbn [List.filter]. rewrite E. now f_equal.
    + exact IH.
  - intros k. reflexivity.
  - intros file_path lines p. unfold load_proxies.
    destruct (truthy_str file_path); cbn [negb]; [|intros []].
    destruct lines as [ls|]; [|intros []].
    intros Hin. apply in_map_iff in Hin as (line & <- & Hin).
    apply filter_In in Hin as [Hin Hne]. apply negb_true_iff, String.eqb_neq in Hne.
    split; [exact Hne|]. split; [reflexivity|]. eauto.
  - reflexivity.
  - intros file_path. unfold load_proxies. destruct (negb (truthy_str file_path)); reflexivity.
Qed.

(** X26.  The journal shows the first image of the candidate that was
    stored: when [json.loads] reads back what [json.dumps] wrote,
    [get_first_image_url] on the stored [images_json] is the first
    entry of the candidate's [images], and nothing when the candidate
    has no image.  An empty or unparsable column gives nothing. *)
Theorem first_image_round_trip (data : Candidate) :
  let imgs := default [] (images data) in
  json_dumps imgs <> "" ->
  json_loads (json_dumps imgs) = Ok (PList (map PStr imgs)) ->
  get_first_image_url (Some (c_images_json (Main.columns_of data)))
  = match imgs with
    | [] => NoImage
    | first :: _ => Image (PStr first)
    end.
Proof.
  cbn zeta. intros Hne Hloads. unfold get_first_image_url. cbn [Main.columns_of c_images_json].
  assert (Ht : truthy_str (Some (json_dumps (default [] (images data)))) = true).
  { simpl. apply String.eqb_neq in Hne. now rewrite Hne. }
  rewrite Ht. cbn [negb]. simpl default at 1. rewrite Hloads.
  destruct (default [] (images data)) as [|first rest]; reflexivity.
Qed.

Lemma first_image_absent :
  get_first_image_url None = NoImage /\ get_first_image_url (Some "") = NoImage /\
  (forall x, json_loads x = Raise JSONDecodeError -> get_first_image_url (Some x) = NoImage).
Proof.
  repeat split. intros x Hx. unfold get_first_image_url.
  destruct (negb (truthy_str (Some x))); [reflexivity|]. simpl default. now rewrite Hx.
Qed.

End HelpersMore.
